(** * Inngest MCP server: the API client and the tool facade

    A shallow embedding of [src/inngest-client.ts] (class [InngestClient])
    and of the tool handlers of [src/index.ts], with the properties the
    specification states about them.

    - [JS]      the JavaScript values and coercions the code relies on
                (JSON values, truthiness, [String.prototype.includes],
                the [in] operator, [JSON.stringify]);
    - [Client]  [InngestClient]: a state-and-exception monad over the
                client's two diagnostic fields, the log of [fetch] calls
                and the clock;
    - [Facade]  the handlers registered with [server.registerTool], over
                the client's typed interface. *)

From stdpp Require Import gmap strings list fin_maps pretty.
From Stdlib Require Import ZArith Lia.

Open Scope Z_scope.

Set Warnings "-register-all".

(* ===================================================================== *)
(** * JavaScript values *)
(* ===================================================================== *)

Module JS.

(** What [response.json()] produces, and what [JSON.stringify] consumes.
    Numbers are the integral ones: no claim looks inside a fraction. *)
Inductive JSON : Type :=
| JNull
| JBool (b : bool)
| JNum (n : Z)
| JStr (s : string)
| JArr (items : list JSON)
| JObj (fields : list (string * JSON)).

(** A thrown value: an [Error] object with its [message], or anything else,
    kept as what [String(value)] gives. [instanceof Error] tells them apart. *)
Inductive Thrown : Type :=
| ErrorObj (message : string)
| NonError (text : string).

Inductive result (A : Type) : Type :=
| Ok (a : A)
| Throw (e : Thrown).
Arguments Ok {A} a.
Arguments Throw {A} e.

(** [error instanceof Error ? error.message : String(error)] *)
Definition messageOrString (e : Thrown) : string :=
  match e with
  | ErrorObj m => m
  | NonError t => t
  end.

(** [error instanceof Error ? error : new Error(String(error))], as the
    message of the resulting [Error]. *)
Definition asError (e : Thrown) : string := messageOrString e.

(** Truthiness of a string: every string but the empty one. *)
Definition truthyStr (s : string) : bool := negb (String.eqb s "").

(** Truthiness of an optional string ([undefined] is falsy). *)
Definition truthyOptStr (o : option string) : bool :=
  match o with
  | Some s => truthyStr s
  | None => false
  end.

(** Truthiness of a JSON value. *)
Definition truthy (v : JSON) : bool :=
  match v with
  | JNull => false
  | JBool b => b
  | JNum n => negb (n =? 0)
  | JStr s => truthyStr s
  | JArr _ => true
  | JObj _ => true
  end.

(** Truthiness of a property that may be [undefined]. *)
Definition truthyOpt (o : option JSON) : bool :=
  match o with
  | Some v => truthy v
  | None => false
  end.

(** [hay.includes(needle)] *)
Fixpoint includes (needle hay : string) : bool :=
  if String.prefix needle hay then true
  else match hay with
       | EmptyString => false
       | String _ rest => includes needle rest
       end.

(** Own property of an object, first binding. *)
Fixpoint assoc (k : string) (fields : list (string * JSON)) : option JSON :=
  match fields with
  | [] => None
  | (k', v) :: rest => if String.eqb k k' then Some v else assoc k rest
  end.

(** [String(v)] for the primitive values (used in V8's error wording). *)
Definition primToString (v : JSON) : string :=
  match v with
  | JNull => "null"
  | JBool true => "true"
  | JBool false => "false"
  | JNum n => pretty n
  | JStr s => s
  | JArr _ => ""
  | JObj _ => "[object Object]"
  end.

(** [k in v]. On an object: whether [k] is a key (the keys the client asks
    for, [data] and [run_id], are not inherited from [Object.prototype]); on
    an array: an index below the length, or [length]; on a primitive value
    the operator throws a [TypeError], here with V8's wording. *)
Definition inOperator (k : string) (v : JSON) : result bool :=
  match v with
  | JObj fields => Ok (bool_decide (is_Some (assoc k fields)))
  | JArr items =>
      Ok (String.eqb k "length"
          || existsb (fun i => String.eqb k (pretty i)) (seq 0 (length items)))
  | _ => Throw (ErrorObj ("Cannot use 'in' operator to search for '" +:+ k
                          +:+ "' in " +:+ primToString v))
  end.

(** [v.k] where [v] is known to be an object or an array; [None] is
    [undefined]. *)
Definition prop (k : string) (v : JSON) : option JSON :=
  match v with
  | JObj fields => assoc k fields
  | _ => None
  end.

(** [v.k] in general: reading a property of [null] throws. *)
Definition getProp (k : string) (v : JSON) : result (option JSON) :=
  match v with
  | JNull => Throw (ErrorObj ("Cannot read properties of null (reading '"
                              +:+ k +:+ "')"))
  | _ => Ok (prop k v)
  end.

(** A string whose first character is a decimal digit. *)
Definition startsWithDigit (s : string) : bool :=
  match s with
  | String c _ =>
      (48 <=? Ascii.nat_of_ascii c)%nat && (Ascii.nat_of_ascii c <=? 57)%nat
  | EmptyString => false
  end.

(** ** [JSON.stringify(v)] *)



Definition dquote : string := String (Ascii.ascii_of_nat 34) EmptyString.
Definition backslash : string := String (Ascii.ascii_of_nat 92) EmptyString.

Definition hexDigit (n : nat) : string :=
  match n with
  | 10%nat => "a" | 11%nat => "b" | 12%nat => "c"
  | 13%nat => "d" | 14%nat => "e" | 15%nat => "f"
  | _ => pretty n
  end.

Definition escapeChar (c : Ascii.ascii) : string :=
  let n := Ascii.nat_of_ascii c in
  if (n =? 34)%nat then backslash +:+ dquote
  else if (n =? 92)%nat then backslash +:+ backslash
  else if (n =? 8)%nat then backslash +:+ "b"
  else if (n =? 9)%nat then backslash +:+ "t"
  else if (n =? 10)%nat then backslash +:+ "n"
  else if (n =? 12)%nat then backslash +:+ "f"
  else if (n =? 13)%nat then backslash +:+ "r"
  else if (n <? 32)%nat then
    backslash +:+ "u00" +:+ hexDigit (n / 16) +:+ hexDigit (n mod 16)
  else String c EmptyString.

Fixpoint escape (s : string) : string :=
  match s with
  | EmptyString => EmptyString
  | String c rest => escapeChar c +:+ escape rest
  end.

Definition quote (s : string) : string := dquote +:+ escape s +:+ dquote.

Fixpoint joinWith (sep : string) (parts : list string) : string :=
  match parts with
  | [] => ""
  | [p] => p
  | p :: rest => p +:+ sep +:+ joinWith sep rest
  end.

(** The compact form. A number is written with its decimal digits, as
    JavaScript writes one that is [printedInFull]. *)
Fixpoint stringify (v : JSON) : string :=
  match v with
  | JNull => "null"
  | JBool true => "true"
  | JBool false => "false"
  | JNum n => pretty n
  | JStr s => quote s
  | JArr items => "[" +:+ joinWith "," (map stringify items) +:+ "]"
  | JObj fields =>
      "{" +:+ joinWith ","
                (map (fun kv => quote (fst kv) +:+ ":" +:+ stringify (snd kv))
                     fields)
          +:+ "}"
  end.

End JS.

(* ===================================================================== *)
(** * Asynchronous code as a state-and-exception monad *)
(* ===================================================================== *)

(** An [async] function over a mutable world [S]: it ends with a value or
    with a thrown value (a rejected promise), and leaves a world behind. *)
Module Async.
Import JS.

Definition M (S A : Type) : Type := S -> result A * S.

#[global] Instance M_ret {S : Type} : MRet (M S) := fun A a st => (Ok a, st).

#[global] Instance M_bind {S : Type} : MBind (M S) := fun A B f m st =>
  match m st with
  | (Ok a, st') => f a st'
  | (Throw e, st') => (Throw e, st')
  end.

Definition throw {S A : Type} (e : Thrown) : M S A := fun st => (Throw e, st).

(** [try { m } catch (error) { handler error }] *)
Definition try_catch {S A : Type} (m : M S A) (handler : Thrown -> M S A)
  : M S A :=
  fun st =>
    match m st with
    | (Ok a, st') => (Ok a, st')
    | (Throw e, st') => handler e st'
    end.

(** A synchronous step that may throw. *)
Definition lift {S A : Type} (r : result A) : M S A := fun st => (r, st).

#[global] Instance result_ret : MRet result := fun A a => Ok a.

#[global] Instance result_bind : MBind result := fun A B f r =>
  match r with
  | Ok a => f a
  | Throw e => Throw e
  end.

End Async.

(* ===================================================================== *)
(** * The API client ([src/inngest-client.ts]) *)
(* ===================================================================== *)

Module Client.
Import JS Async.

Record InngestConfig : Type := {
  signingKey : string;
  eventKey : option string;
  baseUrl : string;
  env : option string
}.

(** [interface ApiResponse] *)
Record ApiResponse : Type := {
  ar_url : string;
  ar_status : Z;
  ar_data : JSON;
  ar_timestamp : string
}.

(** [interface ApiError] *)
Record ApiError : Type := {
  ae_message : string;
  ae_timestamp : string
}.

(** The [RequestInit] a caller of [apiRequest] passes as [options]. *)
Record RequestInit : Type := {
  method : option string;
  headers : option (gmap string string);
  body : option string
}.

Definition noOptions : RequestInit :=
  {| method := None; headers := None; body := None |}.

(** One call [fetch(url, {...options, headers})]. *)
Record Request : Type := {
  fetch_url : string;
  fetch_method : option string;
  fetch_headers : gmap string string;
  fetch_body : option string
}.

(** The [Response] the client looks at: its status line and what its
    [text()] and [json()] methods resolve to ([json()] rejects on a body that
    is not JSON). *)
Record Response : Type := {
  status : Z;
  statusText : string;
  text : string;
  json : result JSON
}.

(** [response.ok]: a status in the range 200-299. *)
Definition ok (r : Response) : bool := (200 <=? status r) && (status r <=? 299).

(** The world outside the client: what the [n]-th call of [fetch] answers
    to a request (a [Response], or a rejection), and what the clock shows at
    its [n]-th reading, as [new Date().toISOString()] and as [Date.now()]. *)
Record Host : Type := {
  fetch : nat -> Request -> result Response;
  toISOString : nat -> string;
  now : nat -> Z
}.

(** The client instance's mutable fields, with the log of the [fetch] calls
    made so far and the number of clock readings. *)
Record State : Type := {
  _lastResponse : option ApiResponse;
  _lastError : option ApiError;
  calls : list Request;
  clock : nat
}.

Definition initial : State :=
  {| _lastResponse := None; _lastError := None; calls := []; clock := 0%nat |}.

Abbreviation M := (Async.M State).

Definition doFetch (host : Host) (rq : Request) : M Response := fun st =>
  (fetch host (length (calls st)) rq,
   {| _lastResponse := _lastResponse st; _lastError := _lastError st;
      calls := calls st ++ [rq]; clock := clock st |}).

(** [new Date().toISOString()] *)
Definition newDateISO (host : Host) : M string := fun st =>
  (Ok (toISOString host (clock st)),
   {| _lastResponse := _lastResponse st; _lastError := _lastError st;
      calls := calls st; clock := S (clock st) |}).

(** [Date.now()] *)
Definition dateNow (host : Host) : M Z := fun st =>
  (Ok (now host (clock st)),
   {| _lastResponse := _lastResponse st; _lastError := _lastError st;
      calls := calls st; clock := S (clock st) |}).

Definition setLastResponse (r : ApiResponse) : M unit := fun st =>
  (Ok tt,
   {| _lastResponse := Some r; _lastError := _lastError st;
      calls := calls st; clock := clock st |}).

Definition setLastError (e : ApiError) : M unit := fun st =>
  (Ok tt,
   {| _lastResponse := _lastResponse st; _lastError := Some e;
      calls := calls st; clock := clock st |}).

(** ** [apiRequest] *)

(** [baseUrl.includes('localhost') || baseUrl.includes('127.0.0.1')] *)
Definition isLocal (config : InngestConfig) : bool :=
  includes "localhost" (baseUrl config) || includes "127.0.0.1" (baseUrl config).

(** The condition under which [apiRequest] sets [headers.Authorization]. *)
Definition sendsAuth (config : InngestConfig) : bool :=
  truthyStr (signingKey config)
  && negb (String.eqb (signingKey config) "local-dev-key")
  && negb (includes "localhost" (baseUrl config))
  && negb (includes "127.0.0.1" (baseUrl config)).

(** The [headers] object [apiRequest] builds: the default content type,
    then the caller's headers spread over it, then the two assignments. *)
Definition requestHeaders (config : InngestConfig) (options : RequestInit)
  : gmap string string :=
  let headers0 : gmap string string :=
    default ∅ (headers options) ∪ {[ "Content-Type" := "application/json" ]} in
  let headers1 :=
    match env config with
    | Some e => if truthyStr e then <[ "X-Inngest-Env" := e ]> headers0
                else headers0
    | None => headers0
    end in
  if sendsAuth config
  then <[ "Authorization" := "Bearer " +:+ signingKey config ]> headers1
  else headers1.

(** The arguments of the [fetch] call of [apiRequest(endpoint, options)]. *)
Definition buildRequest (config : InngestConfig) (endpoint : string)
    (options : RequestInit) : Request :=
  {| fetch_url := baseUrl config +:+ endpoint;
     fetch_method := method options;
     fetch_headers := requestHeaders config options;
     fetch_body := body options |}.

Definition apiErrorMessage (response : Response) : string :=
  "Inngest API error: " +:+ pretty (status response) +:+ " "
  +:+ statusText response +:+ " - " +:+ text response.

Definition apiRequest (config : InngestConfig) (host : Host)
    (endpoint : string) (options : RequestInit) : M JSON :=
  let url := baseUrl config +:+ endpoint in
  response ← doFetch host (buildRequest config endpoint options);
  if negb (ok response) then
    throw (ErrorObj (apiErrorMessage response))
  else
    responseData ← lift (json response);
    timestamp ← newDateISO host;
    _ ← setLastResponse {| ar_url := url; ar_status := status response;
                           ar_data := responseData; ar_timestamp := timestamp |};
    mret responseData.

(** ** The operations *)

(** [value || fallback] on a property that may be [undefined]. *)
Definition orElse (value : option JSON) (fallback : JSON) : JSON :=
  match value with
  | Some v => if truthy v then v else fallback
  | None => fallback
  end.

Definition getEventRuns (config : InngestConfig) (host : Host)
    (eventId : string) : M JSON :=
  response ← apiRequest config host ("/v1/events/" +:+ eventId +:+ "/runs")
                        noOptions;
  data ← lift (getProp "data" response);
  mret (orElse data (JArr [])).

(** [limit] goes into the URL with its decimal digits, as the template
    literal puts a whole number that is [printedInFull]. *)
Definition getFunctionRuns (config : InngestConfig) (host : Host)
    (functionId : string) (limit : option Z) : M JSON :=
  let limit := default 20 limit in
  try_catch
    (response ← apiRequest config host
                  ("/v1/functions/" +:+ functionId +:+ "/runs?limit="
                   +:+ pretty limit)
                  noOptions;
     data ← lift (getProp "data" response);
     mret (orElse data (JArr [])))
    (fun error => if isLocal config then mret (JArr []) else throw error).

(** How one turn of a candidate loop ends: the function returns, or the loop
    goes on to the next endpoint with the current [lastError]. *)
Inductive Outcome (A : Type) : Type :=
| Return (a : A)
| Continue (lastError : option string).
Arguments Return {A} a.
Arguments Continue {A} lastError.

(** [lastError?.message || 'Unknown error'] *)
Definition lastErrorText (lastError : option string) : string :=
  match lastError with
  | Some m => if truthyStr m then m else "Unknown error"
  | None => "Unknown error"
  end.

(** The loop [for (const endpoint of possibleEndpoints) { try {...} catch
    {...} }] followed by the final [throw], which [getRunDetails],
    [cancelRun] and [replayRun] each spell out. [attempt] is the body of the
    [try]: [Some a] when it returns [a] from the operation, [None] when it
    falls through to the next endpoint. [failure] builds the message of the
    final error from the text of the last one. *)
Section CandidateLoop.
Context {A : Type} (host : Host).
Variable attempt : string -> M (option A).
Variable failure : string -> string.

Definition turn (endpoint : string) (lastError : option string)
    : M (Outcome A) :=
    try_catch
      (r ← attempt endpoint;
       mret (match r with
             | Some a => Return a
             | None => Continue lastError
             end))
      (fun error =>
         let lastError := asError error in
         timestamp ← newDateISO host;
         _ ← setLastError {| ae_message := lastError;
                             ae_timestamp := timestamp |};
         mret (Continue (Some lastError))).

Fixpoint tryEndpoints (possibleEndpoints : list string)
      (lastError : option string) : M A :=
    match possibleEndpoints with
    | [] => throw (ErrorObj (failure (lastErrorText lastError)))
    | endpoint :: rest =>
        outcome ← turn endpoint lastError;
        match outcome with
        | Return a => mret a
        | Continue lastError => tryEndpoints rest lastError
        end
    end.
End CandidateLoop.

(** The two response formats [getRunDetails] handles: [Some run] is the
    value it returns, [None] a response in neither format. *)
Definition readRun (response : JSON) : result (option JSON) :=
  hasData ← inOperator "data" response;
  if hasData && truthyOpt (prop "data" response) then
    Ok (prop "data" response)
  else
    hasRunId ← inOperator "run_id" response;
    Ok (if hasRunId : bool then Some response else None).

Definition runDetailsEndpoints (runId : string) : list string :=
  [ "/v0/runs/" +:+ runId; "/v1/runs/" +:+ runId; "/runs/" +:+ runId ].

Definition getRunDetails (config : InngestConfig) (host : Host)
    (runId : string) : M JSON :=
  if isLocal config then
    throw (ErrorObj "Run details not available in development mode. Please use Inngest Cloud for run management features.")
  else
    tryEndpoints host
      (fun endpoint =>
         response ← apiRequest config host endpoint noOptions;
         lift (readRun response))
      (fun last => "Failed to get run details for " +:+ runId
                   +:+ ". Last error: " +:+ last)
      (runDetailsEndpoints runId) None.

Definition getRunSteps (runId : string) : M JSON := mret (JArr []).

(** [{ success: boolean }] *)
Record Ack : Type := { success : bool }.

Definition post : RequestInit :=
  {| method := Some "POST"; headers := None; body := None |}.

Definition cancelEndpoints (runId : string) : list string :=
  [ "/v0/runs/" +:+ runId +:+ "/cancel";
    "/v1/runs/" +:+ runId +:+ "/cancel";
    "/runs/" +:+ runId +:+ "/cancel" ].

Definition cancelRun (config : InngestConfig) (host : Host) (runId : string)
  : M Ack :=
  if isLocal config then
    throw (ErrorObj "Run cancellation not available in development mode. Please use Inngest Cloud for run management features.")
  else
    tryEndpoints host
      (fun endpoint =>
         _ ← apiRequest config host endpoint post;
         mret (Some {| success := true |}))
      (fun last => "Failed to cancel run " +:+ runId
                   +:+ ". Last error: " +:+ last)
      (cancelEndpoints runId) None.

Record BulkCancelParams : Type := {
  functionId : option string;
  startedAfter : option string;
  startedBefore : option string;
  condition : option string
}.

(** [if (value) requestBody.key = value] on an object that has no [key] yet. *)
Definition assignIf (key : string) (value : option string)
    (requestBody : list (string * JSON)) : list (string * JSON) :=
  match value with
  | Some v => if truthyStr v then requestBody ++ [(key, JStr v)]
              else requestBody
  | None => requestBody
  end.

Definition bulkCancelBody (params : BulkCancelParams) : list (string * JSON) :=
  assignIf "if" (condition params)
    (assignIf "started_before" (startedBefore params)
       (assignIf "started_after" (startedAfter params)
          (assignIf "function_id" (functionId params) []))).

Definition bulkCancelRuns (config : InngestConfig) (host : Host)
    (params : BulkCancelParams) : M JSON :=
  try_catch
    (let requestBody := bulkCancelBody params in
     apiRequest config host "/v1/cancellations"
       {| method := Some "POST"; headers := None;
          body := Some (stringify (JObj requestBody)) |})
    (fun error =>
       if isLocal config then
         throw (ErrorObj "Bulk cancellation not available in development mode. Please use Inngest Cloud for run management features.")
       else throw error).

Definition replayEndpoints (runId : string) : list string :=
  [ "/v0/runs/" +:+ runId +:+ "/replay";
    "/v1/runs/" +:+ runId +:+ "/replay";
    "/runs/" +:+ runId +:+ "/replay";
    "/v0/runs/" +:+ runId +:+ "/retry";
    "/v1/runs/" +:+ runId +:+ "/retry";
    "/runs/" +:+ runId +:+ "/retry" ].

Definition replayRun (config : InngestConfig) (host : Host) (runId : string)
  : M Ack :=
  if isLocal config then
    throw (ErrorObj "Run replay not available in development mode. Please use Inngest Cloud for run management features.")
  else
    tryEndpoints host
      (fun endpoint =>
         _ ← apiRequest config host endpoint post;
         mret (Some {| success := true |}))
      (fun last => "Failed to replay run " +:+ runId
                   +:+ ". Last error: " +:+ last)
      (replayEndpoints runId) None.

Definition sendEvent (config : InngestConfig) (host : Host)
    (eventName : string) (data : JSON) : M JSON :=
  timestamp ← dateNow host;
  apiRequest config host "/v1/events"
    {| method := Some "POST"; headers := None;
       body := Some (stringify (JObj [ ("name", JStr eventName);
                                       ("data", data);
                                       ("timestamp", JNum timestamp) ])) |}.

Definition getLastError (st : State) : option ApiError := _lastError st.
Definition getLastResponse (st : State) : option ApiResponse := _lastResponse st.

(** What [apiRequest] ends with when its request is the [n]-th [fetch] call:
    the parsed body of a response with a success status, or what is thrown
    (by [fetch], for a failure status, or by [json()]). *)
Definition exchange (host : Host) (n : nat) (rq : Request) : result JSON :=
  match fetch host n rq with
  | Ok response =>
      if ok response then json response
      else Throw (ErrorObj (apiErrorMessage response))
  | Throw e => Throw e
  end.

(** How the [try] body of [getRunDetails] ends on the endpoint whose request
    is the [n]-th [fetch] call: [Ok (Some run)] returns [run], [Ok None] falls
    through to the next endpoint, [Throw e] enters the [catch]. *)
Definition detailsOutcome (config : InngestConfig) (host : Host) (n : nat)
    (endpoint : string) : result (option JSON) :=
  response ← exchange host n (buildRequest config endpoint noOptions);
  readRun response.

(** How the [try] body of [cancelRun] and of [replayRun] ends on the endpoint
    whose request is the [n]-th [fetch] call. *)
Definition postOutcome (config : InngestConfig) (host : Host) (n : nat)
    (endpoint : string) : result JSON :=
  exchange host n (buildRequest config endpoint post).

(** The state [apiRequest] leaves when it throws, or before it records the
    response: only the log of calls has grown. *)
Definition logged (rq : Request) (st : State) : State :=
  {| _lastResponse := _lastResponse st; _lastError := _lastError st;
     calls := calls st ++ [rq]; clock := clock st |}.

(** The state [apiRequest] leaves when it returns [v]. *)
Definition recorded (host : Host) (rq : Request) (code : Z) (v : JSON)
    (st : State) : State :=
  {| _lastResponse := Some {| ar_url := fetch_url rq; ar_status := code;
                              ar_data := v;
                              ar_timestamp := toISOString host (clock st) |};
     _lastError := _lastError st;
     calls := calls st ++ [rq];
     clock := S (clock st) |}.

(** [m] adds to the log only requests that satisfy [P]. *)
Definition sends {A : Type} (P : Request -> Prop) (m : M A) : Prop :=
  forall st, exists new, calls (m st).2 = calls st ++ new /\ Forall P new.

(** A request as the public operations make them: [apiRequest] called with
    options that carry no [headers]. *)
Definition plain (config : InngestConfig) (rq : Request) : Prop :=
  exists endpoint options,
    headers options = None /\ rq = buildRequest config endpoint options.

(** A body [response.json()] can give that is an object or an array, the
    values on which the [in] operator is defined. *)
Definition isObjectOrArray (v : JSON) : bool :=
  match v with
  | JObj _ | JArr _ => true
  | _ => false
  end.

(** The [n]-th [fetch] call answers [rq] with a success status and a body, an
    object or an array, that has neither a truthy [data] field nor a
    [run_id] field. *)
Definition answersUnrecognised (host : Host) (n : nat) (rq : Request) : Prop :=
  exists response body,
    fetch host n rq = Ok response
    /\ ok response = true
    /\ json response = Ok body
    /\ isObjectOrArray body = true
    /\ truthyOpt (prop "data" body) = false
    /\ prop "run_id" body = None.

(** An optional parameter counts as supplied when it passes the test
    [if (params.field)]: a string, and not the empty one. *)
Definition supplied (value : option string) : option string :=
  match value with
  | Some v => if truthyStr v then Some v else None
  | None => None
  end.

(** The requests [apiRequest] builds for a list of endpoints. *)
Definition requestsFor (config : InngestConfig) (options : RequestInit)
    (endpoints : list string) : list Request :=
  map (fun endpoint => buildRequest config endpoint options) endpoints.

(** The public operations, and running one for its effects. *)
Inductive Operation : Type :=
| GetEventRuns (eventId : string)
| GetFunctionRuns (functionId : string) (limit : option Z)
| GetRunDetails (runId : string)
| GetRunSteps (runId : string)
| CancelRun (runId : string)
| BulkCancelRuns (params : BulkCancelParams)
| ReplayRun (runId : string)
| SendEvent (eventName : string) (data : JSON).

Definition discard {A : Type} (m : M A) : M unit := _ ← m; mret tt.

Definition perform (config : InngestConfig) (host : Host) (op : Operation)
  : M unit :=
  match op with
  | GetEventRuns eventId => discard (getEventRuns config host eventId)
  | GetFunctionRuns functionId limit =>
      discard (getFunctionRuns config host functionId limit)
  | GetRunDetails runId => discard (getRunDetails config host runId)
  | GetRunSteps runId => discard (getRunSteps runId)
  | CancelRun runId => discard (cancelRun config host runId)
  | BulkCancelRuns params => discard (bulkCancelRuns config host params)
  | ReplayRun runId => discard (replayRun config host runId)
  | SendEvent eventName data => discard (sendEvent config host eventName data)
  end.

(** The requests an operation adds to the log when run from [st]. *)
Definition issued (config : InngestConfig) (host : Host) (op : Operation)
    (st : State) : list Request :=
  drop (length (calls st)) (calls (perform config host op st).2).

End Client.

(* ===================================================================== *)
(** * The tool facade ([src/index.ts]) *)
(* ===================================================================== *)

Module Facade.
Import JS Async.

(** ** The client as the facade sees it: the declared interfaces *)

Inductive RunStatus : Type := Running | Completed | Failed | Cancelled | Paused.

Inductive StepStatus : Type :=
| StepRunning | StepCompleted | StepFailed | StepSkipped.

(** [interface WorkflowStep] *)
Record WorkflowStep : Type := {
  step_id : string;
  step_name : string;
  step_status : StepStatus;
  step_started_at : string;
  step_ended_at : option string;
  step_output : option JSON;
  step_error : option string;
  step_duration_ms : option Z
}.

(** [interface WorkflowRun] *)
Record WorkflowRun : Type := {
  run_id : string;
  run_started_at : string;
  function_id : string;
  function_version : Z;
  environment_id : string;
  event_id : string;
  status : RunStatus;
  ended_at : option string;
  output : option JSON;
  steps : option (list WorkflowStep)
}.

(** [{ id: string }], what [sendEvent] resolves to. *)
Record EventAck : Type := { ack_id : string }.

(** The methods of [InngestClient] the handlers call, with the types the
    class declares, over whatever state [S] the instance keeps. *)
Record ClientApi (S : Type) : Type := {
  sendEvent : string -> JSON -> M S EventAck;
  getEventRuns : string -> M S (list WorkflowRun);
  getRunDetails : string -> M S WorkflowRun;
  cancelRun : string -> M S Client.Ack;
  replayRun : string -> M S Client.Ack;
  getLastError : S -> option Client.ApiError;
  getLastResponse : S -> option Client.ApiResponse
}.
Arguments sendEvent {S} _ _ _.
Arguments getEventRuns {S} _ _.
Arguments getRunDetails {S} _ _.
Arguments cancelRun {S} _ _.
Arguments replayRun {S} _ _.
Arguments getLastError {S} _ _.
Arguments getLastResponse {S} _ _.

(** What the handlers take from the JavaScript platform: the rendering of
    [new Date(s).toLocaleString()], the reading [new Date(s).getTime()]
    ([None] for [NaN], an invalid date), and [JSON.stringify(v, null, 2)]. *)
Record Platform : Type := {
  toLocaleString : string -> string;
  getTime : string -> option Z;
  prettyJSON : JSON -> string
}.

(** The casts of [inngest-client.ts] ([as { data?: WorkflowRun[] }],
    [as WorkflowRun], [as { id: string }]) are not checked when the program
    runs: how a payload is read at its declared type is a parameter. *)
Record Casts : Type := {
  asRuns : JSON -> list WorkflowRun;
  asRun : JSON -> WorkflowRun;
  asEventAck : JSON -> EventAck
}.

(** [new InngestClient(inngestConfig)], at the types the class declares. *)
Definition inngestClient (config : Client.InngestConfig) (host : Client.Host)
    (casts : Casts) : ClientApi Client.State :=
  {| sendEvent := fun eventName data =>
       response ← Client.sendEvent config host eventName data;
       mret (asEventAck casts response);
     getEventRuns := fun eventId =>
       runs ← Client.getEventRuns config host eventId;
       mret (asRuns casts runs);
     getRunDetails := fun runId =>
       run ← Client.getRunDetails config host runId;
       mret (asRun casts run);
     cancelRun := Client.cancelRun config host;
     replayRun := Client.replayRun config host;
     getLastError := Client.getLastError;
     getLastResponse := Client.getLastResponse |}.

(** ** Text *)

Definition nl : string := String (Ascii.ascii_of_nat 10) EmptyString.
Definition fence : string := "```".

Definition showRunStatus (s : RunStatus) : string :=
  match s with
  | Running => "Running"
  | Completed => "Completed"
  | Failed => "Failed"
  | Cancelled => "Cancelled"
  | Paused => "Paused"
  end.

Definition showStepStatus (s : StepStatus) : string :=
  match s with
  | StepRunning => "Running"
  | StepCompleted => "Completed"
  | StepFailed => "Failed"
  | StepSkipped => "Skipped"
  end.

(** ** Numbers: the double-precision arithmetic of a duration *)

(** The whole number nearest to [n / d], for [0 <= n] and [0 < d], a tie
    going to the even one: how a result is rounded to a double's
    significand. *)
Definition roundHalfEven (n d : Z) : Z :=
  let q := n / d in
  let r := n mod d in
  if 2 * r <? d then q
  else if d <? 2 * r then q + 1
  else if Z.even q then q else q + 1.

(** The double nearest to the whole number [a], which is what the
    subtraction of two whole doubles gives for the exact difference [a]:
    [a] itself while it takes no more than 53 bits, otherwise the nearest
    multiple of the spacing [2^(k - 52)] of the doubles between [2^k] and
    [2^(k + 1)], a tie going to the even significand. (The differences of
    time values are below 2^54, far from where doubles overflow.) *)
Definition toDouble (a : Z) : Z :=
  let k := Z.log2 (Z.abs a) in
  if k <? 53 then a
  else let spacing := 2 ^ (k - 52) in
       Z.sgn a * (spacing * roundHalfEven (Z.abs a) spacing).

(** [Math.round(x / 1000)] for a double [x] that is a whole number. The
    quotient is the double nearest to [x / 1000]: with [2^k <= |x| / 1000 <
    2^(k + 1)] and [j = 52 - k], the significand [m] is [|x| * 2^j / 1000]
    rounded to the nearest whole number and the quotient is [m / 2^j] in
    absolute value. [Math.round] then takes the nearest whole number, a half
    going up. *)
Definition roundSeconds (x : Z) : Z :=
  if x =? 0 then 0
  else
    let n := Z.abs x in
    let k := if 1000 * 2 ^ Z.log2 n <=? n * 2 ^ 9
             then Z.log2 n - 9 else Z.log2 n - 10 in
    let j := 52 - k in
    if j <=? 0 then
      Z.sgn x * (roundHalfEven n (1000 * 2 ^ (- j)) * 2 ^ (- j))
    else
      let m := roundHalfEven (n * 2 ^ j) 1000 in
      if 0 <? x then (2 * m + 2 ^ j) / 2 ^ (j + 1)
      else (2 ^ j - 2 * m) / 2 ^ (j + 1).

(** [new Date(s).getTime()]: the time value of a [Date] is a whole number of
    milliseconds, at most 8.64e15 in absolute value, or [NaN] ([None]). *)
Definition timeValue (platform : Platform) (s : string) : option Z :=
  match getTime platform s with
  | Some t => if Z.abs t <=? 8640000000000000 then Some t else None
  | None => None
  end.

(** [Math.round((new Date(ended).getTime() - new Date(started).getTime())
    / 1000)]; [None] is [NaN]. *)
Definition duration (platform : Platform) (ended started : string) : option Z :=
  match timeValue platform ended, timeValue platform started with
  | Some e, Some s => Some (roundSeconds (toDouble (e - s)))
  | _, _ => None
  end.

(** A number in a template literal. *)
Definition showNumber (n : option Z) : string :=
  match n with
  | Some z => pretty z
  | None => "NaN"
  end.

(** [array.slice(0, limit)] for an integral [limit]: a negative one counts
    from the end. *)
Definition slice0 {A : Type} (limit : Z) (l : list A) : list A :=
  let len := Z.of_nat (length l) in
  let stop := if limit <? 0 then Z.max (len + limit) 0 else Z.min limit len in
  take (Z.to_nat stop) l.

(** [{ type: 'text', text }] *)
Record TextContent : Type := { type : string; text : string }.

(** What a handler returns: [{ content: [...] }], an object without an
    [isError] field. *)
Record CallToolResult : Type := { content : list TextContent }.

Definition textResult (t : string) : CallToolResult :=
  {| content := [ {| type := "text"; text := t |} ] |}.

(** The text of a handler that builds it with [let summary = ...] and
    [summary += ...]: the pieces in the order they are appended. *)
Definition assemble (pieces : list string) : string := String.concat "" pieces.

(** [z.enum(['cancel', 'replay'])] *)
Inductive Action : Type := cancel | replay.

(** ** Input schemas *)

(** [z.string()] on a property: present and a string. *)
Definition zString (v : option JSON) : option string :=
  match v with
  | Some (JStr s) => Some s
  | _ => None
  end.

(** [z.record(z.unknown())]: present and an object. *)
Definition zRecord (v : option JSON) : option JSON :=
  match v with
  | Some (JObj fields) => Some (JObj fields)
  | _ => None
  end.

(** [z.number().optional().default(d)] *)
Definition zNumberDefault (d : Z) (v : option JSON) : option Z :=
  match v with
  | None => Some d
  | Some (JNum n) => Some n
  | Some _ => None
  end.

Definition zAction (v : option JSON) : option Action :=
  match v with
  | Some (JStr s) =>
      if String.eqb s "cancel" then Some cancel
      else if String.eqb s "replay" then Some replay
      else None
  | _ => None
  end.

Definition eventRunsSchema (args : JSON) : option (string * Z) :=
  eventId ← zString (prop "eventId" args);
  limit ← zNumberDefault 10 (prop "limit" args);
  Some (eventId, limit).

Definition sendEventSchema (args : JSON) : option (string * JSON) :=
  eventName ← zString (prop "eventName" args);
  data ← zRecord (prop "data" args);
  Some (eventName, data).

Definition runHistorySchema (args : JSON) : option string :=
  zString (prop "runId" args).

Definition runActionSchema (args : JSON) : option (string * Action) :=
  runId ← zString (prop "runId" args);
  action ← zAction (prop "action" args);
  Some (runId, action).

(** The five registered tools. *)
Inductive Tool : Type :=
| Tool_send_event
| Tool_get_event_runs
| Tool_get_run_details
| Tool_manage_run
| Tool_debug_connection.

(** A tool together with arguments that passed its schema. *)
Inductive Invocation : Type :=
| Call_send_event (eventName : string) (data : JSON)
| Call_get_event_runs (eventId : string) (limit : Z)
| Call_get_run_details (runId : string)
| Call_manage_run (runId : string) (action : Action)
| Call_debug_connection.

Definition parseArguments (tool : Tool) (args : JSON) : option Invocation :=
  match tool with
  | Tool_send_event =>
      p ← sendEventSchema args; Some (Call_send_event p.1 p.2)
  | Tool_get_event_runs =>
      p ← eventRunsSchema args; Some (Call_get_event_runs p.1 p.2)
  | Tool_get_run_details =>
      runId ← runHistorySchema args; Some (Call_get_run_details runId)
  | Tool_manage_run =>
      p ← runActionSchema args; Some (Call_manage_run p.1 p.2)
  | Tool_debug_connection =>
      match args with
      | JObj _ => Some Call_debug_connection
      | _ => None
      end
  end.

(** What the caller of a tool receives: a protocol-level error, or the
    handler's result. *)
Inductive Reply : Type :=
| InvalidParams
| ToolResult (r : CallToolResult).

(** The text each handler puts before the error message in its [catch]. *)
Definition errorPrefix (call : Invocation) : string :=
  match call with
  | Call_send_event _ _ => "**Error sending event:** "
  | Call_get_event_runs _ _ => "Error getting event runs: "
  | Call_get_run_details _ => "Error getting run details: "
  | Call_manage_run _ _ => "Error managing run: "
  | Call_debug_connection => ""
  end.

Definition thrown {S A : Type} (r : result A * S) : option Thrown :=
  match r.1 with
  | Throw e => Some e
  | Ok _ => None
  end.

(** ** Lines of a text *)

(** The line feed, which ends every line of the templates. *)
Definition lineFeed : Ascii.ascii := Ascii.ascii_of_nat 10.

(** [s] holds no line feed. *)
Fixpoint singleLine (s : string) : bool :=
  match s with
  | EmptyString => true
  | String c rest => negb (Ascii.eqb c lineFeed) && singleLine rest
  end.

(** Some line of [s] begins with [marker]. With [atStart] unset, [s] is read
    as going on in the middle of a line, so that its own first line starts
    only behind its first line feed. *)
Fixpoint lineBegins (marker : string) (atStart : bool) (s : string) : bool :=
  (atStart && String.prefix marker s)
  || match s with
     | EmptyString => false
     | String c rest => lineBegins marker (Ascii.eqb c lineFeed) rest
     end.

Definition hasLine (marker s : string) : bool := lineBegins marker true s.

(** The two texts part ways: they agree up to a position where both go on,
    with different characters. *)
Fixpoint diverge (a b : string) : bool :=
  match a, b with
  | String x a', String y b' => if Ascii.eqb x y then diverge a' b' else true
  | _, _ => false
  end.

(** No line of [s] begins as the lines that report the end of a run do. *)
Definition reportsNoEnd (s : string) : bool :=
  negb (hasLine "**Ended:**" s) && negb (hasLine "**Duration:**" s).

(** A step whose name and error fit on a line. *)
Definition plainStep (step : WorkflowStep) : bool :=
  singleLine (step_name step)
  && match step_error step with
     | Some e => singleLine e
     | None => true
     end.

(** What [get_event_runs] shows of a run on the lines about it, its end and
    its output apart, fits on a line each: the run ID and the rendering of
    the start. *)
Definition plainSummary (platform : Platform) (run : WorkflowRun) : bool :=
  singleLine (run_id run)
  && singleLine (toLocaleString platform (run_started_at run)).

(** The same for [get_run_details], which also shows the other identifiers
    and the names and errors of the steps. *)
Definition plainRun (platform : Platform) (run : WorkflowRun) : bool :=
  plainSummary platform run
  && singleLine (function_id run)
  && singleLine (environment_id run)
  && singleLine (event_id run)
  && match steps run with
     | Some l => forallb plainStep l
     | None => true
     end.

(** No line of the run's output, as it is shown, begins as an Ended or a
    Duration line. *)
Definition outputReportsNoEnd (platform : Platform) (run : WorkflowRun)
  : bool :=
  match output run with
  | Some out =>
      if truthy out then reportsNoEnd (prettyJSON platform out) else true
  | None => true
  end.

Section Handlers.
Context {S : Type}.
Variable inngestClient : ClientApi S.
Variable inngestConfig : Client.InngestConfig.
Variable platform : Platform.

  (** The [if (run.ended_at) { ... }] block, shared by the two handlers that
      render a run: the pieces it appends. *)
Definition endedLines (started_at : string) (ended_at : option string)
    : list string :=
    match ended_at with
    | Some ended =>
        if truthyStr ended then
          [ "**Ended:** " +:+ toLocaleString platform ended +:+ nl;
            "**Duration:** "
              +:+ showNumber (duration platform ended started_at)
              +:+ "s" +:+ nl ]
        else []
    | None => []
    end.

  (** *** [send_event] *)
Definition send_event (eventName : string) (data : JSON)
    : M S CallToolResult :=
    try_catch
      (result ← sendEvent inngestClient eventName data;
       mret (textResult
               ("**Event sent successfully**" +:+ nl +:+ nl
                +:+ "**Event Name:** " +:+ eventName +:+ nl
                +:+ "**Event ID:** " +:+ ack_id result +:+ nl
                +:+ "**Data:** " +:+ fence +:+ "json" +:+ nl
                +:+ prettyJSON platform data +:+ nl
                +:+ fence +:+ nl +:+ nl
                +:+ "The event has been sent to Inngest and will trigger any functions listening for this event.")))
      (fun error =>
         mret (textResult ("**Error sending event:** "
                           +:+ messageOrString error))).

  (** *** [get_event_runs] *)

  (** The body of [forEach((run, index) => ...)]. *)
Definition eventRunLines (index : nat) (run : WorkflowRun) : list string :=
    [ "## Run " +:+ pretty (index + 1)%nat +:+ nl;
      "**Run ID:** " +:+ run_id run +:+ nl;
      "**Status:** " +:+ showRunStatus (status run) +:+ nl;
      "**Started:** " +:+ toLocaleString platform (run_started_at run) +:+ nl ]
    ++ endedLines (run_started_at run) (ended_at run)
    ++ match output run with
       | Some out =>
           if truthy out then
             [ "**Output:** " +:+ fence +:+ "json" +:+ nl
               +:+ prettyJSON platform out +:+ nl +:+ fence +:+ nl ]
           else []
       | None => []
       end
    ++ [ nl ].

Definition eventRunsSummary (eventId : string) (limit : Z)
      (runs : list WorkflowRun) : list string :=
    [ "# Event Runs: " +:+ eventId +:+ nl +:+ nl;
      "**Total runs:** " +:+ pretty (length runs) +:+ nl +:+ nl ]
    ++ concat (imap eventRunLines (slice0 limit runs)).

Definition get_event_runs (eventId : string) (limit : Z)
    : M S CallToolResult :=
    try_catch
      (runs ← getEventRuns inngestClient eventId;
       if (length runs =? 0)%nat then
         mret (textResult ("No runs found for event ID: " +:+ eventId))
       else
         mret (textResult (assemble (eventRunsSummary eventId limit runs))))
      (fun error =>
         mret (textResult ("Error getting event runs: "
                           +:+ messageOrString error))).

  (** *** [get_run_details] *)

Definition stepLines (index : nat) (step : WorkflowStep) : list string :=
    [ "**" +:+ pretty (index + 1)%nat +:+ ". " +:+ step_name step +:+ "** ("
      +:+ showStepStatus (step_status step) +:+ ")" +:+ nl ]
    ++ match step_duration_ms step with
       | Some d =>
           if negb (d =? 0) then [ "   - Duration: " +:+ pretty d +:+ "ms" +:+ nl ]
           else []
       | None => []
       end
    ++ match step_error step with
       | Some e =>
           if truthyStr e then [ "   - Error: " +:+ e +:+ nl ] else []
       | None => []
       end
    ++ [ nl ].

Definition runDetailsLines (runId : string) (runDetails : WorkflowRun)
    : list string :=
    [ "# Run Details: " +:+ runId +:+ nl +:+ nl;
      "**Run ID:** " +:+ run_id runDetails +:+ nl;
      "**Function ID:** " +:+ function_id runDetails +:+ nl;
      "**Function Version:** " +:+ pretty (function_version runDetails) +:+ nl;
      "**Environment ID:** " +:+ environment_id runDetails +:+ nl;
      "**Event ID:** " +:+ event_id runDetails +:+ nl;
      "**Status:** " +:+ showRunStatus (status runDetails) +:+ nl;
      "**Started:** "
        +:+ toLocaleString platform (run_started_at runDetails) +:+ nl ]
    ++ endedLines (run_started_at runDetails) (ended_at runDetails)
    ++ match output runDetails with
       | Some out =>
           if truthy out then
             [ nl +:+ "**Output:**" +:+ nl +:+ fence +:+ "json" +:+ nl
               +:+ prettyJSON platform out +:+ nl +:+ fence +:+ nl ]
           else []
       | None => []
       end
    ++ match steps runDetails with
       | Some (step :: more) =>
           [ nl +:+ "## Steps (" +:+ pretty (length (step :: more))
             +:+ " found in run response)" +:+ nl +:+ nl ]
           ++ concat (imap stepLines (step :: more))
       | _ =>
           [ nl +:+ "> **Note:** Step-by-step execution timeline is only available in the Inngest dashboard (uses GraphQL). The REST API provides run-level details only." ]
       end.

Definition get_run_details (runId : string) : M S CallToolResult :=
    try_catch
      (runDetails ← getRunDetails inngestClient runId;
       mret (textResult (assemble (runDetailsLines runId runDetails))))
      (fun error =>
         mret (textResult
                 ("Error getting run details: "
                  +:+ match error with
                      | ErrorObj message => message
                      | NonError _ => "Unknown error"
                      end))).

  (** *** [manage_run] *)

Definition manage_run (runId : string) (action : Action)
    : M S CallToolResult :=
    try_catch
      (result ← match action with
                | cancel =>
                    _ ← cancelRun inngestClient runId;
                    mret ("Cancelled run " +:+ runId)
                | replay =>
                    _ ← replayRun inngestClient runId;
                    mret ("Replayed run " +:+ runId)
                end;
       mret (textResult result))
      (fun error =>
         mret (textResult ("Error managing run: " +:+ messageOrString error))).

  (** *** [debug_connection] *)

Definition apiResponseJSON (r : Client.ApiResponse) : JSON :=
    JObj [ ("url", JStr (Client.ar_url r));
           ("status", JNum (Client.ar_status r));
           ("data", Client.ar_data r);
           ("timestamp", JStr (Client.ar_timestamp r)) ].

Definition apiErrorJSON (e : Client.ApiError) : JSON :=
    JObj [ ("message", JStr (Client.ae_message e));
           ("timestamp", JStr (Client.ae_timestamp e)) ].

Definition debug_connection : M S CallToolResult := fun st =>
    let lastError := getLastError inngestClient st in
    let lastResponse := getLastResponse inngestClient st in
    (Ok (textResult
           ("**Inngest Configuration:**" +:+ nl
            +:+ "- Base URL: " +:+ Client.baseUrl inngestConfig +:+ nl
            +:+ "- Has Signing Key: "
            +:+ (if truthyStr (Client.signingKey inngestConfig)
                 then "true" else "false") +:+ nl
            +:+ "- Environment: "
            +:+ match Client.env inngestConfig with
                | Some e => if truthyStr e then e else "not set"
                | None => "not set"
                end +:+ nl +:+ nl
            +:+ "**Last API Response:** "
            +:+ match lastResponse with
                | Some r => prettyJSON platform (apiResponseJSON r)
                | None => "None"
                end +:+ nl +:+ nl
            +:+ "**Last Error:** "
            +:+ match lastError with
                | Some e => prettyJSON platform (apiErrorJSON e)
                | None => "None"
                end)),
     st).

(** *** The tools, called through the protocol *)

(** The tool's handler on arguments that passed its schema. *)
Definition run (call : Invocation) : M S CallToolResult :=
  match call with
  | Call_send_event eventName data => send_event eventName data
  | Call_get_event_runs eventId limit => get_event_runs eventId limit
  | Call_get_run_details runId => get_run_details runId
  | Call_manage_run runId action => manage_run runId action
  | Call_debug_connection => debug_connection
  end.

(** The protocol layer is the MCP SDK's: it checks the arguments against the
    tool's [inputSchema] and runs the handler only when they pass; arguments
    that do not pass are answered with a protocol error. *)
Definition callTool (tool : Tool) (args : JSON) : M S Reply :=
  match parseArguments tool args with
  | Some call => r ← run call; mret (ToolResult r)
  | None => mret InvalidParams
  end.

(** What the client throws, if it does, when the tool's handler calls it
    from state [st]. *)
Definition clientError (call : Invocation) (st : S) : option Thrown :=
  match call with
  | Call_send_event eventName data =>
      thrown (sendEvent inngestClient eventName data st)
  | Call_get_event_runs eventId _ => thrown (getEventRuns inngestClient eventId st)
  | Call_get_run_details runId => thrown (getRunDetails inngestClient runId st)
  | Call_manage_run runId cancel => thrown (cancelRun inngestClient runId st)
  | Call_manage_run runId replay => thrown (replayRun inngestClient runId st)
  | Call_debug_connection => None
  end.

End Handlers.

End Facade.

(* ===================================================================== *)
(** * Configurations and hosts of the test suite *)
(* ===================================================================== *)

Module Scenarios.
Import JS Async Client.

(** [mockConfig] of [inngest-client.test.ts]: a key against the cloud URL. *)
Definition mockConfig : InngestConfig :=
  {| signingKey := "test-key"; eventKey := None;
     baseUrl := "https://api.inngest.com"; env := None |}.

(** The defaults of [index.ts]: the local dev server. *)
Definition localConfig : InngestConfig :=
  {| signingKey := "local-dev-key"; eventKey := None;
     baseUrl := "http://localhost:8288"; env := None |}.

(** A production key pointed at a local server. *)
Definition prodKeyLocalConfig : InngestConfig :=
  {| signingKey := "signkey-prod-abc123"; eventKey := None;
     baseUrl := "http://localhost:8288"; env := None |}.

(** The local sentinel key pointed at the cloud, with an environment tag. *)
Definition sentinelCloudConfig : InngestConfig :=
  {| signingKey := "local-dev-key"; eventKey := None;
     baseUrl := "https://api.inngest.com"; env := Some "staging" |}.

(** [createMockResponse(data, _ok, status, statusText)] *)
Definition createMockResponse (data : JSON) (code : Z) (reason : string)
  : Response :=
  {| status := code; statusText := reason;
     text := stringify data; json := Ok data |}.

Definition clockISO (n : nat) : string := "2024-01-01T00:00:0" +:+ pretty n +:+ "Z".

(** A server that gives the same response to every request. *)
Definition always (response : Response) : Host :=
  {| fetch := fun _ _ => Ok response;
     toISOString := clockISO;
     now := fun _ => 1704067200000 |}.

(** A server that answers 404 to every call but the one numbered [k]
    (from 0), which gets [data] with status 200. *)
Definition onlyCall (k : nat) (data : JSON) : Host :=
  {| fetch := fun n _ =>
       if (n =? k)%nat then Ok (createMockResponse data 200 "OK")
       else Ok (createMockResponse (JObj []) 404 "Not Found");
     toISOString := clockISO;
     now := fun _ => 1704067200000 |}.

(** [mockWorkflowRun] of the tests, as the server sends it. *)
Definition mockWorkflowRun : JSON :=
  JObj [ ("run_id", JStr "run-123");
         ("run_started_at", JStr "2024-01-01T00:00:00Z");
         ("function_id", JStr "func-123");
         ("function_version", JNum 1);
         ("environment_id", JStr "env-123");
         ("event_id", JStr "event-123");
         ("status", JStr "Completed");
         ("ended_at", JStr "2024-01-01T00:01:00Z");
         ("output", JObj [ ("result", JStr "success") ]) ].

(** Options of a caller that sets its own content type. *)
Definition textPlainOptions : RequestInit :=
  {| method := Some "POST";
     headers := Some {[ "Content-Type" := "text/plain" ]};
     body := Some "hello" |}.

(** A server that refuses the first call with 404 and answers every later
    one with an empty object. *)
Definition firstCallRefused : Host :=
  {| fetch := fun n _ =>
       if (n =? 0)%nat
       then Ok (createMockResponse (JObj []) 404 "Not Found")
       else Ok (createMockResponse (JObj []) 200 "OK");
     toISOString := clockISO;
     now := fun _ => 1704067200000 |}.

End Scenarios.

(* ===================================================================== *)
(** * Clients and runs of the tool tests *)
(* ===================================================================== *)

Module FacadeScenarios.
Import JS Async Facade.

(** [mockClient] with every method set up by
    [mockRejectedValue(new Error(message))]. *)
Definition rejectingClient (message : string) : ClientApi unit :=
  {| sendEvent := fun _ _ => throw (ErrorObj message);
     getEventRuns := fun _ => throw (ErrorObj message);
     getRunDetails := fun _ => throw (ErrorObj message);
     cancelRun := fun _ => throw (ErrorObj message);
     replayRun := fun _ => throw (ErrorObj message);
     getLastError := fun _ => None;
     getLastResponse := fun _ => None |}.

(** A run that started at midnight and ended a minute and a half later. *)
Definition finishedRun : WorkflowRun :=
  {| run_id := "run-123";
     run_started_at := "2024-01-01T00:00:00Z";
     function_id := "func-123";
     function_version := 1;
     environment_id := "env-123";
     event_id := "event-123";
     status := Completed;
     ended_at := Some "2024-01-01T00:01:30Z";
     output := Some (JObj [ ("result", JStr "success") ]);
     steps := None |}.

(** The same run while it is still going. *)
Definition runningRun : WorkflowRun :=
  {| run_id := "run-123";
     run_started_at := "2024-01-01T00:00:00Z";
     function_id := "func-123";
     function_version := 1;
     environment_id := "env-123";
     event_id := "event-123";
     status := Running;
     ended_at := None;
     output := None;
     steps := None |}.

(** A platform that knows the two instants of [finishedRun] (in epoch
    milliseconds, as the date test of [integration.test.ts] has them), leaves
    dates as they are written and prints JSON on one line. *)
Definition testPlatform : Platform :=
  {| toLocaleString := fun s => s;
     getTime := fun s =>
       if String.eqb s "2024-01-01T00:00:00Z" then Some 1704067200000
       else if String.eqb s "2024-01-01T00:01:30Z" then Some 1704067290000
       else None;
     prettyJSON := stringify |}.

(** A reading of the payloads the tests use: string fields as they are, an
    absent or ill-typed field as the empty string, the status by its name. *)
Definition stringField (k : string) (v : JSON) : string :=
  match prop k v with
  | Some (JStr s) => s
  | _ => ""
  end.

Definition optionalStringField (k : string) (v : JSON) : option string :=
  match prop k v with
  | Some (JStr s) => Some s
  | _ => None
  end.

Definition readTestRun (v : JSON) : WorkflowRun :=
  {| run_id := stringField "run_id" v;
     run_started_at := stringField "run_started_at" v;
     function_id := stringField "function_id" v;
     function_version := match prop "function_version" v with
                         | Some (JNum n) => n
                         | _ => 0
                         end;
     environment_id := stringField "environment_id" v;
     event_id := stringField "event_id" v;
     status := (let s := stringField "status" v in
                if String.eqb s "Completed" then Completed
                else if String.eqb s "Failed" then Failed
                else if String.eqb s "Cancelled" then Cancelled
                else if String.eqb s "Paused" then Paused
                else Running);
     ended_at := optionalStringField "ended_at" v;
     output := prop "output" v;
     steps := None |}.

Definition testCasts : Casts :=
  {| asRuns := fun v => match v with
                        | JArr items => map readTestRun items
                        | _ => []
                        end;
     asRun := readTestRun;
     asEventAck := fun v => {| ack_id := stringField "id" v |} |}.

(** [mockClient] with [getRunDetails] set up by [mockResolvedValue(run)] and
    [getEventRuns] by [mockResolvedValue([run])]. *)
Definition detailsClient (run : WorkflowRun) : ClientApi unit :=
  {| sendEvent := fun _ _ => mret {| ack_id := "event-123" |};
     getEventRuns := fun _ => mret [ run ];
     getRunDetails := fun _ => mret run;
     cancelRun := fun _ => mret {| Client.success := true |};
     replayRun := fun _ => mret {| Client.success := true |};
     getLastError := fun _ => None;
     getLastResponse := fun _ => None |}.

(** A run still going whose identifier goes on over two more lines. *)
Definition forgedRun : WorkflowRun :=
  {| run_id := "run-123" +:+ nl +:+ "**Ended:** 2024-01-01T00:01:30Z"
               +:+ nl +:+ "**Duration:** 90s";
     run_started_at := "2024-01-01T00:00:00Z";
     function_id := "func-123";
     function_version := 1;
     environment_id := "env-123";
     event_id := "event-123";
     status := Running;
     ended_at := None;
     output := None;
     steps := None |}.

(** A run from half a second after the first instant a [Date] can hold to
    the last one. *)
Definition longestRun : WorkflowRun :=
  {| run_id := "run-123";
     run_started_at := "-271821-04-20T00:00:00.501Z";
     function_id := "func-123";
     function_version := 1;
     environment_id := "env-123";
     event_id := "event-123";
     status := Completed;
     ended_at := Some "+275760-09-13T00:00:00.000Z";
     output := None;
     steps := None |}.

(** A platform that knows the two instants of [longestRun]. *)
Definition farPlatform : Platform :=
  {| toLocaleString := fun s => s;
     getTime := fun s =>
       if String.eqb s "-271821-04-20T00:00:00.501Z"
       then Some (-8639999999999499)
       else if String.eqb s "+275760-09-13T00:00:00.000Z"
       then Some 8640000000000000
       else None;
     prettyJSON := stringify |}.

End FacadeScenarios.

(* ===================================================================== *)
(** * The server's configuration ([src/index.ts]) *)
(* ===================================================================== *)

Module Startup.
Import JS.

(** [value || fallback] on an environment variable: unset and empty both
    give the fallback. *)
Definition orDefault (value : option string) (fallback : string) : string :=
  match value with
  | Some v => if truthyStr v then v else fallback
  | None => fallback
  end.

(** [const inngestConfig: InngestConfig = { ... }], read off [process.env]. *)
Definition inngestConfig (processEnv : gmap string string)
  : Client.InngestConfig :=
  {| Client.signingKey :=
       orDefault (processEnv !! "INNGEST_SIGNING_KEY") "local-dev-key";
     Client.eventKey := processEnv !! "INNGEST_EVENT_KEY";
     Client.baseUrl :=
       orDefault (processEnv !! "INNGEST_BASE_URL") "http://localhost:8288";
     Client.env := processEnv !! "INNGEST_ENV" |}.

End Startup.

(* ===================================================================== *)
(** * What the diagnostic fields hold *)
(* ===================================================================== *)

Module Diagnostics.
Import JS Async Client.

(** The operations whose [catch] writes [_lastError]. *)
Definition recordsErrors (op : Operation) : bool :=
  match op with
  | GetRunDetails _ | CancelRun _ | ReplayRun _ => true
  | _ => false
  end.

(** [r] is the snapshot of an answer to one of the requests [new]: it has
    the URL of that request and a success status. *)
Definition snapshotOf (new : list Request) (r : ApiResponse) : Prop :=
  (exists rq, rq ∈ new /\ ar_url r = fetch_url rq)
  /\ 200 <= ar_status r <= 299.

(** From [st] to [st'] the log has grown by some requests, and
    [_lastResponse] is what it was or the snapshot of an answer to one of
    them. *)
Definition tracked (st st' : State) : Prop :=
  exists new,
    calls st' = calls st ++ new
    /\ (_lastResponse st' = _lastResponse st
        \/ exists r, _lastResponse st' = Some r /\ snapshotOf new r).

Definition tracks {A : Type} (m : M A) : Prop :=
  forall st, tracked st (m st).2.

(** [m] leaves [_lastError] as it finds it. *)
Definition keepsLastError {A : Type} (m : M A) : Prop :=
  forall st, _lastError (m st).2 = _lastError st.

End Diagnostics.

(* ===================================================================== *)
(** * Lines of a rendered run *)
(* ===================================================================== *)

Module Rendering.
Import JS Facade.

End Rendering.

(* ===================================================================== *)
(** * More clients and runs of the tool tests *)
(* ===================================================================== *)

Module MoreScenarios.
Import JS Async Facade.




End MoreScenarios.

(* ===================================================================== *)
(** * Properties of the JavaScript values *)
(* ===================================================================== *)

Module JSFacts.
Import JS.

(** ** Strings *)

Lemma truthyStr_true (s : string) : truthyStr s = true <-> s <> "".
Proof.
  unfold truthyStr. rewrite negb_true_iff. apply String.eqb_neq.
Qed.

Lemma truthyStr_false (s : string) : truthyStr s = false <-> s = "".
Proof.
  unfold truthyStr. rewrite negb_false_iff. apply String.eqb_eq.
Qed.

(** ** Texts put together *)

Lemma append_cons (c : Ascii.ascii) (a b : string) :
  String c a +:+ b = String c (a +:+ b).
Proof. reflexivity. Qed.

Lemma prefix_split (a b : string) :
  String.prefix a b = true <-> exists post, b = a +:+ post.
Proof.
  revert b. induction a as [|c a IH]; intros b.
  - split; [intros _; exists b; reflexivity | intros _; destruct b; reflexivity].
  - destruct b as [|d b]; cbn [String.prefix].
    + split; [discriminate | intros [post H]; discriminate H].
    + destruct (Ascii.ascii_dec c d) as [<-|Hne].
      * rewrite IH. split; intros [post H]; exists post.
        -- rewrite append_cons, H. reflexivity.
        -- rewrite append_cons in H. now injection H.
      * split; [discriminate|]. intros [post H].
        rewrite append_cons in H. injection H as H1 _. congruence.
Qed.

Lemma includes_split (needle hay : string) :
  includes needle hay = true
  <-> exists pre post, hay = pre +:+ needle +:+ post.
Proof.
  split.
  - induction hay as [|c hay IH]; cbn [includes].
    + destruct (String.prefix needle "") eqn:P; [|discriminate].
      intros _. apply prefix_split in P as [post P]. exists "", post. exact P.
    + destruct (String.prefix needle (String c hay)) eqn:P.
      * intros _. apply prefix_split in P as [post P]. exists "", post. exact P.
      * intros H. destruct (IH H) as (pre & post & ->).
        exists (String c pre), post. reflexivity.
  - intros (pre & post & ->). induction pre as [|c pre IH].
    + change ("" +:+ needle +:+ post) with (needle +:+ post).
      assert (String.prefix needle (needle +:+ post) = true) as P
        by (apply prefix_split; eauto).
      destruct (needle +:+ post); cbn [includes]; rewrite P; reflexivity.
    + rewrite append_cons. cbn [includes].
      destruct (String.prefix needle _); [reflexivity | exact IH].
Qed.

Lemma append_nil_r (a : string) : a +:+ "" = a.
Proof. induction a as [|c a IH]; [reflexivity|]. rewrite append_cons, IH. reflexivity. Qed.

Lemma append_assoc (a b c : string) : (a +:+ b) +:+ c = a +:+ (b +:+ c).
Proof.
  induction a as [|x a IH]; [reflexivity|].
  rewrite !append_cons, IH. reflexivity.
Qed.

(** ** Numbers in decimal *)

Lemma digit_char (y : N) :
  startsWithDigit (String (pretty_N_char y) "") = true.
Proof. unfold pretty_N_char. repeat case_match; reflexivity. Qed.

Lemma pretty_N_go_digit (x : N) : forall s,
  startsWithDigit s = true -> startsWithDigit (pretty_N_go x s) = true.
Proof.
  induction (N.lt_wf_0 x) as [x _ IH]. intros s Hs.
  destruct (decide (x = 0)%N) as [->|Hx]; [exact Hs|].
  rewrite pretty_N_go_step by lia.
  apply IH; [apply N.div_lt; lia|]. apply (digit_char (x `mod` 10)).
Qed.

Lemma pretty_nat_digit (i : nat) : startsWithDigit (pretty i) = true.
Proof.
  unfold pretty, pretty_nat, pretty, pretty_N.
  destruct (decide (N.of_nat i = 0)%N) as [_|Hx]; [reflexivity|].
  rewrite pretty_N_go_step by lia.
  apply pretty_N_go_digit, (digit_char (N.of_nat i `mod` 10)).
Qed.

(** A key that does not start with a digit is not an index of an array. *)
Lemma not_an_index (k : string) (indices : list nat) :
  startsWithDigit k = false ->
  existsb (fun i => String.eqb k (pretty i)) indices = false.
Proof.
  intros Hk. induction indices as [|i rest IH]; cbn; [reflexivity|].
  rewrite IH, orb_false_r. apply String.eqb_neq. intros ->.
  rewrite pretty_nat_digit in Hk. discriminate.
Qed.

End JSFacts.

(* ===================================================================== *)
(** * Properties of the API client *)
(* ===================================================================== *)

Module ClientFacts.
Import JS Async Client JSFacts.

Lemma lastErrorText_named (m : string) : m <> "" -> lastErrorText (Some m) = m.
Proof.
  intros H. unfold lastErrorText.
  apply truthyStr_true in H. now rewrite H.
Qed.

(** ** One call of [apiRequest] *)

Lemma apiRequest_run config host endpoint options st :
  let rq := buildRequest config endpoint options in
  apiRequest config host endpoint options st =
  match fetch host (length (calls st)) rq with
  | Throw e => (Throw e, logged rq st)
  | Ok response =>
      if ok response then
        match json response with
        | Ok v => (Ok v, recorded host rq (status response) v st)
        | Throw e => (Throw e, logged rq st)
        end
      else (Throw (ErrorObj (apiErrorMessage response)), logged rq st)
  end.
Proof.
  cbn zeta. unfold apiRequest, mbind, M_bind, doFetch.
  destruct (fetch host (length (calls st)) _) as [response|e]; [|reflexivity].
  destruct (ok response); cbn; [|reflexivity].
  unfold lift. destruct (json response) as [v|e]; reflexivity.
Qed.

Lemma apiRequest_result config host endpoint options st :
  (apiRequest config host endpoint options st).1 =
  exchange host (length (calls st)) (buildRequest config endpoint options).
Proof.
  rewrite apiRequest_run. unfold exchange.
  destruct (fetch host _ _) as [response|e]; [|reflexivity].
  destruct (ok response); [|reflexivity].
  destruct (json response); reflexivity.
Qed.

Lemma apiRequest_calls config host endpoint options st :
  calls (apiRequest config host endpoint options st).2 =
  calls st ++ [buildRequest config endpoint options].
Proof.
  rewrite apiRequest_run.
  destruct (fetch host _ _) as [response|e]; [|reflexivity].
  destruct (ok response); [|reflexivity].
  destruct (json response); reflexivity.
Qed.

Lemma apiRequest_lastError config host endpoint options st :
  _lastError (apiRequest config host endpoint options st).2 = _lastError st.
Proof.
  rewrite apiRequest_run.
  destruct (fetch host _ _) as [response|e]; [|reflexivity].
  destruct (ok response); [|reflexivity].
  destruct (json response); reflexivity.
Qed.

(** C5. Through [apiRequest], a response with a non-success status makes the
    operation throw an error whose message is made of the numeric status, the
    status text and the body read as text, and leaves the last-response
    snapshot as it was; a response with a success status whose body parses as
    JSON to [v] makes it record the snapshot (URL, status, [v], the time of
    the clock) and return [v]. *)
Theorem apiRequest_outcome config host endpoint options st response :
  fetch host (length (calls st)) (buildRequest config endpoint options)
    = Ok response ->
  (ok response = false ->
     (apiRequest config host endpoint options st).1
       = Throw (ErrorObj ("Inngest API error: " +:+ pretty (status response)
                          +:+ " " +:+ statusText response
                          +:+ " - " +:+ text response))
     /\ _lastResponse (apiRequest config host endpoint options st).2
        = _lastResponse st)
  /\ (forall v, ok response = true -> json response = Ok v ->
        (apiRequest config host endpoint options st).1 = Ok v
        /\ _lastResponse (apiRequest config host endpoint options st).2
           = Some {| ar_url := baseUrl config +:+ endpoint;
                     ar_status := status response;
                     ar_data := v;
                     ar_timestamp := toISOString host (clock st) |}).
Proof.
  intros Hfetch. rewrite apiRequest_run. cbn zeta. rewrite Hfetch. split.
  - intros ->. split; reflexivity.
  - intros v -> ->. split; reflexivity.
Qed.

(** ** What the operations send *)

Lemma sends_ret {A} P (a : A) : sends P (mret a).
Proof. intros st. exists []. rewrite app_nil_r. auto. Qed.

Lemma sends_throw {A} P e : sends P (@throw State A e).
Proof. intros st. exists []. rewrite app_nil_r. auto. Qed.

Lemma sends_lift {A} P (r : result A) : sends P (lift r).
Proof. intros st. exists []. rewrite app_nil_r. auto. Qed.

Lemma sends_newDateISO P host : sends P (newDateISO host).
Proof. intros st. exists []. cbn. rewrite app_nil_r. auto. Qed.

Lemma sends_dateNow P host : sends P (dateNow host).
Proof. intros st. exists []. cbn. rewrite app_nil_r. auto. Qed.

Lemma sends_setLastError P e : sends P (setLastError e).
Proof. intros st. exists []. cbn. rewrite app_nil_r. auto. Qed.

Lemma sends_bind {A B} P (m : M A) (f : A -> M B) :
  sends P m -> (forall a, sends P (f a)) -> sends P (m ≫= f).
Proof.
  intros Hm Hf st. unfold mbind, M_bind.
  destruct (Hm st) as (new1 & E1 & F1).
  destruct (m st) as [[a|e] st1]; cbn in E1.
  - destruct (Hf a st1) as (new2 & E2 & F2).
    exists (new1 ++ new2). rewrite E2, E1, app_assoc. split; [done|].
    apply Forall_app; auto.
  - exists new1. auto.
Qed.

Lemma sends_try_catch {A} P (m : M A) (handler : Thrown -> M A) :
  sends P m -> (forall e, sends P (handler e)) -> sends P (try_catch m handler).
Proof.
  intros Hm Hh st. unfold try_catch.
  destruct (Hm st) as (new1 & E1 & F1).
  destruct (m st) as [[a|e] st1]; cbn in E1.
  - exists new1. auto.
  - destruct (Hh e st1) as (new2 & E2 & F2).
    exists (new1 ++ new2). rewrite E2, E1, app_assoc. split; [done|].
    apply Forall_app; auto.
Qed.

Lemma sends_apiRequest (P : Request -> Prop) config host endpoint options :
  P (buildRequest config endpoint options) ->
  sends P (apiRequest config host endpoint options).
Proof.
  intros HP st. exists [buildRequest config endpoint options].
  split; [apply apiRequest_calls | auto].
Qed.

Lemma sends_turn {A} P host (attempt : string -> M (option A)) endpoint last :
  sends P (attempt endpoint) -> sends P (turn host attempt endpoint last).
Proof.
  intros H. unfold turn. apply sends_try_catch.
  - apply sends_bind; [exact H | intros; apply sends_ret].
  - intros e. apply sends_bind; [apply sends_newDateISO | intros ts].
    apply sends_bind; [apply sends_setLastError | intros; apply sends_ret].
Qed.

Lemma sends_tryEndpoints {A} P host (attempt : string -> M (option A))
    failure endpoints last :
  (forall endpoint, sends P (attempt endpoint)) ->
  sends P (tryEndpoints host attempt failure endpoints last).
Proof.
  intros H. revert last.
  induction endpoints as [|endpoint rest IH]; intros last; cbn.
  - apply sends_throw.
  - apply sends_bind; [apply sends_turn, H |].
    intros [a|last']; [apply sends_ret | apply IH].
Qed.

Lemma plain_build config endpoint options :
  headers options = None -> plain config (buildRequest config endpoint options).
Proof. intros H. exists endpoint, options. auto. Qed.

Create HintDb sends.

#[local] Hint Resolve sends_ret sends_throw sends_lift sends_apiRequest
  plain_build : sends.

Lemma sends_perform config host op : sends (plain config) (perform config host op).
Proof.
  destruct op; cbn; unfold discard;
    (apply sends_bind; [| intros; apply sends_ret]).
  - unfold getEventRuns.
    apply sends_bind; [auto with sends | intros].
    apply sends_bind; intros; auto with sends.
  - unfold getFunctionRuns. apply sends_try_catch.
    + apply sends_bind; [auto with sends | intros].
      apply sends_bind; intros; auto with sends.
    + intros e. destruct (isLocal config); auto with sends.
  - unfold getRunDetails. destruct (isLocal config); [auto with sends|].
    apply sends_tryEndpoints. intros endpoint.
    apply sends_bind; intros; auto with sends.
  - unfold getRunSteps. auto with sends.
  - unfold cancelRun. destruct (isLocal config); [auto with sends|].
    apply sends_tryEndpoints. intros endpoint.
    apply sends_bind; intros; auto with sends.
  - unfold bulkCancelRuns. apply sends_try_catch.
    + auto with sends.
    + intros e. destruct (isLocal config); auto with sends.
  - unfold replayRun. destruct (isLocal config); [auto with sends|].
    apply sends_tryEndpoints. intros endpoint.
    apply sends_bind; intros; auto with sends.
  - unfold sendEvent.
    apply sends_bind; [apply sends_dateNow | intros; auto with sends].
Qed.

(** Every request an operation issues was built by [apiRequest] from
    options without caller headers. *)
Lemma issued_plain config host op st rq :
  rq ∈ issued config host op st -> plain config rq.
Proof.
  unfold issued. destruct (sends_perform config host op st) as (new & E & F).
  rewrite E, drop_app_length. intros Hin.
  rewrite Forall_forall in F. exact (F rq Hin).
Qed.

(** ** The headers of a request *)

Lemma sendsAuth_true config :
  sendsAuth config = true <->
  signingKey config <> "" /\ signingKey config <> "local-dev-key"
  /\ includes "localhost" (baseUrl config) = false
  /\ includes "127.0.0.1" (baseUrl config) = false.
Proof.
  unfold sendsAuth.
  rewrite !andb_true_iff, !negb_true_iff, truthyStr_true, String.eqb_neq.
  tauto.
Qed.

Lemma default_headers_lookup (k : string) :
  ((∅ : gmap string string) ∪ {[ "Content-Type" := "application/json" ]}) !! k
  = if decide (k = "Content-Type") then Some "application/json" else None.
Proof.
  rewrite lookup_union, lookup_empty, (left_id_L None _).
  destruct (decide (k = "Content-Type")) as [->|Hne].
  - apply lookup_singleton_eq.
  - apply lookup_singleton_ne. congruence.
Qed.

(** The [Authorization] header of a request built without caller headers. *)
Lemma plain_authorization config rq :
  plain config rq ->
  fetch_headers rq !! "Authorization" =
  if sendsAuth config then Some ("Bearer " +:+ signingKey config) else None.
Proof.
  intros (endpoint & options & Hnone & ->). cbn. unfold requestHeaders.
  rewrite Hnone. cbn.
  destruct (sendsAuth config).
  - apply lookup_insert_eq.
  - destruct (env config) as [e|]; [destruct (truthyStr e)|];
      rewrite ?lookup_insert_ne by discriminate;
      rewrite default_headers_lookup; reflexivity.
Qed.

(** The [X-Inngest-Env] header of a request, whatever the caller passed. *)
Lemma build_env_header config endpoint options e :
  env config = Some e -> e <> "" ->
  fetch_headers (buildRequest config endpoint options) !! "X-Inngest-Env"
  = Some e.
Proof.
  intros He Hne. cbn. unfold requestHeaders. rewrite He.
  apply truthyStr_true in Hne. rewrite Hne.
  destruct (sendsAuth config).
  - rewrite lookup_insert_ne by discriminate. apply lookup_insert_eq.
  - apply lookup_insert_eq.
Qed.

(** C1. In every request an operation of the client issues, the header
    [Authorization] is [Bearer <signingKey>] exactly when the signing key is
    present (a non-empty string), is not ["local-dev-key"], and the base URL
    contains neither ["localhost"] nor ["127.0.0.1"] (and there is no
    [Authorization] header at all otherwise); the header [X-Inngest-Env]
    carries the environment tag whenever that is set (to a non-empty string),
    whatever the decision on authentication. *)
Theorem authorization_iff_production config host op st rq :
  rq ∈ issued config host op st ->
  (fetch_headers rq !! "Authorization"
     = Some ("Bearer " +:+ signingKey config)
   <-> signingKey config <> "" /\ signingKey config <> "local-dev-key"
       /\ includes "localhost" (baseUrl config) = false
       /\ includes "127.0.0.1" (baseUrl config) = false)
  /\ (fetch_headers rq !! "Authorization" = None
      \/ fetch_headers rq !! "Authorization"
         = Some ("Bearer " +:+ signingKey config))
  /\ (forall e, env config = Some e -> e <> "" ->
        fetch_headers rq !! "X-Inngest-Env" = Some e).
Proof.
  intros Hin. apply issued_plain in Hin.
  pose proof (plain_authorization config rq Hin) as Hauth.
  rewrite <- sendsAuth_true. split; [|split].
  - rewrite Hauth. destruct (sendsAuth config); split; congruence.
  - rewrite Hauth. destruct (sendsAuth config); auto.
  - intros e He Hne. destruct Hin as (endpoint & options & _ & ->).
    now apply build_env_header.
Qed.

(** C2, as stated, fails: a production key with a localhost base URL is a
    combination other than (local base URL, sentinel key), and the request
    [getEventRuns] issues there carries no [Authorization] header. *)
Lemma production_key_on_localhost_unauthenticated :
  let config := Scenarios.prodKeyLocalConfig in
  let host := Scenarios.always
                (Scenarios.createMockResponse (JObj [("data", JArr [])]) 200 "OK") in
  ~ (isLocal config = true /\ signingKey config = "local-dev-key")
  /\ exists rq,
       issued config host (GetEventRuns "event-123") initial = [rq]
       /\ fetch_url rq = "http://localhost:8288/v1/events/event-123/runs"
       /\ fetch_headers rq !! "Authorization" = None.
Proof.
  cbn zeta. split.
  - intros [_ H]. discriminate H.
  - eexists. split; [reflexivity|]. split; reflexivity.
Qed.

(** C2, amended. When the base URL contains ["localhost"] or ["127.0.0.1"],
    or the signing key is ["local-dev-key"] (or empty), no request an
    operation issues carries an [Authorization] header; in every other
    configuration every request carries [Authorization: Bearer <signingKey>]. *)
Theorem authorization_by_configuration config host op st rq :
  rq ∈ issued config host op st ->
  (includes "localhost" (baseUrl config) = true
   \/ includes "127.0.0.1" (baseUrl config) = true
   \/ signingKey config = "local-dev-key"
   \/ signingKey config = "" ->
   fetch_headers rq !! "Authorization" = None)
  /\ (includes "localhost" (baseUrl config) = false ->
      includes "127.0.0.1" (baseUrl config) = false ->
      signingKey config <> "local-dev-key" ->
      signingKey config <> "" ->
      fetch_headers rq !! "Authorization"
        = Some ("Bearer " +:+ signingKey config)).
Proof.
  intros Hin. apply issued_plain in Hin.
  rewrite (plain_authorization config rq Hin). split.
  - intros H. destruct (sendsAuth config) eqn:E; [|reflexivity].
    apply sendsAuth_true in E. destruct E as (E1 & E2 & E3 & E4).
    destruct H as [H|[H|[H|H]]]; congruence.
  - intros H1 H2 H3 H4.
    assert (sendsAuth config = true) as -> by (apply sendsAuth_true; auto).
    reflexivity.
Qed.

(** ** Local mode *)

(** C4. When the base URL contains ["localhost"] or ["127.0.0.1"], each of
    [getRunDetails], [cancelRun] and [replayRun] throws its fixed error, whose
    message contains "not available in development mode", and leaves the
    state as it found it: nothing is added to the log of [fetch] calls. *)
Theorem local_mode_rejects config host runId st :
  includes "localhost" (baseUrl config) = true
  \/ includes "127.0.0.1" (baseUrl config) = true ->
  (exists msg,
     getRunDetails config host runId st = (Throw (ErrorObj msg), st)
     /\ msg = "Run details not available in development mode. Please use Inngest Cloud for run management features."
     /\ includes "not available in development mode" msg = true)
  /\ (exists msg,
        cancelRun config host runId st = (Throw (ErrorObj msg), st)
        /\ msg = "Run cancellation not available in development mode. Please use Inngest Cloud for run management features."
        /\ includes "not available in development mode" msg = true)
  /\ (exists msg,
        replayRun config host runId st = (Throw (ErrorObj msg), st)
        /\ msg = "Run replay not available in development mode. Please use Inngest Cloud for run management features."
        /\ includes "not available in development mode" msg = true).
Proof.
  intros Hlocal.
  assert (isLocal config = true) as Hl.
  { unfold isLocal. destruct Hlocal as [-> | ->]; [reflexivity|].
    apply orb_true_r. }
  unfold getRunDetails, cancelRun, replayRun. rewrite Hl.
  repeat split; eexists; (split; [reflexivity|]); split; reflexivity.
Qed.

(** ** Caller-supplied headers *)

(** The headers of a built request, key by key: the two computed headers
    first, then the caller's, then the default content type. *)
Lemma requestHeaders_lookup config options (k : string) :
  requestHeaders config options !! k =
  if String.eqb k "Authorization" && sendsAuth config
  then Some ("Bearer " +:+ signingKey config)
  else if String.eqb k "X-Inngest-Env" && truthyOptStr (env config)
  then env config
  else match default ∅ (headers options) !! k with
       | Some v => Some v
       | None => if String.eqb k "Content-Type"
                 then Some "application/json" else None
       end.
Proof.
  unfold requestHeaders.
  set (h := default ∅ (headers options)).
  assert (Hbase : (h ∪ {[ "Content-Type" := "application/json" ]}) !! k =
                  match h !! k with
                  | Some v => Some v
                  | None => if String.eqb k "Content-Type"
                            then Some "application/json" else None
                  end).
  { rewrite lookup_union. destruct (h !! k) as [v|] eqn:Hk.
    - destruct (({[ "Content-Type" := "application/json" ]}
                 : gmap string string) !! k); reflexivity.
    - rewrite (left_id_L None _).
      destruct (String.eqb_spec k "Content-Type") as [->|Hne].
      + apply lookup_singleton_eq.
      + apply lookup_singleton_ne. congruence. }
  destruct (sendsAuth config); cbn.
  - destruct (String.eqb_spec k "Authorization") as [->|Hk]; cbn.
    + apply lookup_insert_eq.
    + rewrite lookup_insert_ne by congruence.
      destruct (env config) as [e|]; cbn; [destruct (truthyStr e); cbn|].
      * destruct (String.eqb_spec k "X-Inngest-Env") as [->|Hk']; cbn.
        -- apply lookup_insert_eq.
        -- rewrite lookup_insert_ne by congruence. apply Hbase.
      * rewrite andb_false_r. apply Hbase.
      * rewrite andb_false_r. apply Hbase.
  - rewrite andb_false_r.
    destruct (env config) as [e|]; cbn; [destruct (truthyStr e); cbn|].
    + destruct (String.eqb_spec k "X-Inngest-Env") as [->|Hk']; cbn.
      * apply lookup_insert_eq.
      * rewrite lookup_insert_ne by congruence. apply Hbase.
    + rewrite andb_false_r. apply Hbase.
    + rewrite andb_false_r. apply Hbase.
Qed.

(** C6, as stated, fails: a caller of [apiRequest] that supplies
    [Content-Type: text/plain] has that value sent, not
    ["application/json"]. *)
Lemma caller_content_type_is_sent :
  let host := Scenarios.always (Scenarios.createMockResponse (JObj []) 200 "OK") in
  exists rq,
    calls (apiRequest Scenarios.mockConfig host "/v1/events"
             Scenarios.textPlainOptions initial).2 = [rq]
    /\ fetch_headers rq !! "Content-Type" = Some "text/plain"
    /\ fetch_headers rq !! "Content-Type" <> Some "application/json".
Proof.
  cbn zeta. eexists. split; [reflexivity|]. split; [reflexivity|].
  intros H. vm_compute in H. discriminate H.
Qed.

(** C6, amended. [apiRequest] issues one request, whose headers are the
    merge of the default content type, the caller's headers and the computed
    ones, later ones winning: a header the caller supplies is sent with the
    caller's value unless it is a computed [Authorization] or
    [X-Inngest-Env]; so a caller's [Content-Type] replaces the default, and
    ["application/json"] is sent only when the caller supplies none. *)
Theorem caller_headers_merge config host endpoint options st :
  exists rq,
    calls (apiRequest config host endpoint options st).2 = calls st ++ [rq]
    /\ (forall k : string,
          fetch_headers rq !! k =
          if String.eqb k "Authorization" && sendsAuth config
          then Some ("Bearer " +:+ signingKey config)
          else if String.eqb k "X-Inngest-Env" && truthyOptStr (env config)
          then env config
          else match default ∅ (headers options) !! k with
               | Some v => Some v
               | None => if String.eqb k "Content-Type"
                         then Some "application/json" else None
               end)
    /\ fetch_headers rq !! "Content-Type" =
       match default ∅ (headers options) !! "Content-Type" with
       | Some v => Some v
       | None => Some "application/json"
       end.
Proof.
  exists (buildRequest config endpoint options).
  split; [apply apiRequest_calls|]. split.
  - intros k. apply requestHeaders_lookup.
  - cbn. rewrite requestHeaders_lookup. cbn.
    destruct (_ !! "Content-Type"); reflexivity.
Qed.

(** ** The body of a bulk cancellation *)

Lemma assoc_app k (l1 l2 : list (string * JSON)) :
  assoc k (l1 ++ l2) =
  match assoc k l1 with
  | Some v => Some v
  | None => assoc k l2
  end.
Proof.
  induction l1 as [|[k' v] l1 IH]; cbn; [reflexivity|].
  destruct (String.eqb k k'); [reflexivity | apply IH].
Qed.

Lemma assoc_assignIf k key value requestBody :
  assoc k (assignIf key value requestBody) =
  match assoc k requestBody with
  | Some v => Some v
  | None => if String.eqb k key then JStr <$> supplied value else None
  end.
Proof.
  unfold assignIf, supplied.
  destruct value as [v|]; [destruct (truthyStr v)|];
    rewrite ?assoc_app; cbn;
    destruct (assoc k requestBody); try reflexivity;
    destruct (String.eqb k key); reflexivity.
Qed.

Lemma keys_assignIf key value requestBody :
  map fst (assignIf key value requestBody) =
  map fst requestBody ++ match supplied value with
                         | Some _ => [key]
                         | None => []
                         end.
Proof.
  unfold assignIf, supplied.
  destruct value as [v|]; [destruct (truthyStr v)|];
    rewrite ?map_app, ?app_nil_r; reflexivity.
Qed.

Lemma bulkCancelBody_lookup params k :
  assoc k (bulkCancelBody params) =
  if String.eqb k "function_id" then JStr <$> supplied (functionId params)
  else if String.eqb k "started_after" then JStr <$> supplied (startedAfter params)
  else if String.eqb k "started_before" then JStr <$> supplied (startedBefore params)
  else if String.eqb k "if" then JStr <$> supplied (condition params)
  else None.
Proof.
  unfold bulkCancelBody. rewrite !assoc_assignIf. cbn [assoc].
  destruct (String.eqb_spec k "function_id") as [->|H1].
  { cbn. destruct (supplied (functionId params)); reflexivity. }
  destruct (String.eqb_spec k "started_after") as [->|H2].
  { destruct (supplied (startedAfter params)); reflexivity. }
  destruct (String.eqb_spec k "started_before") as [->|H3].
  { destruct (supplied (startedBefore params)); reflexivity. }
  destruct (String.eqb k "if"); [|reflexivity].
  destruct (supplied (condition params)); reflexivity.
Qed.

Lemma bulkCancelBody_keys params :
  NoDup (map fst (bulkCancelBody params)).
Proof.
  unfold bulkCancelBody. rewrite !keys_assignIf. cbn [map fst app].
  destruct (supplied (functionId params)), (supplied (startedAfter params)),
    (supplied (startedBefore params)), (supplied (condition params));
    cbn; apply (bool_decide_unpack _); vm_compute; exact I.
Qed.

Lemma bulkCancelRuns_calls config host params st :
  calls (bulkCancelRuns config host params st).2 =
  calls st ++ [buildRequest config "/v1/cancellations"
                 {| method := Some "POST"; headers := None;
                    body := Some (stringify (JObj (bulkCancelBody params))) |}].
Proof.
  unfold bulkCancelRuns, try_catch.
  pose proof (apiRequest_calls config host "/v1/cancellations"
                {| method := Some "POST"; headers := None;
                   body := Some (stringify (JObj (bulkCancelBody params))) |}
                st) as Hc.
  destruct (apiRequest _ _ _ _ st) as [[v|e] st1]; cbn in Hc |- *; [exact Hc|].
  destruct (isLocal config); exact Hc.
Qed.

(** C7. [bulkCancelRuns] issues one request, a POST whose body is the JSON
    text of an object that has, under the keys [function_id],
    [started_after], [started_before] and [if], the values of the parameters
    [functionId], [startedAfter], [startedBefore] and [condition] that were
    supplied (as non-empty strings), and no other key: a parameter left out
    has no key, not a [null]. With only a function ID supplied, the object is
    [{function_id: ...}] alone. *)
Theorem bulk_cancel_body config host params st :
  exists rq,
    calls (bulkCancelRuns config host params st).2 = calls st ++ [rq]
    /\ fetch_method rq = Some "POST"
    /\ fetch_body rq = Some (stringify (JObj (bulkCancelBody params)))
    /\ (forall k,
          assoc k (bulkCancelBody params) =
          if String.eqb k "function_id"
          then JStr <$> supplied (functionId params)
          else if String.eqb k "started_after"
          then JStr <$> supplied (startedAfter params)
          else if String.eqb k "started_before"
          then JStr <$> supplied (startedBefore params)
          else if String.eqb k "if"
          then JStr <$> supplied (condition params)
          else None)
    /\ NoDup (map fst (bulkCancelBody params))
    /\ (forall f,
          supplied (functionId params) = Some f ->
          supplied (startedAfter params) = None ->
          supplied (startedBefore params) = None ->
          supplied (condition params) = None ->
          bulkCancelBody params = [("function_id", JStr f)]
          /\ fetch_body rq
             = Some ("{" +:+ quote "function_id" +:+ ":" +:+ quote f +:+ "}")).
Proof.
  eexists. split; [apply bulkCancelRuns_calls|]. cbn.
  split; [reflexivity|]. split; [reflexivity|].
  split; [apply bulkCancelBody_lookup|]. split; [apply bulkCancelBody_keys|].
  intros f Hf Ha Hb Hc.
  assert (bulkCancelBody params = [("function_id", JStr f)]) as ->.
  { unfold bulkCancelBody, assignIf, supplied in *.
    destruct (functionId params) as [x|]; [|discriminate].
    destruct (truthyStr x); [|discriminate]. injection Hf as ->.
    destruct (startedAfter params) as [a|];
      [destruct (truthyStr a); [discriminate|]|];
      (destruct (startedBefore params) as [b|];
       [destruct (truthyStr b); [discriminate|]|]);
      (destruct (condition params) as [c|];
       [destruct (truthyStr c); [discriminate|]|]); reflexivity. }
  split; reflexivity.
Qed.

(** ** The candidate loop *)

Section Loop.
Context {A : Type}.
Variable config : InngestConfig.
Variable host : Host.
Variable options : RequestInit.
Variable read : JSON -> result (option A).
Variable failure : string -> string.

(** The [try] body of the three operations: one [apiRequest], then a
    reading of its response. *)
Let attempt : string -> M (option A) := fun endpoint =>
  response ← apiRequest config host endpoint options; lift (read response).

(** How that body ends when its request is the [n]-th [fetch] call. *)
Let outcome (n : nat) (endpoint : string) : result (option A) :=
  response ← exchange host n (buildRequest config endpoint options);
  read response.

Lemma turn_calls endpoint last st :
  calls (turn host attempt endpoint last st).2 =
  calls st ++ [buildRequest config endpoint options].
Proof.
  unfold turn, try_catch, attempt, mbind, M_bind.
  pose proof (apiRequest_calls config host endpoint options st) as Hc.
  destruct (apiRequest config host endpoint options st) as [[v|e] st1];
    cbn in Hc |- *; [|exact Hc].
  unfold lift. destruct (read v) as [[a|]|e]; cbn; exact Hc.
Qed.

Lemma turn_outcome endpoint last st :
  match outcome (length (calls st)) endpoint with
  | Ok (Some a) =>
      (turn host attempt endpoint last st).1 = Ok (Return a)
      /\ _lastError (turn host attempt endpoint last st).2 = _lastError st
  | Ok None =>
      (turn host attempt endpoint last st).1 = Ok (Continue last)
      /\ _lastError (turn host attempt endpoint last st).2 = _lastError st
  | Throw e =>
      (turn host attempt endpoint last st).1 = Ok (Continue (Some (asError e)))
      /\ ae_message <$> _lastError (turn host attempt endpoint last st).2
         = Some (asError e)
  end.
Proof.
  unfold outcome, turn, try_catch, attempt, mbind, M_bind, result_bind.
  pose proof (apiRequest_result config host endpoint options st) as Hr.
  pose proof (apiRequest_lastError config host endpoint options st) as He.
  destruct (apiRequest config host endpoint options st) as [[v|e] st1];
    cbn in Hr, He; rewrite <- Hr.
  - unfold lift. destruct (read v) as [[a|]|e]; cbn; auto.
  - cbn. auto.
Qed.

Lemma tryEndpoints_cons endpoint rest last st :
  tryEndpoints host attempt failure (endpoint :: rest) last st =
  match turn host attempt endpoint last st with
  | (Ok (Return a), st1) => (Ok a, st1)
  | (Ok (Continue last1), st1) => tryEndpoints host attempt failure rest last1 st1
  | (Throw e, st1) => (Throw e, st1)
  end.
Proof.
  cbn [tryEndpoints]. unfold mbind at 1, M_bind at 1.
  destruct (turn host attempt endpoint last st) as [[[a|last1]|e] st1];
    reflexivity.
Qed.

(** The loop returns what the first accepted candidate gives, after a
    request to each endpoint up to that one, in the order of the list. *)
Lemma loop_first_accepted endpoints : forall k endpoint a last st,
  endpoints !! k = Some endpoint ->
  (forall j e, (j < k)%nat -> endpoints !! j = Some e ->
     forall r, outcome (length (calls st) + j) e <> Ok (Some r)) ->
  outcome (length (calls st) + k) endpoint = Ok (Some a) ->
  (tryEndpoints host attempt failure endpoints last st).1 = Ok a
  /\ calls (tryEndpoints host attempt failure endpoints last st).2
     = calls st ++ requestsFor config options (take (S k) endpoints).
Proof.
  induction endpoints as [|e0 rest IH]; intros k endpoint a last st Hk Hbefore Hat.
  { discriminate Hk. }
  rewrite tryEndpoints_cons.
  pose proof (turn_calls e0 last st) as Hc.
  pose proof (turn_outcome e0 last st) as Ho.
  destruct k as [|k].
  - injection Hk as <-. rewrite Nat.add_0_r in Hat. rewrite Hat in Ho.
    destruct Ho as [Ho _].
    destruct (turn host attempt e0 last st) as [r st1]; cbn in Ho, Hc.
    subst r. cbn. auto.
  - cbn in Hk.
    assert (Hlen : forall j, (length (calls (turn host attempt e0 last st).2) + j
                              = length (calls st) + S j)%nat).
    { intros j. rewrite Hc, length_app. cbn. lia. }
    specialize (IH k endpoint a).
    assert (H0 := Hbefore 0%nat e0 ltac:(lia) eq_refl).
    rewrite Nat.add_0_r in H0.
    destruct (outcome (length (calls st)) e0) as [[r|]|err].
    + exfalso. exact (H0 r eq_refl).
    + destruct Ho as [Ho _].
      destruct (turn host attempt e0 last st) as [r st1]; cbn in Ho, Hc, Hlen.
      subst r.
      destruct (IH last st1 Hk) as [R C].
      * intros j e Hj He r. rewrite Hlen. apply (Hbefore (S j) e); [lia|exact He].
      * rewrite Hlen. exact Hat.
      * split; [exact R|]. rewrite C, Hc, <- app_assoc. reflexivity.
    + destruct Ho as [Ho _].
      destruct (turn host attempt e0 last st) as [r st1]; cbn in Ho, Hc, Hlen.
      subst r.
      destruct (IH (Some (asError err)) st1 Hk) as [R C].
      * intros j e Hj He r. rewrite Hlen. apply (Hbefore (S j) e); [lia|exact He].
      * rewrite Hlen. exact Hat.
      * split; [exact R|]. rewrite C, Hc, <- app_assoc. reflexivity.
Qed.

(** Candidates that fall through leave no trace but their request: the loop
    goes on with the same [lastError] and the same recorded error. *)
Lemma loop_skipped endpoints : forall k last st,
  (forall j e, (j < k)%nat -> endpoints !! j = Some e ->
     outcome (length (calls st) + j) e = Ok None) ->
  (k <= length endpoints)%nat ->
  exists st1,
    tryEndpoints host attempt failure endpoints last st
    = tryEndpoints host attempt failure (drop k endpoints) last st1
    /\ calls st1 = calls st ++ requestsFor config options (take k endpoints)
    /\ _lastError st1 = _lastError st.
Proof.
  induction endpoints as [|e0 rest IH]; intros k last st Hskip Hk.
  { cbn in Hk. assert (k = 0%nat) as -> by lia.
    exists st. cbn. rewrite app_nil_r. auto. }
  destruct k as [|k].
  { exists st. cbn. rewrite app_nil_r. auto. }
  rewrite tryEndpoints_cons.
  pose proof (turn_calls e0 last st) as Hc.
  pose proof (turn_outcome e0 last st) as Ho.
  assert (H0 := Hskip 0%nat e0 ltac:(lia) eq_refl).
  rewrite Nat.add_0_r in H0. rewrite H0 in Ho. destruct Ho as [Ho He].
  destruct (turn host attempt e0 last st) as [r st1]; cbn in Ho, Hc, He.
  subst r.
  destruct (IH k last st1) as (st2 & E & C & L).
  - intros j e Hj Hje.
    replace (length (calls st1) + j)%nat with (length (calls st) + S j)%nat
      by (rewrite Hc, length_app; cbn; lia).
    apply Hskip; [lia | exact Hje].
  - cbn in Hk. lia.
  - exists st2. cbn [drop take]. split; [exact E|]. split.
    + rewrite C, Hc, <- app_assoc. reflexivity.
    + congruence.
Qed.

(** When every candidate throws, the loop ends with the final error, built
    from the message of what the last candidate threw, which is also the
    error it recorded last. *)
Lemma loop_all_thrown endpoints : forall last st,
  endpoints <> [] ->
  (forall j e, endpoints !! j = Some e ->
     exists err, outcome (length (calls st) + j) e = Throw err) ->
  exists e err,
    endpoints !! pred (length endpoints) = Some e
    /\ outcome (length (calls st) + pred (length endpoints)) e = Throw err
    /\ (tryEndpoints host attempt failure endpoints last st).1
       = Throw (ErrorObj (failure (lastErrorText (Some (asError err)))))
    /\ calls (tryEndpoints host attempt failure endpoints last st).2
       = calls st ++ requestsFor config options endpoints
    /\ ae_message <$> _lastError (tryEndpoints host attempt failure endpoints last st).2
       = Some (asError err).
Proof.
  induction endpoints as [|e0 rest IH]; intros last st Hne Hall; [congruence|].
  rewrite tryEndpoints_cons.
  pose proof (turn_calls e0 last st) as Hc.
  pose proof (turn_outcome e0 last st) as Ho.
  destruct (Hall 0%nat e0 eq_refl) as [err0 H0].
  rewrite Nat.add_0_r in H0. rewrite H0 in Ho. destruct Ho as [Ho He].
  destruct (turn host attempt e0 last st) as [r st1]; cbn in Ho, Hc, He.
  subst r.
  destruct rest as [|e1 rest].
  - exists e0, err0. cbn. rewrite Nat.add_0_r.
    repeat split; auto.
  - destruct (IH (Some (asError err0)) st1 ltac:(congruence)) as
      (e & err & Hlast & Hout & R & C & L).
    + intros j e Hje.
      replace (length (calls st1) + j)%nat with (length (calls st) + S j)%nat
        by (rewrite Hc, length_app; cbn; lia).
      apply Hall. exact Hje.
    + exists e, err.
      replace (length (calls st1) + pred (length (e1 :: rest)))%nat
        with (length (calls st) + pred (length (e0 :: e1 :: rest)))%nat in Hout
        by (rewrite Hc, length_app; cbn; lia).
      repeat split; auto.
      rewrite C, Hc, <- app_assoc. reflexivity.
Qed.

(** Past the last endpoint the loop throws the final error, built from the
    current [lastError]. *)
Lemma loop_exhausted last st :
  tryEndpoints host attempt failure [] last st
  = (Throw (ErrorObj (failure (lastErrorText last))), st).
Proof. reflexivity. Qed.

End Loop.

Section LoopMore.
Context {A : Type}.
Variable config : InngestConfig.
Variable host : Host.
Variable options : RequestInit.
Variable read : JSON -> result (option A).
Variable failure : string -> string.

Let attempt : string -> M (option A) := fun endpoint =>
  response ← apiRequest config host endpoint options; lift (read response).

Let outcome (n : nat) (endpoint : string) : result (option A) :=
  response ← exchange host n (buildRequest config endpoint options);
  read response.

(** Candidates that fall through, then one that is accepted. *)
Lemma loop_skipped_then_accepted endpoints k endpoint a last st :
  endpoints !! k = Some endpoint ->
  (forall j e, (j < k)%nat -> endpoints !! j = Some e ->
     outcome (length (calls st) + j) e = Ok None) ->
  outcome (length (calls st) + k) endpoint = Ok (Some a) ->
  (tryEndpoints host attempt failure endpoints last st).1 = Ok a
  /\ calls (tryEndpoints host attempt failure endpoints last st).2
     = calls st ++ requestsFor config options (take (S k) endpoints)
  /\ _lastError (tryEndpoints host attempt failure endpoints last st).2
     = _lastError st.
Proof.
  intros Hk Hskip Hat.
  assert (Hlt : (k < length endpoints)%nat) by (eapply lookup_lt_Some; eauto).
  destruct (loop_skipped config host options read failure endpoints k last st
              Hskip ltac:(lia)) as (st1 & E & C & L).
  unfold attempt, outcome in *.
  rewrite E, (drop_S _ _ _ Hk), tryEndpoints_cons.
  pose proof (turn_calls config host options read endpoint last st1) as Hc.
  pose proof (turn_outcome config host options read endpoint last st1) as Ho.
  replace (length (calls st1)) with (length (calls st) + k)%nat in Ho.
  2:{ rewrite C, length_app. unfold requestsFor.
      rewrite length_map, length_take. lia. }
  rewrite Hat in Ho. destruct Ho as [Ho He].
  destruct (turn host _ endpoint last st1) as [r st2]; cbn in Ho, Hc, He.
  subst r. cbn. split; [reflexivity|]. split; [|congruence].
  rewrite Hc, C, (take_S_r _ _ _ Hk), <- app_assoc.
  unfold requestsFor. rewrite map_app. reflexivity.
Qed.

(** Every candidate falls through: the final error speaks of the
    [lastError] the loop started with. *)
Lemma loop_all_skipped endpoints last st :
  (forall j e, endpoints !! j = Some e ->
     outcome (length (calls st) + j) e = Ok None) ->
  (tryEndpoints host attempt failure endpoints last st).1
  = Throw (ErrorObj (failure (lastErrorText last)))
  /\ calls (tryEndpoints host attempt failure endpoints last st).2
     = calls st ++ requestsFor config options endpoints
  /\ _lastError (tryEndpoints host attempt failure endpoints last st).2
     = _lastError st.
Proof.
  intros Hskip.
  destruct (loop_skipped config host options read failure endpoints
              (length endpoints) last st) as (st1 & E & C & L).
  { intros j e _ He. apply Hskip, He. }
  { lia. }
  unfold attempt, outcome in *. rewrite E, drop_all, loop_exhausted. cbn.
  rewrite firstn_all in C. auto.
Qed.

End LoopMore.

(** ** Which failure the final error names *)

Section LoopNamed.
Context {A : Type}.
Variable config : InngestConfig.
Variable host : Host.
Variable options : RequestInit.
Variable read : JSON -> result (option A).
Variable failure : string -> string.

Let attempt : string -> M (option A) := fun endpoint =>
  response ← apiRequest config host endpoint options; lift (read response).

Let outcome (n : nat) (endpoint : string) : result (option A) :=
  response ← exchange host n (buildRequest config endpoint options);
  read response.

(** Candidates of which none is accepted are all tried: the loop goes on
    behind them, with some [lastError]. *)
Lemma loop_rejected endpoints : forall k last st,
  (forall j e, (j < k)%nat -> endpoints !! j = Some e ->
     forall r, outcome (length (calls st) + j) e <> Ok (Some r)) ->
  (k <= length endpoints)%nat ->
  exists last1 st1,
    tryEndpoints host attempt failure endpoints last st
    = tryEndpoints host attempt failure (drop k endpoints) last1 st1
    /\ calls st1 = calls st ++ requestsFor config options (take k endpoints).
Proof.
  induction endpoints as [|e0 rest IH]; intros k last st Hrej Hk.
  { cbn in Hk. assert (k = 0%nat) as -> by lia.
    exists last, st. cbn. rewrite app_nil_r. auto. }
  destruct k as [|k].
  { exists last, st. cbn. rewrite app_nil_r. auto. }
  unfold attempt, outcome in *. rewrite tryEndpoints_cons.
  pose proof (turn_calls config host options read e0 last st) as Hc.
  pose proof (turn_outcome config host options read e0 last st) as Ho.
  assert (H0 := Hrej 0%nat e0 ltac:(lia) eq_refl).
  rewrite Nat.add_0_r in H0.
  assert (Hnext : exists last1,
             (turn host
                (fun endpoint =>
                   response ← apiRequest config host endpoint options;
                   lift (read response)) e0 last st).1
             = Ok (Continue last1)).
  { cbv beta zeta in Ho.
    match type of Ho with
    | match ?x with _ => _ end => destruct x as [[r|]|err]
    end.
    - exfalso. exact (H0 r eq_refl).
    - destruct Ho as [Ho _]. eauto.
    - destruct Ho as [Ho _]. eauto. }
  destruct Hnext as [last1 Hnext].
  destruct (turn host _ e0 last st) as [r st1]; cbn in Hnext, Hc.
  subst r.
  destruct (IH k last1 st1) as (last2 & st2 & E & C).
  - intros j e Hj Hje.
    replace (length (calls st1) + j)%nat with (length (calls st) + S j)%nat
      by (rewrite Hc, length_app; cbn; lia).
    apply Hrej; [lia | exact Hje].
  - cbn in Hk. lia.
  - exists last2, st2. cbn [drop take]. split; [exact E|].
    rewrite C, Hc, <- app_assoc. reflexivity.
Qed.

(** When no candidate is accepted, the final error is built from the message
    of what the last candidate to throw has thrown: the candidates behind
    it, which fall through, leave [lastError] as it is. *)
Lemma loop_names_last_thrown endpoints k endpoint err last st :
  endpoints !! k = Some endpoint ->
  (forall j e, (j < k)%nat -> endpoints !! j = Some e ->
     forall r, outcome (length (calls st) + j) e <> Ok (Some r)) ->
  outcome (length (calls st) + k) endpoint = Throw err ->
  (forall j e, (k < j)%nat -> endpoints !! j = Some e ->
     outcome (length (calls st) + j) e = Ok None) ->
  (tryEndpoints host attempt failure endpoints last st).1
  = Throw (ErrorObj (failure (lastErrorText (Some (asError err)))))
  /\ calls (tryEndpoints host attempt failure endpoints last st).2
     = calls st ++ requestsFor config options endpoints.
Proof.
  intros Hk Hbefore Hat Hafter.
  assert (Hlt : (k < length endpoints)%nat) by (eapply lookup_lt_Some; eauto).
  destruct (loop_rejected endpoints k last st Hbefore ltac:(lia))
    as (last1 & st1 & E & C).
  unfold attempt, outcome in *.
  rewrite E, (drop_S _ _ _ Hk), tryEndpoints_cons.
  pose proof (turn_calls config host options read endpoint last1 st1) as Hc.
  pose proof (turn_outcome config host options read endpoint last1 st1) as Ho.
  assert (Hlen : length (calls st1) = (length (calls st) + k)%nat).
  { rewrite C, length_app. unfold requestsFor.
    rewrite length_map, length_take. lia. }
  rewrite Hlen in Ho. cbv beta zeta in Ho. rewrite Hat in Ho.
  destruct Ho as [Ho _].
  destruct (turn host _ endpoint last1 st1) as [r st2]; cbn in Ho, Hc.
  subst r. cbn.
  destruct (loop_all_skipped config host options read failure
              (drop (S k) endpoints) (Some (asError err)) st2)
    as (R & C2 & _).
  { intros j e He. rewrite lookup_drop in He.
    replace (length (calls st2) + j)%nat
      with (length (calls st) + (S k + j))%nat
      by (rewrite Hc, length_app, Hlen; cbn; lia).
    apply Hafter; [lia | exact He]. }
  split; [exact R|].
  rewrite C2, Hc, C, <- !app_assoc. f_equal.
  rewrite <- (take_drop (S k) endpoints) at 3.
  rewrite (take_S_r _ _ _ Hk). unfold requestsFor.
  rewrite !map_app, <- app_assoc. reflexivity.
Qed.

End LoopNamed.

(** ** The response formats of [getRunDetails] *)

Lemma readRun_unrecognised body :
  isObjectOrArray body = true ->
  truthyOpt (prop "data" body) = false ->
  prop "run_id" body = None ->
  readRun body = Ok None.
Proof.
  intros Hkind Hdata Hid. unfold readRun.
  destruct body as [| | | |items|fields]; try discriminate.
  - unfold inOperator. rewrite !not_an_index by reflexivity. reflexivity.
  - cbn in *. rewrite Hdata, andb_false_r, Hid. reflexivity.
Qed.

Lemma unrecognised_outcome config host n endpoint :
  answersUnrecognised host n (buildRequest config endpoint noOptions) ->
  detailsOutcome config host n endpoint = Ok None.
Proof.
  intros (response & body & Hf & Hok & Hj & Hkind & Hdata & Hid).
  unfold detailsOutcome, exchange. rewrite Hf, Hok, Hj. cbn.
  now apply readRun_unrecognised.
Qed.

(** ** The three operations that try candidate paths *)

Lemma post_outcome_thrown config host n e err :
  postOutcome config host n e = Throw err ->
  forall r : Ack,
    (response ← exchange host n (buildRequest config e post);
     (fun _ : JSON => Ok (Some {| success := true |})) response)
    <> Ok (Some r).
Proof. unfold postOutcome. intros -> r. discriminate. Qed.

(** C3. On a base URL that is not local, [getRunDetails], [cancelRun] and
    [replayRun] request their candidate endpoints in the order of their
    lists and stop at the first one that succeeds (for [cancelRun] and
    [replayRun]: whose [apiRequest] returns; for [getRunDetails]: whose
    response is returned as the run), giving back the result of that one:
    when the candidate at position [k] is the first to succeed, exactly the
    first [k + 1] requests are made (three when only the third succeeds).
    When no candidate succeeds, all of them are requested and the operation
    throws its final error, whose message ends with the message of the last
    failure: the [message] of the error the last failing candidate has
    thrown, or its text when it is no [Error], or "Unknown error" when that
    is empty. For [cancelRun] and [replayRun] every candidate that does not
    succeed throws, so this is the last candidate; a candidate of
    [getRunDetails] may also fall through without an error, so it is the
    last candidate to throw, whatever the candidates before it did and with
    those behind it falling through, and "Unknown error" when all of them
    fall through. *)
Theorem candidate_paths_in_order config host runId st :
  isLocal config = false ->
  let n := length (calls st) in
  let named := fun err : Thrown =>
    match err with
    | ErrorObj said | NonError said =>
        if String.eqb said "" then "Unknown error" else said
    end in
  (forall k endpoint run,
     runDetailsEndpoints runId !! k = Some endpoint ->
     (forall j e, (j < k)%nat -> runDetailsEndpoints runId !! j = Some e ->
        forall r, detailsOutcome config host (n + j) e <> Ok (Some r)) ->
     detailsOutcome config host (n + k) endpoint = Ok (Some run) ->
     (getRunDetails config host runId st).1 = Ok run
     /\ calls (getRunDetails config host runId st).2
        = calls st ++ requestsFor config noOptions
                        (take (S k) (runDetailsEndpoints runId)))
  /\ (forall k endpoint v,
        cancelEndpoints runId !! k = Some endpoint ->
        (forall j e, (j < k)%nat -> cancelEndpoints runId !! j = Some e ->
           exists err, postOutcome config host (n + j) e = Throw err) ->
        postOutcome config host (n + k) endpoint = Ok v ->
        (cancelRun config host runId st).1 = Ok {| success := true |}
        /\ calls (cancelRun config host runId st).2
           = calls st ++ requestsFor config post
                           (take (S k) (cancelEndpoints runId)))
  /\ (forall k endpoint v,
        replayEndpoints runId !! k = Some endpoint ->
        (forall j e, (j < k)%nat -> replayEndpoints runId !! j = Some e ->
           exists err, postOutcome config host (n + j) e = Throw err) ->
        postOutcome config host (n + k) endpoint = Ok v ->
        (replayRun config host runId st).1 = Ok {| success := true |}
        /\ calls (replayRun config host runId st).2
           = calls st ++ requestsFor config post
                           (take (S k) (replayEndpoints runId)))
  /\ (forall k endpoint err,
        runDetailsEndpoints runId !! k = Some endpoint ->
        (forall j e, (j < k)%nat -> runDetailsEndpoints runId !! j = Some e ->
           forall r, detailsOutcome config host (n + j) e <> Ok (Some r)) ->
        detailsOutcome config host (n + k) endpoint = Throw err ->
        (forall j e, (k < j)%nat -> runDetailsEndpoints runId !! j = Some e ->
           detailsOutcome config host (n + j) e = Ok None) ->
        (getRunDetails config host runId st).1
        = Throw (ErrorObj ("Failed to get run details for " +:+ runId
                           +:+ ". Last error: " +:+ named err))
        /\ calls (getRunDetails config host runId st).2
           = calls st ++ requestsFor config noOptions (runDetailsEndpoints runId))
  /\ ((forall j e, runDetailsEndpoints runId !! j = Some e ->
         detailsOutcome config host (n + j) e = Ok None) ->
      (getRunDetails config host runId st).1
      = Throw (ErrorObj ("Failed to get run details for " +:+ runId
                         +:+ ". Last error: Unknown error"))
      /\ calls (getRunDetails config host runId st).2
         = calls st ++ requestsFor config noOptions (runDetailsEndpoints runId))
  /\ (forall err,
        (forall j e, (j < 2)%nat -> cancelEndpoints runId !! j = Some e ->
           exists err', postOutcome config host (n + j) e = Throw err') ->
        postOutcome config host (n + 2) ("/runs/" +:+ runId +:+ "/cancel")
          = Throw err ->
        (cancelRun config host runId st).1
        = Throw (ErrorObj ("Failed to cancel run " +:+ runId
                           +:+ ". Last error: " +:+ named err))
        /\ calls (cancelRun config host runId st).2
           = calls st ++ requestsFor config post (cancelEndpoints runId))
  /\ (forall err,
        (forall j e, (j < 5)%nat -> replayEndpoints runId !! j = Some e ->
           exists err', postOutcome config host (n + j) e = Throw err') ->
        postOutcome config host (n + 5) ("/runs/" +:+ runId +:+ "/retry")
          = Throw err ->
        (replayRun config host runId st).1
        = Throw (ErrorObj ("Failed to replay run " +:+ runId
                           +:+ ". Last error: " +:+ named err))
        /\ calls (replayRun config host runId st).2
           = calls st ++ requestsFor config post (replayEndpoints runId)).
Proof.
  intros Hcloud n named.
  assert (Hnamed : forall err,
             lastErrorText (Some (asError err)) = named err).
  { intros [said|said]; cbn; unfold truthyStr;
      destruct (String.eqb said ""); reflexivity. }
  unfold getRunDetails, cancelRun, replayRun. rewrite Hcloud.
  repeat apply conj.
  - intros k endpoint run Hk Hbefore Hat.
    exact (loop_first_accepted config host noOptions readRun _ _ k endpoint
             run None st Hk Hbefore Hat).
  - intros k endpoint v Hk Hbefore Hat.
    apply (loop_first_accepted config host post
             (fun _ => Ok (Some {| success := true |})) _ _ k endpoint
             {| success := true |} None st Hk).
    + intros j e Hj He. destruct (Hbefore j e Hj He) as [err Herr].
      now apply post_outcome_thrown with err.
    + fold n. unfold postOutcome in Hat. rewrite Hat. reflexivity.
  - intros k endpoint v Hk Hbefore Hat.
    apply (loop_first_accepted config host post
             (fun _ => Ok (Some {| success := true |})) _ _ k endpoint
             {| success := true |} None st Hk).
    + intros j e Hj He. destruct (Hbefore j e Hj He) as [err Herr].
      now apply post_outcome_thrown with err.
    + fold n. unfold postOutcome in Hat. rewrite Hat. reflexivity.
  - intros k endpoint err Hk Hbefore Hat Hafter.
    rewrite <- Hnamed.
    exact (loop_names_last_thrown config host noOptions readRun
             (fun last => "Failed to get run details for " +:+ runId
                          +:+ ". Last error: " +:+ last)
             (runDetailsEndpoints runId) k endpoint err None st
             Hk Hbefore Hat Hafter).
  - intros Hall.
    destruct (loop_all_skipped config host noOptions readRun
                (fun last => "Failed to get run details for " +:+ runId
                             +:+ ". Last error: " +:+ last)
                (runDetailsEndpoints runId) None st Hall) as (R & C & _).
    split; [exact R | exact C].
  - intros err Hbefore Hat.
    rewrite <- Hnamed.
    apply (loop_names_last_thrown config host post
             (fun _ => Ok (Some {| success := true |}))
             (fun last => "Failed to cancel run " +:+ runId
                          +:+ ". Last error: " +:+ last)
             (cancelEndpoints runId) 2 ("/runs/" +:+ runId +:+ "/cancel")
             err None st eq_refl).
    + intros j e Hj He. destruct (Hbefore j e Hj He) as [err' Herr].
      now apply post_outcome_thrown with err'.
    + fold n. unfold postOutcome in Hat. rewrite Hat. reflexivity.
    + intros j e Hj He. exfalso.
      destruct j as [|[|[|j]]]; try lia. discriminate He.
  - intros err Hbefore Hat.
    rewrite <- Hnamed.
    apply (loop_names_last_thrown config host post
             (fun _ => Ok (Some {| success := true |}))
             (fun last => "Failed to replay run " +:+ runId
                          +:+ ". Last error: " +:+ last)
             (replayEndpoints runId) 5 ("/runs/" +:+ runId +:+ "/retry")
             err None st eq_refl).
    + intros j e Hj He. destruct (Hbefore j e Hj He) as [err' Herr].
      now apply post_outcome_thrown with err'.
    + fold n. unfold postOutcome in Hat. rewrite Hat. reflexivity.
    + intros j e Hj He. exfalso.
      destruct j as [|[|[|[|[|[|j]]]]]]; try lia. discriminate He.
Qed.

(** C10, as stated, fails: a response with a success status whose body is
    [null] has neither a [data] nor a [run_id] field, yet the test
    ['data' in response] throws on it, and the [catch] records that error;
    when all three candidates answer so, the final error names it instead of
    "Unknown error". *)
Lemma null_body_recorded_as_error :
  let host := Scenarios.always (Scenarios.createMockResponse JNull 200 "OK") in
  let run := getRunDetails Scenarios.mockConfig host "run-123" initial in
  (prop "data" JNull = None /\ prop "run_id" JNull = None)
  /\ length (calls run.2) = 3%nat
  /\ ae_message <$> _lastError run.2
     = Some "Cannot use 'in' operator to search for 'data' in null"
  /\ run.1 = Throw (ErrorObj "Failed to get run details for run-123. Last error: Cannot use 'in' operator to search for 'data' in null")
  /\ run.1 <> Throw (ErrorObj "Failed to get run details for run-123. Last error: Unknown error").
Proof.
  cbn zeta. split; [split; reflexivity|]. split; [reflexivity|].
  split; [reflexivity|]. split; [reflexivity|].
  intros H. vm_compute in H. discriminate H.
Qed.

(** C10, amended. On a base URL that is not local, a candidate of
    [getRunDetails] answered with a success status and a body that is a JSON
    object or array with neither a truthy [data] field nor a [run_id] field
    is not returned: the loop goes on to the next candidate and records no
    error. So when candidates before position [k] are answered that way and
    the one at [k] is accepted, its run is returned after [k + 1] requests;
    and when all three are answered that way, the operation throws the final
    error with "Unknown error" as the last error, the recorded error being
    what it was before the call. *)
Theorem unrecognised_response_skipped config host runId st :
  isLocal config = false ->
  let n := length (calls st) in
  (forall k endpoint run,
     runDetailsEndpoints runId !! k = Some endpoint ->
     (forall j e, (j < k)%nat -> runDetailsEndpoints runId !! j = Some e ->
        answersUnrecognised host (n + j) (buildRequest config e noOptions)) ->
     detailsOutcome config host (n + k) endpoint = Ok (Some run) ->
     (getRunDetails config host runId st).1 = Ok run
     /\ calls (getRunDetails config host runId st).2
        = calls st ++ requestsFor config noOptions
                        (take (S k) (runDetailsEndpoints runId))
     /\ _lastError (getRunDetails config host runId st).2 = _lastError st)
  /\ ((forall j e, runDetailsEndpoints runId !! j = Some e ->
         answersUnrecognised host (n + j) (buildRequest config e noOptions)) ->
      (getRunDetails config host runId st).1
      = Throw (ErrorObj ("Failed to get run details for " +:+ runId
                         +:+ ". Last error: Unknown error"))
      /\ calls (getRunDetails config host runId st).2
         = calls st ++ requestsFor config noOptions (runDetailsEndpoints runId)
      /\ _lastError (getRunDetails config host runId st).2 = _lastError st).
Proof.
  intros Hcloud n. unfold getRunDetails. rewrite Hcloud. split.
  - intros k endpoint run Hk Hbefore Hat.
    apply (loop_skipped_then_accepted config host noOptions readRun _ _ k
             endpoint run None st Hk); [|exact Hat].
    intros j e Hj He. apply unrecognised_outcome, Hbefore; assumption.
  - intros Hall.
    apply (loop_all_skipped config host noOptions readRun
             (fun last => "Failed to get run details for " +:+ runId
                          +:+ ". Last error: " +:+ last)
             (runDetailsEndpoints runId) None st).
    intros j e He. apply unrecognised_outcome, Hall, He.
Qed.

(** ** The properties at the configurations of the test suite *)

(** C1 on the configuration of the client tests. *)
Lemma authorization_iff_production_witness :
  let config := Scenarios.mockConfig in
  let host := Scenarios.always
                (Scenarios.createMockResponse (JObj [("data", JArr [])]) 200 "OK") in
  let rq := buildRequest config "/v1/events/event-123/runs" noOptions in
  rq ∈ issued config host (GetEventRuns "event-123") initial
  /\ (fetch_headers rq !! "Authorization" = Some "Bearer test-key"
      <-> signingKey config <> "" /\ signingKey config <> "local-dev-key"
          /\ includes "localhost" (baseUrl config) = false
          /\ includes "127.0.0.1" (baseUrl config) = false).
Proof.
  cbn zeta.
  assert (Hin : buildRequest Scenarios.mockConfig "/v1/events/event-123/runs"
                  noOptions
                ∈ issued Scenarios.mockConfig
                    (Scenarios.always
                       (Scenarios.createMockResponse
                          (JObj [("data", JArr [])]) 200 "OK"))
                    (GetEventRuns "event-123") initial).
  { vm_compute. constructor. }
  split; [exact Hin|].
  exact (proj1 (authorization_iff_production _ _ _ _ _ Hin)).
Defined.

(** C2, amended, on the sentinel key pointed at the cloud. *)
Lemma authorization_by_configuration_witness :
  let config := Scenarios.sentinelCloudConfig in
  let host := Scenarios.always
                (Scenarios.createMockResponse (JObj [("data", JArr [])]) 200 "OK") in
  let rq := buildRequest config "/v1/events/event-123/runs" noOptions in
  rq ∈ issued config host (GetEventRuns "event-123") initial
  /\ signingKey config = "local-dev-key"
  /\ fetch_headers rq !! "Authorization" = None.
Proof.
  cbn zeta.
  assert (Hin : buildRequest Scenarios.sentinelCloudConfig
                  "/v1/events/event-123/runs" noOptions
                ∈ issued Scenarios.sentinelCloudConfig
                    (Scenarios.always
                       (Scenarios.createMockResponse
                          (JObj [("data", JArr [])]) 200 "OK"))
                    (GetEventRuns "event-123") initial).
  { vm_compute. constructor. }
  split; [exact Hin|]. split; [reflexivity|].
  apply (proj1 (authorization_by_configuration _ _ _ _ _ Hin)).
  right. right. left. reflexivity.
Defined.

(** C3 on [getRunDetails]: where only the third candidate succeeds, and where
    the first is refused with 404 and the other two are answered with an
    empty object, so that the final error names the 404. *)
Lemma candidate_paths_in_order_witness :
  let config := Scenarios.mockConfig in
  let host := Scenarios.onlyCall 2 (JObj [("data", Scenarios.mockWorkflowRun)]) in
  isLocal config = false
  /\ ((getRunDetails config host "run-123" initial).1
      = Ok Scenarios.mockWorkflowRun
      /\ calls (getRunDetails config host "run-123" initial).2
         = requestsFor config noOptions
             [ "/v0/runs/run-123"; "/v1/runs/run-123"; "/runs/run-123" ])
  /\ ((getRunDetails config Scenarios.firstCallRefused "run-123" initial).1
      = Throw (ErrorObj "Failed to get run details for run-123. Last error: Inngest API error: 404 Not Found - {}")
      /\ calls (getRunDetails config Scenarios.firstCallRefused
                  "run-123" initial).2
         = requestsFor config noOptions
             [ "/v0/runs/run-123"; "/v1/runs/run-123"; "/runs/run-123" ]).
Proof.
  cbn zeta. split; [reflexivity|]. split.
  - refine (proj1 (candidate_paths_in_order Scenarios.mockConfig
                     (Scenarios.onlyCall 2
                        (JObj [("data", Scenarios.mockWorkflowRun)]))
                     "run-123" initial eq_refl)
              2%nat "/runs/run-123" Scenarios.mockWorkflowRun eq_refl _ eq_refl).
    intros j e Hj He r.
    destruct j as [|[|j]]; [| |lia]; cbn in He; injection He as <-; discriminate.
  - refine (proj1 (proj2 (proj2 (proj2
              (candidate_paths_in_order Scenarios.mockConfig
                 Scenarios.firstCallRefused "run-123" initial eq_refl))))
              0%nat "/v0/runs/run-123"
              (ErrorObj "Inngest API error: 404 Not Found - {}")
              eq_refl _ eq_refl _).
    + intros j e Hj. lia.
    + intros j e Hj He.
      destruct j as [|[|[|j]]]; [lia| | |discriminate He];
        cbn in He; injection He as <-; reflexivity.
Defined.

(** C4 on the defaults of [index.ts]. *)
Lemma local_mode_rejects_witness :
  includes "localhost" (baseUrl Scenarios.localConfig) = true
  /\ getRunDetails Scenarios.localConfig
       (Scenarios.always (Scenarios.createMockResponse (JObj []) 200 "OK"))
       "run-123" initial
     = (Throw (ErrorObj "Run details not available in development mode. Please use Inngest Cloud for run management features."),
        initial).
Proof.
  split; [reflexivity|].
  destruct (proj1 (local_mode_rejects Scenarios.localConfig
                     (Scenarios.always
                        (Scenarios.createMockResponse (JObj []) 200 "OK"))
                     "run-123" initial (or_introl eq_refl)))
    as (msg & Hrun & Hmsg & _).
  rewrite Hrun, Hmsg. reflexivity.
Defined.

(** C5 on a 404 answer. *)
Lemma apiRequest_outcome_witness :
  let host := Scenarios.always
                (Scenarios.createMockResponse (JObj []) 404 "Not Found") in
  let response := Scenarios.createMockResponse (JObj []) 404 "Not Found" in
  fetch host 0 (buildRequest Scenarios.mockConfig "/v1/events/event-123/runs"
                  noOptions) = Ok response
  /\ ok response = false
  /\ (apiRequest Scenarios.mockConfig host "/v1/events/event-123/runs"
        noOptions initial).1
     = Throw (ErrorObj "Inngest API error: 404 Not Found - {}")
  /\ _lastResponse
       (apiRequest Scenarios.mockConfig host "/v1/events/event-123/runs"
          noOptions initial).2 = None.
Proof.
  cbn zeta. split; [reflexivity|]. split; [reflexivity|].
  exact (proj1 (apiRequest_outcome Scenarios.mockConfig
                  (Scenarios.always
                     (Scenarios.createMockResponse (JObj []) 404 "Not Found"))
                  "/v1/events/event-123/runs" noOptions initial
                  (Scenarios.createMockResponse (JObj []) 404 "Not Found")
                  eq_refl) eq_refl).
Defined.

(** C6, amended, on a caller that sets its own content type. *)
Lemma caller_headers_merge_witness :
  exists rq,
    calls (apiRequest Scenarios.sentinelCloudConfig
             (Scenarios.always (Scenarios.createMockResponse (JObj []) 200 "OK"))
             "/v1/events" Scenarios.textPlainOptions initial).2 = [rq]
    /\ fetch_headers rq !! "Content-Type" = Some "text/plain"
    /\ fetch_headers rq !! "X-Inngest-Env" = Some "staging".
Proof.
  destruct (caller_headers_merge Scenarios.sentinelCloudConfig
              (Scenarios.always (Scenarios.createMockResponse (JObj []) 200 "OK"))
              "/v1/events" Scenarios.textPlainOptions initial)
    as (rq & Hcalls & Hlookup & Hct).
  exists rq. split; [exact Hcalls|]. split.
  - rewrite Hct. reflexivity.
  - rewrite Hlookup. reflexivity.
Defined.

(** C7 with only a function ID. *)
Lemma bulk_cancel_body_witness :
  let params := {| functionId := Some "func-123"; startedAfter := None;
                   startedBefore := None; condition := None |} in
  exists rq,
    calls (bulkCancelRuns Scenarios.mockConfig
             (Scenarios.always
                (Scenarios.createMockResponse
                   (JObj [("cancellationId", JStr "cancel-456")]) 200 "OK"))
             params initial).2 = [rq]
    /\ bulkCancelBody params = [("function_id", JStr "func-123")]
    /\ fetch_body rq
       = Some ("{" +:+ quote "function_id" +:+ ":" +:+ quote "func-123" +:+ "}").
Proof.
  cbn zeta.
  destruct (bulk_cancel_body Scenarios.mockConfig
              (Scenarios.always
                 (Scenarios.createMockResponse
                    (JObj [("cancellationId", JStr "cancel-456")]) 200 "OK"))
              {| functionId := Some "func-123"; startedAfter := None;
                 startedBefore := None; condition := None |} initial)
    as (rq & Hcalls & _ & _ & _ & _ & Honly).
  exists rq. split; [exact Hcalls|].
  exact (Honly "func-123" eq_refl eq_refl eq_refl eq_refl).
Defined.

(** C10, amended, where every candidate answers [{}]. *)
Lemma unrecognised_response_skipped_witness :
  let config := Scenarios.mockConfig in
  let host := Scenarios.always (Scenarios.createMockResponse (JObj []) 200 "OK") in
  isLocal config = false
  /\ (getRunDetails config host "run-123" initial).1
     = Throw (ErrorObj "Failed to get run details for run-123. Last error: Unknown error")
  /\ _lastError (getRunDetails config host "run-123" initial).2 = None.
Proof.
  cbn zeta. split; [reflexivity|].
  destruct (proj2 (unrecognised_response_skipped Scenarios.mockConfig
                     (Scenarios.always
                        (Scenarios.createMockResponse (JObj []) 200 "OK"))
                     "run-123" initial eq_refl)) as (Hrun & _ & Hlast).
  - intros j e He.
    exists (Scenarios.createMockResponse (JObj []) 200 "OK"), (JObj []).
    repeat split; reflexivity.
  - split; [exact Hrun | exact Hlast].
Defined.

End ClientFacts.

(* ===================================================================== *)
(** * Properties of the tool facade *)
(* ===================================================================== *)

Module FacadeFacts.
Import JS Async Facade JSFacts.

(** ** Errors of the client *)

Section Catching.
Context {S : Type}.
Variable inngestClient : ClientApi S.
Variable inngestConfig : Client.InngestConfig.
Variable platform : Platform.

(** A handler whose body is one [try]/[catch] around a call of the client:
    what it returns when the call throws. *)
Lemma try_catch_thrown {A B : Type} (m : M S A) (k : A -> M S B)
    (handler : Thrown -> M S B) st e :
  thrown (m st) = Some e ->
  try_catch (m ≫= k) handler st = handler e (m st).2.
Proof.
  unfold thrown, try_catch, mbind, M_bind.
  destruct (m st) as [[a|e'] st1]; cbn; [discriminate|].
  intros [= ->]. reflexivity.
Qed.

Lemma run_returns_text call st :
  exists t,
    (run inngestClient inngestConfig platform call st).1 = Ok (textResult t).
Proof.
  destruct call as [eventName data|eventId limit|runId|runId action|]; cbn.
  - unfold send_event, try_catch, mbind, M_bind.
    destruct (sendEvent inngestClient eventName data st) as [[a|e] st1];
      cbn; eauto.
  - unfold get_event_runs, try_catch, mbind, M_bind.
    destruct (getEventRuns inngestClient eventId st) as [[runs|e] st1];
      cbn; [destruct (length runs =? 0)%nat|]; cbn; eauto.
  - unfold get_run_details, try_catch, mbind, M_bind.
    destruct (getRunDetails inngestClient runId st) as [[a|e] st1];
      cbn; eauto.
  - unfold manage_run, try_catch, mbind, M_bind.
    destruct action.
    + destruct (cancelRun inngestClient runId st) as [[a|e] st1]; cbn; eauto.
    + destruct (replayRun inngestClient runId st) as [[a|e] st1]; cbn; eauto.
  - unfold debug_connection. cbn. eauto.
Qed.

Lemma run_states_message call st e :
  clientError inngestClient call st = Some e ->
  (run inngestClient inngestConfig platform call st).1 =
  Ok (textResult
        (errorPrefix call
         +:+ match call, e with
             | Call_get_run_details _, NonError _ => "Unknown error"
             | _, _ => messageOrString e
             end)).
Proof.
  destruct call as [eventName data|eventId limit|runId|runId action|];
    cbn [clientError run errorPrefix]; intros He.
  - unfold send_event. rewrite (try_catch_thrown _ _ _ _ _ He). reflexivity.
  - unfold get_event_runs. rewrite (try_catch_thrown _ _ _ _ _ He).
    reflexivity.
  - unfold get_run_details. rewrite (try_catch_thrown _ _ _ _ _ He).
    destruct e; reflexivity.
  - unfold manage_run. destruct action.
    + unfold try_catch, mbind at 1, M_bind at 1, mbind, M_bind.
      unfold thrown in He.
      destruct (cancelRun inngestClient runId st) as [[a|e'] st1];
        cbn in He |- *; [discriminate|]. injection He as ->. reflexivity.
    + unfold try_catch, mbind at 1, M_bind at 1, mbind, M_bind.
      unfold thrown in He.
      destruct (replayRun inngestClient runId st) as [[a|e'] st1];
        cbn in He |- *; [discriminate|]. injection He as ->. reflexivity.
  - discriminate He.
Qed.

End Catching.

(** C8. Whatever the client does, every tool's handler returns a text
    result, never throws; when the client throws an error during the tool's
    execution, the text is the handler's prefix followed by the error's
    message. Through the protocol, a call is answered with a protocol error
    exactly when its arguments fail the tool's input schema. *)
Theorem client_errors_become_text {S : Type} (inngestClient : ClientApi S)
    (inngestConfig : Client.InngestConfig) (platform : Platform) :
  (forall call st,
     exists t,
       (run inngestClient inngestConfig platform call st).1
       = Ok {| content := [ {| type := "text"; text := t |} ] |})
  /\ (forall call st message,
        clientError inngestClient call st = Some (ErrorObj message) ->
        (run inngestClient inngestConfig platform call st).1
        = Ok {| content := [ {| type := "text";
                                text := errorPrefix call +:+ message |} ] |})
  /\ (forall tool args st,
        (callTool inngestClient inngestConfig platform tool args st).1
          = Ok InvalidParams
        <-> parseArguments tool args = None)
  /\ (forall tool args st,
        exists reply,
          (callTool inngestClient inngestConfig platform tool args st).1
          = Ok reply).
Proof.
  pose proof (run_returns_text inngestClient inngestConfig platform) as Htext.
  split; [exact Htext|]. split; [|split].
  - intros call st message He.
    rewrite (run_states_message inngestClient inngestConfig platform call st _ He).
    destruct call; reflexivity.
  - intros tool args st. unfold callTool.
    destruct (parseArguments tool args) as [call|]; [|split; reflexivity].
    unfold mbind, M_bind.
    destruct (Htext call st) as [t Ht].
    destruct (run inngestClient inngestConfig platform call st) as [r st1].
    cbn in Ht. subst r. cbn. split; discriminate.
  - intros tool args st. unfold callTool.
    destruct (parseArguments tool args) as [call|]; [|cbn; eauto].
    unfold mbind, M_bind.
    destruct (Htext call st) as [t Ht].
    destruct (run inngestClient inngestConfig platform call st) as [r st1].
    cbn in Ht. subst r. cbn. eauto.
Qed.

(** ** Rendering a run *)

(** *** The text of a handler, from its pieces *)

Lemma assemble_cons (piece : string) (pieces : list string) :
  assemble (piece :: pieces) = piece +:+ assemble pieces.
Proof.
  unfold assemble. destruct pieces as [|p ps]; cbn [String.concat].
  - symmetry. apply append_nil_r.
  - reflexivity.
Qed.

Lemma assemble_app (l1 l2 : list string) :
  assemble (l1 ++ l2) = assemble l1 +:+ assemble l2.
Proof.
  induction l1 as [|p l1 IH]; [reflexivity|].
  cbn [app]. rewrite !assemble_cons, IH, append_assoc. reflexivity.
Qed.

Lemma assemble_concat_imap {A : Type} (l : list A) :
  forall f : nat -> A -> list string,
    assemble (concat (imap f l))
    = String.concat "" (imap (fun i x => String.concat "" (f i x)) l).
Proof.
  induction l as [|x l IH]; intros f; [reflexivity|].
  cbn [imap concat]. rewrite assemble_app, IH.
  fold (assemble (f 0%nat x)).
  change (String.concat "" (assemble (f 0%nat x) :: ?l))
    with (assemble (assemble (f 0%nat x) :: l)).
  rewrite assemble_cons. reflexivity.
Qed.

(** *** Lines of a text *)

Lemma singleLine_app (a b : string) :
  singleLine (a +:+ b) = singleLine a && singleLine b.
Proof.
  induction a as [|c a IH]; [reflexivity|].
  rewrite append_cons. cbn [singleLine]. rewrite IH, andb_assoc. reflexivity.
Qed.

Lemma prefix_cons (c d : Ascii.ascii) (a b : string) :
  String.prefix (String c a) (String d b)
  = Ascii.eqb c d && String.prefix a b.
Proof.
  cbn [String.prefix].
  destruct (Ascii.ascii_dec c d) as [->|Hne].
  - rewrite Ascii.eqb_refl. reflexivity.
  - apply Ascii.eqb_neq in Hne. rewrite Hne. reflexivity.
Qed.

Lemma prefix_nil_r (a : string) : a <> "" -> String.prefix a "" = false.
Proof. destruct a; [congruence | reflexivity]. Qed.

(** A marker without a line feed is found at the start of a text without
    looking behind the text's first line feed. *)
Lemma prefix_line_feed (marker : string) : forall a b,
  singleLine marker = true ->
  String.prefix marker (a +:+ String lineFeed b) = String.prefix marker a.
Proof.
  induction marker as [|c marker IH]; intros a b Hm.
  - destruct a; reflexivity.
  - cbn [singleLine] in Hm. apply andb_true_iff in Hm as [Hc Hm].
    apply negb_true_iff in Hc.
    destruct a as [|x a].
    + change ("" +:+ String lineFeed b) with (String lineFeed b).
      rewrite prefix_cons, Hc. reflexivity.
    + rewrite append_cons, !prefix_cons, IH by exact Hm. reflexivity.
Qed.

Lemma diverge_prefix (marker lit s : string) :
  diverge marker lit = true -> String.prefix marker (lit +:+ s) = false.
Proof.
  revert lit. induction marker as [|c marker IH]; intros lit H.
  - discriminate H.
  - destruct lit as [|x lit]; [discriminate H|].
    cbn [diverge] in H. rewrite append_cons, prefix_cons.
    destruct (Ascii.eqb c x); [|reflexivity].
    rewrite (IH _ H). reflexivity.
Qed.

Lemma lineBegins_cons marker atStart c s :
  lineBegins marker atStart (String c s)
  = (atStart && String.prefix marker (String c s))
    || lineBegins marker (Ascii.eqb c lineFeed) s.
Proof. reflexivity. Qed.

(** Going on in a line, a text without a line feed brings no new line. *)
Lemma lineBegins_quiet marker v s :
  singleLine v = true ->
  lineBegins marker false (v +:+ s) = lineBegins marker false s.
Proof.
  induction v as [|c v IH]; intros Hv; [reflexivity|].
  cbn [singleLine] in Hv. apply andb_true_iff in Hv as [Hc Hv].
  apply negb_true_iff in Hc.
  rewrite append_cons, lineBegins_cons, Hc. cbn [andb orb]. exact (IH Hv).
Qed.

(** A line feed starts a line. *)
Lemma lineBegins_feed marker atStart s :
  singleLine marker = true -> marker <> "" ->
  lineBegins marker atStart (nl +:+ s) = lineBegins marker true s.
Proof.
  intros Hm Hne. change (nl +:+ s) with (String lineFeed s).
  rewrite lineBegins_cons.
  pose proof (prefix_line_feed marker "" s Hm) as Hp.
  change ("" +:+ String lineFeed s) with (String lineFeed s) in Hp.
  rewrite Hp, (prefix_nil_r _ Hne), andb_false_r, Ascii.eqb_refl.
  reflexivity.
Qed.

(** A line that begins with a text other than the marker. *)
Lemma lineBegins_first marker lit s :
  singleLine lit = true -> diverge marker lit = true ->
  lineBegins marker true (lit +:+ s) = lineBegins marker false s.
Proof.
  intros Hl Hd. rewrite <- (lineBegins_quiet marker lit s Hl).
  destruct lit as [|c lit]; [destruct marker; discriminate Hd|].
  rewrite append_cons, !lineBegins_cons, <- append_cons.
  rewrite (diverge_prefix _ _ _ Hd). reflexivity.
Qed.

(** Lines none of which begins with the marker, up to a line feed. *)
Lemma lineBegins_lines marker p : forall atStart s,
  singleLine marker = true -> marker <> "" ->
  lineBegins marker atStart (p +:+ nl +:+ s)
  = lineBegins marker atStart p || lineBegins marker true s.
Proof.
  induction p as [|c p IH]; intros atStart s Hm Hne.
  - change ("" +:+ nl +:+ s) with (nl +:+ s).
    rewrite lineBegins_feed by assumption. cbn [lineBegins].
    rewrite (prefix_nil_r _ Hne), andb_false_r. reflexivity.
  - rewrite append_cons, !lineBegins_cons, IH by assumption.
    change (nl +:+ s) with (String lineFeed s).
    rewrite <- append_cons, prefix_line_feed by exact Hm.
    rewrite orb_assoc. reflexivity.
Qed.

Lemma lineBegins_block marker p s :
  singleLine marker = true -> marker <> "" ->
  hasLine marker p = false ->
  lineBegins marker true (p +:+ nl +:+ s) = lineBegins marker true s.
Proof.
  intros Hm Hne Hp. rewrite lineBegins_lines by assumption.
  unfold hasLine in Hp. rewrite Hp. reflexivity.
Qed.

Lemma lineBegins_end marker atStart :
  marker <> "" -> lineBegins marker atStart "" = false.
Proof.
  intros Hne. destruct marker; [congruence|]. destruct atStart; reflexivity.
Qed.

(** *** Numbers in decimal fit on a line *)

Lemma singleLine_digit (y : N) : singleLine (String (pretty_N_char y) "") = true.
Proof. unfold pretty_N_char. repeat case_match; reflexivity. Qed.

Lemma singleLine_pretty_N_go (x : N) : forall s,
  singleLine s = true -> singleLine (pretty_N_go x s) = true.
Proof.
  induction (N.lt_wf_0 x) as [x _ IH]. intros s Hs.
  destruct (decide (x = 0)%N) as [->|Hx]; [exact Hs|].
  rewrite pretty_N_go_step by lia.
  apply IH; [apply N.div_lt; lia|].
  pose proof (singleLine_digit (x `mod` 10)) as Hd.
  cbn [singleLine] in Hd |- *. rewrite andb_true_r in Hd. rewrite Hd, Hs.
  reflexivity.
Qed.

Lemma singleLine_pretty_N (x : N) : singleLine (pretty x) = true.
Proof.
  unfold pretty, pretty_N.
  destruct (decide (x = 0)%N); [reflexivity|].
  now apply singleLine_pretty_N_go.
Qed.

Lemma singleLine_pretty_nat (n : nat) : singleLine (pretty n) = true.
Proof. apply (singleLine_pretty_N (N.of_nat n)). Qed.

Lemma singleLine_pretty_Z (z : Z) : singleLine (pretty z) = true.
Proof.
  destruct z as [|p|p].
  - reflexivity.
  - apply (singleLine_pretty_N (N.pos p)).
  - change (pretty (Z.neg p)) with ("-" +:+ pretty (N.pos p)).
    rewrite singleLine_app, (singleLine_pretty_N (N.pos p)). reflexivity.
Qed.

Lemma singleLine_runStatus s : singleLine (showRunStatus s) = true.
Proof. destruct s; reflexivity. Qed.

Lemma singleLine_stepStatus s : singleLine (showStepStatus s) = true.
Proof. destruct s; reflexivity. Qed.

Lemma lineBegins_start marker body s :
  singleLine body = true ->
  String.prefix marker (body +:+ s) = false ->
  lineBegins marker true (body +:+ s) = lineBegins marker false s.
Proof.
  intros Hb Hp. rewrite <- (lineBegins_quiet marker body s Hb).
  destruct (body +:+ s) as [|c t]; cbn [lineBegins andb];
    rewrite Hp; reflexivity.
Qed.

(** The heading of a step begins with its number. *)
Lemma lineBegins_numbered marker (n : nat) s :
  marker = "**Ended:**" \/ marker = "**Duration:**" ->
  lineBegins marker true ("**" +:+ pretty n +:+ s) = lineBegins marker false s.
Proof.
  intros Hm.
  rewrite (lineBegins_start marker "**" (pretty n +:+ s) eq_refl).
  - apply lineBegins_quiet, singleLine_pretty_nat.
  - pose proof (pretty_nat_digit n) as Hd.
    destruct (pretty n) as [|c p]; [discriminate Hd|].
    destruct Hm as [-> | ->];
      destruct c as [[] [] [] [] [] [] [] []];
      first [ reflexivity | discriminate Hd ].
Qed.

Lemma assemble_nil : assemble [] = "".
Proof. reflexivity. Qed.

Lemma endedLines_none platform started ended :
  truthyOptStr ended = false -> endedLines platform started ended = [].
Proof.
  unfold endedLines. destruct ended as [e|]; cbn; [|reflexivity].
  intros ->. reflexivity.
Qed.

#[local] Ltac fits :=
  first [ assumption | reflexivity
        | apply singleLine_pretty_nat | apply singleLine_pretty_Z
        | apply singleLine_runStatus | apply singleLine_stepStatus ].

#[local] Ltac walk :=
  repeat first
    [ rewrite lineBegins_feed by (first [reflexivity | discriminate])
    | rewrite lineBegins_first by reflexivity
    | rewrite lineBegins_numbered by (first [left; reflexivity | right; reflexivity])
    | rewrite lineBegins_block by (first [reflexivity | discriminate | assumption])
    | rewrite lineBegins_quiet by fits ].

#[local] Ltac flatten :=
  cbn [app]; rewrite ?assemble_app, ?assemble_cons, ?assemble_nil, ?append_nil_r, ?append_assoc.

Lemma plainStep_fits step :
  plainStep step = true ->
  singleLine (step_name step) = true
  /\ forall e, step_error step = Some e -> singleLine e = true.
Proof.
  unfold plainStep. intros H. apply andb_true_iff in H as [Hn He].
  split; [exact Hn|]. intros e Hs. rewrite Hs in He. exact He.
Qed.

Lemma stepLines_no_end marker (l : list WorkflowStep) :
  marker = "**Ended:**" \/ marker = "**Duration:**" ->
  forall (f : nat -> nat) rest,
    forallb plainStep l = true ->
    lineBegins marker true
      (assemble (concat (imap (fun i step => stepLines (f i) step) l)) +:+ rest)
    = lineBegins marker true rest.
Proof.
  intros Hm. induction l as [|step l IH]; intros f rest Hl; [reflexivity|].
  cbn [forallb] in Hl. apply andb_true_iff in Hl as [Hstep Hl].
  apply plainStep_fits in Hstep as [Hname Herr].
  cbn [imap concat]. rewrite assemble_app, append_assoc.
  specialize (IH (fun i => f (S i)) rest Hl).
  unfold compose. rewrite <- IH.
  generalize (assemble (concat (imap (fun i step0 => stepLines (f (S i)) step0) l))
              +:+ rest) as tail.
  intros tail. unfold stepLines.
  destruct (step_error step) as [e|];
    [pose proof (Herr e eq_refl) as He; destruct (truthyStr e)|];
    (destruct (step_duration_ms step) as [d|]; [destruct (negb (d =? 0))|]);
    flatten; destruct Hm as [-> | ->]; walk; reflexivity.
Qed.

Lemma reportsNoEnd_spec p :
  reportsNoEnd p = true ->
  hasLine "**Ended:**" p = false /\ hasLine "**Duration:**" p = false.
Proof.
  unfold reportsNoEnd. intros H. apply andb_true_iff in H as [H1 H2].
  apply negb_true_iff in H1. apply negb_true_iff in H2. auto.
Qed.

Lemma plainSummary_fits platform run :
  plainSummary platform run = true ->
  singleLine (run_id run) = true
  /\ singleLine (toLocaleString platform (run_started_at run)) = true.
Proof. unfold plainSummary. intros H. now apply andb_true_iff in H. Qed.

Lemma plainRun_fits platform run :
  plainRun platform run = true ->
  plainSummary platform run = true
  /\ singleLine (function_id run) = true
  /\ singleLine (environment_id run) = true
  /\ singleLine (event_id run) = true
  /\ forall l, steps run = Some l -> forallb plainStep l = true.
Proof.
  unfold plainRun. intros H.
  apply andb_true_iff in H as [H Hsteps].
  apply andb_true_iff in H as [H Hevent].
  apply andb_true_iff in H as [H Henv].
  apply andb_true_iff in H as [H Hfunction].
  repeat (split; [assumption|]).
  intros l Hl. rewrite Hl in Hsteps. exact Hsteps.
Qed.

Lemma outputReportsNoEnd_spec platform run :
  outputReportsNoEnd platform run = true ->
  forall out, output run = Some out -> truthy out = true ->
    hasLine "**Ended:**" (prettyJSON platform out) = false
    /\ hasLine "**Duration:**" (prettyJSON platform out) = false.
Proof.
  unfold outputReportsNoEnd. intros H out Ho Ht. rewrite Ho, Ht in H.
  now apply reportsNoEnd_spec.
Qed.

Lemma runDetailsLines_no_end marker platform runId run :
  marker = "**Ended:**" \/ marker = "**Duration:**" ->
  truthyOptStr (ended_at run) = false ->
  singleLine runId = true ->
  plainRun platform run = true ->
  outputReportsNoEnd platform run = true ->
  hasLine marker (assemble (runDetailsLines platform runId run)) = false.
Proof.
  intros Hm Hended HrunId Hrun Hout.
  apply plainRun_fits in Hrun as (Hsum & Hfunction & Henv & Hevent & Hst).
  apply plainSummary_fits in Hsum as [Hid Hstart].
  pose proof (outputReportsNoEnd_spec _ _ Hout) as Hblock. clear Hout.
  unfold hasLine, runDetailsLines. rewrite (endedLines_none _ _ _ Hended).
  assert (Hsteps : forall l, steps run = Some l ->
             lineBegins marker true
               (assemble (concat (imap stepLines l))) = false).
  { intros l Hl.
    pose proof (stepLines_no_end marker l Hm (fun i => i) "" (Hst l Hl)) as Hs.
    rewrite append_nil_r in Hs.
    change (lineBegins marker true (assemble (concat (imap stepLines l)))
            = lineBegins marker true "") in Hs.
    rewrite Hs. apply lineBegins_end. destruct Hm as [-> | ->]; discriminate. }
  clear Hst.
  destruct (steps run) as [[|step more]|];
    [| specialize (Hsteps _ eq_refl) |];
    (destruct (output run) as [out|];
     [destruct (truthy out) eqn:Ht;
      [destruct (Hblock out eq_refl Ht) as [Hb1 Hb2]|]|]);
    flatten; destruct Hm as [-> | ->]; walk; first [reflexivity | assumption].
Qed.

Lemma eventRunLines_no_end marker platform index run :
  marker = "**Ended:**" \/ marker = "**Duration:**" ->
  truthyOptStr (ended_at run) = false ->
  plainSummary platform run = true ->
  outputReportsNoEnd platform run = true ->
  hasLine marker (assemble (eventRunLines platform index run)) = false.
Proof.
  intros Hm Hended Hsum Hout.
  apply plainSummary_fits in Hsum as [Hid Hstart].
  pose proof (outputReportsNoEnd_spec _ _ Hout) as Hblock. clear Hout.
  unfold hasLine, eventRunLines. rewrite (endedLines_none _ _ _ Hended).
  destruct (output run) as [out|];
    [destruct (truthy out) eqn:Ht;
     [destruct (Hblock out eq_refl Ht) as [Hb1 Hb2]|]|];
    flatten; destruct Hm as [-> | ->]; walk; reflexivity.
Qed.

(** *** The duration *)

Lemma roundHalfEven_close (n d : Z) :
  0 < d -> 2 * Z.abs (d * roundHalfEven n d - n) <= d.
Proof.
  intros Hd. unfold roundHalfEven.
  pose proof (Z.div_mod n d ltac:(lia)) as Hdm.
  pose proof (Z.mod_pos_bound n d Hd) as Hm.
  destruct (Z.ltb_spec (2 * (n mod d)) d);
    [|destruct (Z.ltb_spec d (2 * (n mod d))); [|destruct (Z.even (n / d))]];
    lia.
Qed.

(** A whole number of at most 53 bits is a double. *)
Lemma toDouble_exact (a : Z) : Z.abs a < 2 ^ 53 -> toDouble a = a.
Proof.
  intros Ha. unfold toDouble.
  destruct (Z.eq_dec (Z.abs a) 0) as [H0|H0].
  - rewrite H0. reflexivity.
  - assert (Hlt : Z.log2 (Z.abs a) < 53) by (apply Z.log2_lt_pow2; lia).
    destruct (Z.ltb_spec (Z.log2 (Z.abs a)) 53); [reflexivity|lia].
Qed.

(** Below 2^53 the rounding of the quotient to a double does not move it
    across a half: [Math.round(x / 1000)] is the whole number nearest to the
    exact quotient, a half going up. *)
Lemma roundSeconds_exact (x : Z) :
  Z.abs x < 2 ^ 53 -> roundSeconds x = (x + 500) / 1000.
Proof.
  intros Hx. unfold roundSeconds.
  destruct (Z.eqb_spec x 0) as [->|Hne]; [reflexivity|].
  set (n := Z.abs x). assert (Hn : 0 < n) by (unfold n; lia).
  assert (HL : 0 <= Z.log2 n < 53).
  { split; [apply Z.log2_nonneg | apply Z.log2_lt_pow2; [lia | exact Hx]]. }
  set (k := if 1000 * 2 ^ Z.log2 n <=? n * 2 ^ 9
            then Z.log2 n - 9 else Z.log2 n - 10).
  assert (Hj : 9 <= 52 - k).
  { unfold k. destruct (1000 * 2 ^ Z.log2 n <=? n * 2 ^ 9); lia. }
  set (j := 52 - k) in *.
  destruct (Z.leb_spec j 0); [lia|].
  set (T := 2 ^ (j - 9)).
  assert (HT : 1 <= T).
  { unfold T. pose proof (Z.pow_pos_nonneg 2 (j - 9) ltac:(lia) ltac:(lia)). lia. }
  assert (HS : 2 ^ j = 512 * T).
  { replace j with (9 + (j - 9)) at 1 by lia.
    rewrite Z.pow_add_r by lia. reflexivity. }
  assert (HS2 : 2 ^ (j + 1) = 1024 * T).
  { rewrite Z.pow_add_r by lia. rewrite HS. lia. }
  rewrite HS, HS2.
  pose proof (roundHalfEven_close (n * (512 * T)) 1000 ltac:(lia)) as Hm.
  set (m := roundHalfEven (n * (512 * T)) 1000) in *.
  pose proof (Z.div_mod (x + 500) 1000 ltac:(lia)) as Hdm.
  pose proof (Z.mod_pos_bound (x + 500) 1000 ltac:(lia)) as Hmod.
  set (r := (x + 500) / 1000) in *.
  destruct (Z.ltb_spec 0 x).
  - assert (n = x) as Hnx by (unfold n; lia). rewrite Hnx in Hm.
    symmetry. apply Z.div_unique with (r := 2 * m + 512 * T - 1024 * T * r);
      [|lia].
    left. nia.
  - assert (n = - x) as Hnx by (unfold n; lia). rewrite Hnx in Hm.
    symmetry. apply Z.div_unique with (r := 512 * T - 2 * m - 1024 * T * r);
      [|lia].
    left. nia.
Qed.

Lemma nearest_second (ms : Z) :
  1000 * ((ms + 500) / 1000) - 500 <= ms < 1000 * ((ms + 500) / 1000) + 500.
Proof.
  pose proof (Z.div_mod (ms + 500) 1000 ltac:(lia)) as Hdm.
  pose proof (Z.mod_pos_bound (ms + 500) 1000 ltac:(lia)) as Hm.
  lia.
Qed.

Lemma duration_exact platform ended started e s :
  getTime platform ended = Some e ->
  getTime platform started = Some s ->
  Z.abs e <= 8640000000000000 -> Z.abs s <= 8640000000000000 ->
  Z.abs (e - s) < 2 ^ 53 ->
  duration platform ended started = Some ((e - s + 500) / 1000).
Proof.
  intros He Hs Hbe Hbs Hd. unfold duration, timeValue. rewrite He, Hs.
  destruct (Z.leb_spec (Z.abs e) 8640000000000000); [|lia].
  destruct (Z.leb_spec (Z.abs s) 8640000000000000); [|lia].
  rewrite (toDouble_exact _ Hd), (roundSeconds_exact _ Hd). reflexivity.
Qed.

Lemma endedLines_duration platform started ended e s :
  ended <> "" ->
  getTime platform ended = Some e ->
  getTime platform started = Some s ->
  Z.abs e <= 8640000000000000 -> Z.abs s <= 8640000000000000 ->
  Z.abs (e - s) < 2 ^ 53 ->
  endedLines platform started (Some ended) =
  [ "**Ended:** " +:+ toLocaleString platform ended +:+ nl;
    "**Duration:** " +:+ pretty ((e - s + 500) / 1000) +:+ "s" +:+ nl ].
Proof.
  intros Hne He Hs Hbe Hbs Hd. unfold endedLines.
  apply truthyStr_true in Hne. rewrite Hne.
  rewrite (duration_exact platform ended started e s He Hs Hbe Hbs Hd).
  reflexivity.
Qed.

(** A piece appended behind one that ends its line is a part of the text,
    from the line feed before it on. *)
Lemma includes_line (front back : list string) (a1 a2 b : string) :
  includes (nl +:+ b) (assemble (front ++ [ a1 +:+ a2 +:+ nl; b ] ++ back))
  = true.
Proof.
  apply includes_split.
  exists (assemble front +:+ a1 +:+ a2), (assemble back).
  flatten. reflexivity.
Qed.

Lemma get_run_details_text {S : Type} (inngestClient : ClientApi S)
    (platform : Platform) runId run st :
  (getRunDetails inngestClient runId st).1 = Ok run ->
  (get_run_details inngestClient platform runId st).1
  = Ok (textResult (assemble (runDetailsLines platform runId run))).
Proof.
  intros Hrun. unfold get_run_details, try_catch, mbind, M_bind.
  destruct (getRunDetails inngestClient runId st) as [r st1]. cbn in Hrun.
  subst r. reflexivity.
Qed.

Lemma get_event_runs_sections {S : Type} (inngestClient : ClientApi S)
    (platform : Platform) eventId limit runs st :
  (getEventRuns inngestClient eventId st).1 = Ok runs -> runs <> [] ->
  (get_event_runs inngestClient platform eventId limit st).1
  = Ok (textResult
          ("# Event Runs: " +:+ eventId +:+ nl +:+ nl
           +:+ "**Total runs:** " +:+ pretty (length runs) +:+ nl +:+ nl
           +:+ String.concat ""
                 (imap (fun i run => assemble (eventRunLines platform i run))
                    (slice0 limit runs)))).
Proof.
  intros Hruns Hne. unfold get_event_runs, try_catch, mbind, M_bind.
  destruct (getEventRuns inngestClient eventId st) as [r st1]. cbn in Hruns.
  subst r. destruct runs as [|r0 runs]; [congruence|].
  cbn [length Nat.eqb fst]. do 3 f_equal. unfold eventRunsSummary.
  rewrite assemble_app, assemble_concat_imap. flatten. reflexivity.
Qed.

Lemma eventRunLines_heading platform i run :
  String.prefix ("## Run " +:+ pretty (i + 1)%nat +:+ nl
                 +:+ "**Run ID:** " +:+ run_id run +:+ nl)
    (assemble (eventRunLines platform i run)) = true.
Proof.
  apply prefix_split.
  exists (assemble (drop 2 (eventRunLines platform i run))).
  unfold eventRunLines. cbn [app drop]. flatten. reflexivity.
Qed.

(** C9, amended. Take a run of which the fields that are shown hold no line
    feed (for [get_event_runs]: the run ID and the start as rendered,
    [plainSummary]; for [get_run_details] also the other identifiers, the
    names and errors of the steps and the run ID asked for, [plainRun]), and
    whose output, as shown, has no line that begins with [**Ended:**] or
    [**Duration:**]. If it has no [ended_at] value (absent, or empty), no line
    of the text [get_run_details] returns for it begins with [**Ended:**] or
    with [**Duration:**], nor does any line of its section in the text of
    [get_event_runs].
    Take any run with an [ended_at] value whose start and end are valid time
    values less than 2^53 milliseconds apart: both texts contain the line
    [**Duration:** <d>s], where [d] is the difference between the end and
    the start in milliseconds, divided by 1000 and rounded to the nearest
    whole number, a half going up; instants 90 seconds apart give
    [**Duration:** 90s].
    The text of [get_event_runs] is its two heading lines followed by one
    section for each run shown, in order, each beginning with the run's
    number and its run ID. *)
Theorem run_rendering {S : Type} (inngestClient : ClientApi S)
    (platform : Platform) :
  (forall runId run st,
     (getRunDetails inngestClient runId st).1 = Ok run ->
     exists text,
       (get_run_details inngestClient platform runId st).1
       = Ok {| content := [ {| type := "text"; text := text |} ] |}
       /\ (truthyOptStr (ended_at run) = false ->
           singleLine runId = true -> plainRun platform run = true ->
           outputReportsNoEnd platform run = true ->
           hasLine "**Ended:**" text = false
           /\ hasLine "**Duration:**" text = false)
       /\ (forall ended e s,
             ended_at run = Some ended -> ended <> "" ->
             getTime platform ended = Some e ->
             getTime platform (run_started_at run) = Some s ->
             Z.abs e <= 8640000000000000 -> Z.abs s <= 8640000000000000 ->
             Z.abs (e - s) < 2 ^ 53 ->
             let d := (e - s + 500) / 1000 in
             includes (nl +:+ "**Duration:** " +:+ pretty d +:+ "s" +:+ nl) text
             = true
             /\ 1000 * d - 500 <= e - s < 1000 * d + 500
             /\ (e - s = 90000 ->
                 includes (nl +:+ "**Duration:** 90s" +:+ nl) text = true)))
  /\ (forall eventId limit runs st,
        (getEventRuns inngestClient eventId st).1 = Ok runs -> runs <> [] ->
        exists sections,
          (get_event_runs inngestClient platform eventId limit st).1
          = Ok {| content :=
                    [ {| type := "text";
                         text := "# Event Runs: " +:+ eventId +:+ nl +:+ nl
                                 +:+ "**Total runs:** " +:+ pretty (length runs)
                                 +:+ nl +:+ nl
                                 +:+ String.concat "" sections |} ] |}
          /\ length sections = length (slice0 limit runs)
          /\ forall i run,
               slice0 limit runs !! i = Some run ->
               exists section,
                 sections !! i = Some section
                 /\ String.prefix
                      ("## Run " +:+ pretty (i + 1)%nat +:+ nl
                       +:+ "**Run ID:** " +:+ run_id run +:+ nl) section = true
                 /\ (truthyOptStr (ended_at run) = false ->
                     plainSummary platform run = true ->
                     outputReportsNoEnd platform run = true ->
                     hasLine "**Ended:**" section = false
                     /\ hasLine "**Duration:**" section = false)
                 /\ (forall ended e s,
                       ended_at run = Some ended -> ended <> "" ->
                       getTime platform ended = Some e ->
                       getTime platform (run_started_at run) = Some s ->
                       Z.abs e <= 8640000000000000 ->
                       Z.abs s <= 8640000000000000 ->
                       Z.abs (e - s) < 2 ^ 53 ->
                       let d := (e - s + 500) / 1000 in
                       includes (nl +:+ "**Duration:** " +:+ pretty d
                                 +:+ "s" +:+ nl) section = true
                       /\ 1000 * d - 500 <= e - s < 1000 * d + 500
                       /\ (e - s = 90000 ->
                           includes (nl +:+ "**Duration:** 90s" +:+ nl) section
                           = true))).
Proof.
  split.
  - intros runId run st Hrun.
    exists (assemble (runDetailsLines platform runId run)).
    split; [exact (get_run_details_text _ _ _ _ _ Hrun)|]. split.
    + intros Hended HrunId Hplain Hout. split;
        apply runDetailsLines_no_end; auto.
    + intros ended e s Hended Hne He Hs Hbe Hbs Hd d.
      assert (Hin : includes (nl +:+ "**Duration:** " +:+ pretty d +:+ "s" +:+ nl)
                      (assemble (runDetailsLines platform runId run)) = true).
      { unfold runDetailsLines.
        rewrite Hended, (endedLines_duration _ _ _ e s Hne He Hs Hbe Hbs Hd).
        apply (includes_line
                 [ _; _; _; _; _; _; _; _ ] _ "**Ended:** "
                 (toLocaleString platform ended)). }
      split; [exact Hin|]. split; [apply nearest_second|].
      intros H90. unfold d in Hin. rewrite H90 in Hin. exact Hin.
  - intros eventId limit runs st Hruns Hne.
    exists (imap (fun i run => assemble (eventRunLines platform i run))
              (slice0 limit runs)).
    split; [exact (get_event_runs_sections _ _ _ _ _ _ Hruns Hne)|].
    split; [apply length_imap|].
    intros i run Hi.
    exists (assemble (eventRunLines platform i run)).
    split; [rewrite list_lookup_imap, Hi; reflexivity|].
    split; [apply eventRunLines_heading|]. split.
    + intros Hended Hplain Hout. split; apply eventRunLines_no_end; auto.
    + intros ended e s Hended Hne' He Hs Hbe Hbs Hd d.
      assert (Hin : includes (nl +:+ "**Duration:** " +:+ pretty d +:+ "s" +:+ nl)
                      (assemble (eventRunLines platform i run)) = true).
      { unfold eventRunLines.
        rewrite Hended, (endedLines_duration _ _ _ e s Hne' He Hs Hbe Hbs Hd).
        apply (includes_line
                 [ _; _; _; _ ] _ "**Ended:** "
                 (toLocaleString platform ended)). }
      split; [exact Hin|]. split; [apply nearest_second|].
      intros H90. unfold d in Hin. rewrite H90 in Hin. exact Hin.
Qed.

(** ** The properties on the clients and runs of the tool tests *)

(** C8 on the class itself, configured for the local dev server:
    [manage_run] with [cancel] reports the client's refusal as text. *)
Lemma client_errors_become_text_witness :
  let host := Scenarios.always (Scenarios.createMockResponse (JObj []) 200 "OK") in
  let client := inngestClient Scenarios.localConfig host
                  FacadeScenarios.testCasts in
  let call := Call_manage_run "run-123" cancel in
  clientError client call Client.initial
    = Some (ErrorObj "Run cancellation not available in development mode. Please use Inngest Cloud for run management features.")
  /\ (run client Scenarios.localConfig FacadeScenarios.testPlatform call
         Client.initial).1
     = Ok {| content := [ {| type := "text";
                             text := "Error managing run: Run cancellation not available in development mode. Please use Inngest Cloud for run management features." |} ] |}.
Proof.
  cbn zeta. split; [reflexivity|].
  exact (proj1 (proj2 (client_errors_become_text
                         (inngestClient Scenarios.localConfig
                            (Scenarios.always
                               (Scenarios.createMockResponse (JObj []) 200 "OK"))
                            FacadeScenarios.testCasts)
                         Scenarios.localConfig FacadeScenarios.testPlatform))
           (Call_manage_run "run-123" cancel) Client.initial _ eq_refl).
Defined.

(** C9, as stated, fails in two ways. A run without [ended_at] whose
    [run_id] holds line feeds can bring an Ended and a Duration line of its
    own into the text. And for a start and an end 2^53 milliseconds apart or
    more the subtraction is rounded to a double before it is divided: from
    half a second after the first instant a [Date] can hold to the last one
    there are 17279999999999499 milliseconds, whose nearest whole number of
    seconds is 17279999999999, and the text says 17280000000000. *)
Lemma reported_end_not_of_the_run :
  (ended_at FacadeScenarios.forgedRun = None
   /\ exists text,
        (get_run_details (FacadeScenarios.detailsClient FacadeScenarios.forgedRun)
           FacadeScenarios.testPlatform "run-123" tt).1
        = Ok {| content := [ {| type := "text"; text := text |} ] |}
        /\ hasLine "**Ended:**" text = true
        /\ hasLine "**Duration:**" text = true)
  /\ (getTime FacadeScenarios.farPlatform "+275760-09-13T00:00:00.000Z"
      = Some 8640000000000000
      /\ getTime FacadeScenarios.farPlatform
           (run_started_at FacadeScenarios.longestRun)
         = Some (-8639999999999499)
      /\ 1000 * 17279999999999 - 500
         <= 8640000000000000 - -8639999999999499
         < 1000 * 17279999999999 + 500
      /\ exists text,
           (get_run_details
              (FacadeScenarios.detailsClient FacadeScenarios.longestRun)
              FacadeScenarios.farPlatform "run-123" tt).1
           = Ok {| content := [ {| type := "text"; text := text |} ] |}
           /\ includes (nl +:+ "**Duration:** 17280000000000s" +:+ nl) text
              = true
           /\ includes (nl +:+ "**Duration:** 17279999999999s" +:+ nl) text
              = false).
Proof.
  split.
  - split; [reflexivity|]. eexists. split; [reflexivity|].
    split; vm_compute; reflexivity.
  - split; [reflexivity|]. split; [reflexivity|]. split; [lia|].
    eexists. split; [reflexivity|]. split; vm_compute; reflexivity.
Qed.

(** C9, amended, on a run that lasted a minute and a half, and on one still
    going. *)
Lemma run_rendering_witness :
  let platform := FacadeScenarios.testPlatform in
  let finished := FacadeScenarios.finishedRun in
  let running := FacadeScenarios.runningRun in
  ((getRunDetails (FacadeScenarios.detailsClient finished) "run-123" tt).1
     = Ok finished
   /\ ended_at finished = Some "2024-01-01T00:01:30Z"
   /\ getTime platform "2024-01-01T00:01:30Z" = Some 1704067290000
   /\ getTime platform (run_started_at finished) = Some 1704067200000
   /\ exists text,
        (get_run_details (FacadeScenarios.detailsClient finished) platform
           "run-123" tt).1
        = Ok {| content := [ {| type := "text"; text := text |} ] |}
        /\ includes (nl +:+ "**Duration:** 90s" +:+ nl) text = true)
  /\ ((getRunDetails (FacadeScenarios.detailsClient running) "run-123" tt).1
        = Ok running
      /\ truthyOptStr (ended_at running) = false
      /\ singleLine "run-123" = true
      /\ plainRun platform running = true
      /\ outputReportsNoEnd platform running = true
      /\ exists text,
           (get_run_details (FacadeScenarios.detailsClient running) platform
              "run-123" tt).1
           = Ok {| content := [ {| type := "text"; text := text |} ] |}
           /\ hasLine "**Ended:**" text = false
           /\ hasLine "**Duration:**" text = false).
Proof.
  cbn zeta. split.
  - split; [reflexivity|]. split; [reflexivity|]. split; [reflexivity|].
    split; [reflexivity|].
    destruct (proj1 (run_rendering
                       (FacadeScenarios.detailsClient FacadeScenarios.finishedRun)
                       FacadeScenarios.testPlatform)
                "run-123" FacadeScenarios.finishedRun tt eq_refl)
      as (text & Htext & _ & Hdur).
    exists text. split; [exact Htext|].
    refine (proj2 (proj2 (Hdur "2024-01-01T00:01:30Z" 1704067290000
                            1704067200000 eq_refl _ eq_refl eq_refl _ _ _))
              eq_refl); [discriminate | lia | lia | lia].
  - split; [reflexivity|]. split; [reflexivity|]. split; [reflexivity|].
    split; [reflexivity|]. split; [reflexivity|].
    destruct (proj1 (run_rendering
                       (FacadeScenarios.detailsClient FacadeScenarios.runningRun)
                       FacadeScenarios.testPlatform)
                "run-123" FacadeScenarios.runningRun tt eq_refl)
      as (text & Htext & Hnone & _).
    exists text. split; [exact Htext|].
    exact (Hnone eq_refl eq_refl eq_refl eq_refl).
Defined.

End FacadeFacts.

(* ===================================================================== *)
(** * More on the API client: single-request operations *)
(* ===================================================================== *)

Module ClientBehaviour.
Import JS Async Client JSFacts ClientFacts Diagnostics.

(** ** The test for a local base URL *)

(** X1. The client takes a base URL for a local one exactly when the text
    ["localhost"] or ["127.0.0.1"] occurs somewhere in it, be it in the host,
    the path or the query. *)
Theorem isLocal_anywhere config :
  isLocal config = true
  <-> exists pre post,
        baseUrl config = pre +:+ "localhost" +:+ post
        \/ baseUrl config = pre +:+ "127.0.0.1" +:+ post.
Proof.
  unfold isLocal. rewrite orb_true_iff, !includes_split. split.
  - intros [(pre & post & H)|(pre & post & H)]; exists pre, post; auto.
  - intros (pre & post & [H|H]); [left|right]; exists pre, post; exact H.
Qed.

(** ** Operations that make one request *)

(** What the two operations that list runs make of a response. *)
Lemma getEventRuns_run config host eventId st :
  let rq := buildRequest config ("/v1/events/" +:+ eventId +:+ "/runs")
              noOptions in
  (getEventRuns config host eventId st).1
  = match exchange host (length (calls st)) rq with
    | Ok JNull => Throw (ErrorObj "Cannot read properties of null (reading 'data')")
    | Ok response => Ok (orElse (prop "data" response) (JArr []))
    | Throw e => Throw e
    end
  /\ calls (getEventRuns config host eventId st).2 = calls st ++ [rq].
Proof.
  cbn zeta. rewrite <- apiRequest_result, <- (apiRequest_calls config host).
  unfold getEventRuns, mbind, M_bind, lift.
  destruct (apiRequest _ _ _ _ st) as [[response|e] st1]; cbn; [|auto].
  destruct response; cbn; auto.
Qed.

(** X2. [getEventRuns] makes one request, a GET of
    [/v1/events/<id>/runs]. From an object it returns the [data] field, or
    the empty list when that field is absent or falsy; a body [null] makes it
    throw a [TypeError]; what the request throws it throws on, on a local
    base URL as on any other. *)
Theorem getEventRuns_unwraps config host eventId st :
  let rq := buildRequest config ("/v1/events/" +:+ eventId +:+ "/runs")
              noOptions in
  let answer := exchange host (length (calls st)) rq in
  calls (getEventRuns config host eventId st).2 = calls st ++ [rq]
  /\ fetch_method rq = None /\ fetch_body rq = None
  /\ (forall fields, answer = Ok (JObj fields) ->
        (getEventRuns config host eventId st).1
        = Ok (match assoc "data" fields with
              | Some runs => if truthy runs then runs else JArr []
              | None => JArr []
              end))
  /\ (answer = Ok JNull ->
        exists message,
          (getEventRuns config host eventId st).1 = Throw (ErrorObj message))
  /\ (forall e, answer = Throw e ->
        (getEventRuns config host eventId st).1 = Throw e).
Proof.
  cbn zeta. destruct (getEventRuns_run config host eventId st) as [Hr Hc].
  cbn zeta in Hr, Hc. rewrite Hr, Hc.
  split; [reflexivity|]. split; [reflexivity|]. split; [reflexivity|].
  split; [|split].
  - intros fields ->. reflexivity.
  - intros ->. eauto.
  - intros e ->. reflexivity.
Qed.



Lemma ok_status (response : Response) :
  ok response = true <-> 200 <= status response <= 299.
Proof. unfold ok. rewrite andb_true_iff, !Z.leb_le. tauto. Qed.

(** What one [apiRequest] leaves in the diagnostic fields. *)
Lemma apiRequest_snapshot config host endpoint options st :
  let out := apiRequest config host endpoint options st in
  _lastError out.2 = _lastError st
  /\ (forall v, out.1 = Ok v ->
        exists r,
          _lastResponse out.2 = Some r
          /\ ar_data r = v
          /\ ar_url r = baseUrl config +:+ endpoint
          /\ ar_timestamp r = toISOString host (clock st)
          /\ 200 <= ar_status r <= 299)
  /\ (forall e, out.1 = Throw e -> _lastResponse out.2 = _lastResponse st).
Proof.
  cbn zeta. rewrite apiRequest_run. cbn zeta.
  destruct (fetch host _ _) as [response|e0]; cbn.
  - destruct (ok response) eqn:Hok; cbn.
    + destruct (json response) as [v0|e0]; cbn.
      * split; [reflexivity|]. split; [|discriminate].
        intros v [= <-]. eexists. split; [reflexivity|]. cbn.
        repeat split; apply ok_status in Hok; lia.
      * split; [reflexivity|]. split; [discriminate | reflexivity].
    + split; [reflexivity|]. split; [discriminate | reflexivity].
  - split; [reflexivity|]. split; [discriminate | reflexivity].
Qed.

(** X4. [bulkCancelRuns] sends its request on a local base URL as on any
    other. When the request succeeds, the parsed response is returned as it
    is and is what [getLastResponse] then shows. When it fails, a local base
    URL turns whatever was thrown into the fixed "Bulk cancellation not
    available in development mode" error; any other base URL lets it
    through. *)
Theorem bulkCancelRuns_outcome config host params st :
  let rq := buildRequest config "/v1/cancellations"
              {| method := Some "POST"; headers := None;
                 body := Some (stringify (JObj (bulkCancelBody params))) |} in
  let answer := exchange host (length (calls st)) rq in
  let out := bulkCancelRuns config host params st in
  calls out.2 = calls st ++ [rq]
  /\ (forall v, answer = Ok v ->
        out.1 = Ok v
        /\ exists r, getLastResponse out.2 = Some r
                     /\ ar_data r = v
                     /\ ar_url r = baseUrl config +:+ "/v1/cancellations")
  /\ (forall e, answer = Throw e ->
        out.1 = Throw (if isLocal config
                       then ErrorObj "Bulk cancellation not available in development mode. Please use Inngest Cloud for run management features."
                       else e)
        /\ getLastResponse out.2 = getLastResponse st).
Proof.
  cbn zeta. split; [apply bulkCancelRuns_calls|].
  rewrite <- apiRequest_result.
  pose proof (apiRequest_snapshot config host "/v1/cancellations"
                {| method := Some "POST"; headers := None;
                   body := Some (stringify (JObj (bulkCancelBody params))) |}
                st) as (_ & Hok & Hthrow).
  unfold bulkCancelRuns, try_catch, getLastResponse.
  destruct (apiRequest _ _ _ _ st) as [[v0|e0] st1]; cbn in *; split.
  - intros v [= <-]. split; [reflexivity|].
    destruct (Hok v0 eq_refl) as (r & H1 & H2 & H3 & _). eauto.
  - discriminate.
  - discriminate.
  - intros e [= <-].
    destruct (isLocal config); cbn; (split; [reflexivity|]);
      exact (Hthrow e0 eq_refl).
Qed.


(** ** The diagnostic fields across operations *)

Lemma keeps_ret {A} (a : A) : keepsLastError (mret a : M A).
Proof. intros st. reflexivity. Qed.

Lemma keeps_throw {A} e : keepsLastError (throw e : M A).
Proof. intros st. reflexivity. Qed.

Lemma keeps_lift {A} (r : result A) : keepsLastError (lift r : M A).
Proof. intros st. reflexivity. Qed.

Lemma keeps_dateNow host : keepsLastError (dateNow host).
Proof. intros st. reflexivity. Qed.

Lemma keeps_apiRequest config host endpoint options :
  keepsLastError (apiRequest config host endpoint options).
Proof. intros st. apply apiRequest_lastError. Qed.

Lemma keeps_bind {A B} (m : M A) (f : A -> M B) :
  keepsLastError m -> (forall a, keepsLastError (f a)) ->
  keepsLastError (m ≫= f).
Proof.
  intros Hm Hf st. unfold mbind, M_bind. specialize (Hm st).
  destruct (m st) as [[a|e] st1]; cbn in Hm |- *; [|exact Hm].
  rewrite Hf. exact Hm.
Qed.

Lemma keeps_try_catch {A} (m : M A) (handler : Thrown -> M A) :
  keepsLastError m -> (forall e, keepsLastError (handler e)) ->
  keepsLastError (try_catch m handler).
Proof.
  intros Hm Hh st. unfold try_catch. specialize (Hm st).
  destruct (m st) as [[a|e] st1]; cbn in Hm |- *; [exact Hm|].
  rewrite Hh. exact Hm.
Qed.

Create HintDb keeps.

#[local] Hint Resolve keeps_ret keeps_throw keeps_lift keeps_dateNow
  keeps_apiRequest : keeps.

(** X6. Only the loops over candidate paths write [_lastError]:
    [getEventRuns], [getFunctionRuns], [getRunSteps], [bulkCancelRuns] and
    [sendEvent] leave it as it was even when they fail, and so do
    [getRunDetails], [cancelRun] and [replayRun] when they refuse a local
    base URL. *)
Theorem lastError_written_by_loops_only config host op st :
  recordsErrors op = false \/ isLocal config = true ->
  getLastError (perform config host op st).2 = getLastError st.
Proof.
  intros H. unfold getLastError.
  enough (keepsLastError (perform config host op)) as K by apply K.
  destruct op; cbn in H |- *; unfold discard;
    (apply keeps_bind; [| intros; apply keeps_ret]).
  - unfold getEventRuns.
    apply keeps_bind; [auto with keeps | intros].
    apply keeps_bind; intros; auto with keeps.
  - unfold getFunctionRuns. apply keeps_try_catch.
    + apply keeps_bind; [auto with keeps | intros].
      apply keeps_bind; intros; auto with keeps.
    + intros e. destruct (isLocal config); auto with keeps.
  - destruct H as [H|H]; [discriminate|].
    unfold getRunDetails. rewrite H. auto with keeps.
  - unfold getRunSteps. auto with keeps.
  - destruct H as [H|H]; [discriminate|].
    unfold cancelRun. rewrite H. auto with keeps.
  - unfold bulkCancelRuns. apply keeps_try_catch; [auto with keeps|].
    intros e. destruct (isLocal config); auto with keeps.
  - destruct H as [H|H]; [discriminate|].
    unfold replayRun. rewrite H. auto with keeps.
  - unfold sendEvent.
    apply keeps_bind; [apply keeps_dateNow | intros; auto with keeps].
Qed.

Lemma tracked_refl st st' :
  calls st' = calls st -> _lastResponse st' = _lastResponse st ->
  tracked st st'.
Proof. intros Hc Hl. exists []. rewrite app_nil_r. auto. Qed.

Lemma tracked_trans st st1 st2 :
  tracked st st1 -> tracked st1 st2 -> tracked st st2.
Proof.
  intros (new1 & C1 & L1) (new2 & C2 & L2). exists (new1 ++ new2).
  split; [rewrite C2, C1, app_assoc; reflexivity|].
  destruct L2 as [L2|(r & L2 & (rq & Hin & Hu) & Hs)].
  - rewrite L2. destruct L1 as [L1|(r & L1 & (rq & Hin & Hu) & Hs)];
      [left; exact L1|].
    right. exists r. split; [exact L1|]. split; [|exact Hs].
    exists rq. split; [|exact Hu]. apply elem_of_app. auto.
  - right. exists r. split; [exact L2|]. split; [|exact Hs].
    exists rq. split; [|exact Hu]. apply elem_of_app. auto.
Qed.

Lemma tracks_ret {A} (a : A) : tracks (mret a : M A).
Proof. intros st. now apply tracked_refl. Qed.

Lemma tracks_throw {A} e : tracks (throw e : M A).
Proof. intros st. now apply tracked_refl. Qed.

Lemma tracks_lift {A} (r : result A) : tracks (lift r : M A).
Proof. intros st. now apply tracked_refl. Qed.

Lemma tracks_newDateISO host : tracks (newDateISO host).
Proof. intros st. now apply tracked_refl. Qed.

Lemma tracks_dateNow host : tracks (dateNow host).
Proof. intros st. now apply tracked_refl. Qed.

Lemma tracks_setLastError e : tracks (setLastError e).
Proof. intros st. now apply tracked_refl. Qed.

Lemma tracks_bind {A B} (m : M A) (f : A -> M B) :
  tracks m -> (forall a, tracks (f a)) -> tracks (m ≫= f).
Proof.
  intros Hm Hf st. unfold mbind, M_bind. specialize (Hm st).
  destruct (m st) as [[a|e] st1]; cbn in Hm |- *; [|exact Hm].
  exact (tracked_trans _ _ _ Hm (Hf a st1)).
Qed.

Lemma tracks_try_catch {A} (m : M A) (handler : Thrown -> M A) :
  tracks m -> (forall e, tracks (handler e)) -> tracks (try_catch m handler).
Proof.
  intros Hm Hh st. unfold try_catch. specialize (Hm st).
  destruct (m st) as [[a|e] st1]; cbn in Hm |- *; [exact Hm|].
  exact (tracked_trans _ _ _ Hm (Hh e st1)).
Qed.

Lemma tracks_apiRequest config host endpoint options :
  tracks (apiRequest config host endpoint options).
Proof.
  intros st. exists [buildRequest config endpoint options].
  split; [apply apiRequest_calls|].
  destruct (apiRequest_snapshot config host endpoint options st)
    as (_ & Hok & Hthrow). cbn zeta in Hok, Hthrow.
  destruct (apiRequest config host endpoint options st).1 as [v|e] eqn:E.
  - right. destruct (Hok v eq_refl) as (r & H1 & _ & H3 & _ & H5).
    exists r. split; [exact H1|]. split; [|exact H5].
    exists (buildRequest config endpoint options).
    split; [apply list_elem_of_here | exact H3].
  - left. exact (Hthrow e eq_refl).
Qed.

Create HintDb tracks.

#[local] Hint Resolve tracks_ret tracks_throw tracks_lift tracks_newDateISO
  tracks_dateNow tracks_setLastError tracks_apiRequest : tracks.

Lemma tracks_tryEndpoints {A} host (attempt : string -> M (option A))
    failure endpoints last :
  (forall endpoint, tracks (attempt endpoint)) ->
  tracks (tryEndpoints host attempt failure endpoints last).
Proof.
  intros H. revert last.
  induction endpoints as [|endpoint rest IH]; intros last; cbn.
  - apply tracks_throw.
  - apply tracks_bind.
    + unfold turn. apply tracks_try_catch.
      * apply tracks_bind; [apply H | intros; apply tracks_ret].
      * intros e. apply tracks_bind; [apply tracks_newDateISO | intros ts].
        apply tracks_bind; [apply tracks_setLastError | intros; apply tracks_ret].
    + intros [a|last']; [apply tracks_ret | apply IH].
Qed.

Lemma tracks_perform config host op : tracks (perform config host op).
Proof.
  destruct op; cbn; unfold discard;
    (apply tracks_bind; [| intros; apply tracks_ret]).
  - unfold getEventRuns.
    apply tracks_bind; [auto with tracks | intros].
    apply tracks_bind; intros; auto with tracks.
  - unfold getFunctionRuns. apply tracks_try_catch.
    + apply tracks_bind; [auto with tracks | intros].
      apply tracks_bind; intros; auto with tracks.
    + intros e. destruct (isLocal config); auto with tracks.
  - unfold getRunDetails. destruct (isLocal config); [auto with tracks|].
    apply tracks_tryEndpoints. intros endpoint.
    apply tracks_bind; intros; auto with tracks.
  - unfold getRunSteps. auto with tracks.
  - unfold cancelRun. destruct (isLocal config); [auto with tracks|].
    apply tracks_tryEndpoints. intros endpoint.
    apply tracks_bind; intros; auto with tracks.
  - unfold bulkCancelRuns. apply tracks_try_catch; [auto with tracks|].
    intros e. destruct (isLocal config); auto with tracks.
  - unfold replayRun. destruct (isLocal config); [auto with tracks|].
    apply tracks_tryEndpoints. intros endpoint.
    apply tracks_bind; intros; auto with tracks.
  - unfold sendEvent.
    apply tracks_bind; [apply tracks_dateNow | intros; auto with tracks].
Qed.

(** X7. After any operation, what [getLastResponse] shows is either what it
    showed before, or the snapshot of an answer to one of the requests the
    operation has just made: it carries that request's URL and a success
    status (200 to 299). A failed answer is never recorded. *)
Theorem lastResponse_is_a_recent_success config host op st :
  getLastResponse (perform config host op st).2 = getLastResponse st
  \/ exists r rq,
       getLastResponse (perform config host op st).2 = Some r
       /\ rq ∈ issued config host op st
       /\ ar_url r = fetch_url rq
       /\ 200 <= ar_status r <= 299.
Proof.
  unfold getLastResponse, issued.
  destruct (tracks_perform config host op st) as (new & C & [L|(r & L & (rq & Hin & Hu) & Hs)]).
  - left. exact L.
  - right. exists r, rq. rewrite C, drop_app_length. auto.
Qed.

(** ** The candidate loop under any server *)

Section LoopAny.
Context {A : Type}.
Variable config : InngestConfig.
Variable host : Host.
Variable options : RequestInit.
Variable read : JSON -> result (option A).
Variable failure : string -> string.

Let attempt : string -> M (option A) := fun endpoint =>
  response ← apiRequest config host endpoint options; lift (read response).

Let outcome (n : nat) (endpoint : string) : result (option A) :=
  response ← exchange host n (buildRequest config endpoint options);
  read response.

(** A turn of the loop catches whatever its attempt throws. *)
Lemma turn_never_throws endpoint last st e :
  (turn host attempt endpoint last st).1 <> Throw e.
Proof.
  unfold attempt.
  pose proof (turn_outcome config host options read endpoint last st) as Ho.
  cbv beta zeta in Ho.
  match type of Ho with
  | match ?x with _ => _ end => destruct x as [[r|]|err]
  end; destruct Ho as [Ho _]; rewrite Ho; discriminate.
Qed.

(** Whatever the answers, the loop requests a first part of its list, in
    order; it throws only after the whole list. *)
Lemma loop_requests_prefix endpoints : forall last st,
  exists k,
    (k <= length endpoints)%nat
    /\ calls (tryEndpoints host attempt failure endpoints last st).2
       = calls st ++ requestsFor config options (take k endpoints)
    /\ (forall e,
          (tryEndpoints host attempt failure endpoints last st).1 = Throw e ->
          k = length endpoints)
    /\ (forall a,
          (tryEndpoints host attempt failure endpoints last st).1 = Ok a ->
          (1 <= k)%nat).
Proof.
  induction endpoints as [|e0 rest IH]; intros last st.
  - exists 0%nat. cbn. rewrite app_nil_r.
    repeat split; auto; discriminate.
  - pose proof (turn_never_throws e0 last st) as Hn.
    unfold attempt in *. rewrite tryEndpoints_cons.
    pose proof (turn_calls config host options read e0 last st) as Hc.
    destruct (turn host _ e0 last st) as [[[a|last1]|e] st1]; cbn in Hc, Hn.
    + exists 1%nat. cbn. repeat split; auto; [lia | discriminate].
    + destruct (IH last1 st1) as (k & Hk & C & T & O).
      exists (S k). cbn. split; [lia|]. split.
      * rewrite C, Hc, <- app_assoc. reflexivity.
      * split; [intros e He; f_equal; eauto | intros; lia].
    + exfalso. exact (Hn e eq_refl).
Qed.

(** Candidates that throw, one after the other: the loop goes on with the
    last of their errors, which is also the one recorded. *)
Lemma loop_thrown endpoints : forall k last st,
  (forall j e, (j < S k)%nat -> endpoints !! j = Some e ->
     exists err, outcome (length (calls st) + j) e = Throw err) ->
  (S k <= length endpoints)%nat ->
  exists st1 e err,
    endpoints !! k = Some e
    /\ outcome (length (calls st) + k) e = Throw err
    /\ tryEndpoints host attempt failure endpoints last st
       = tryEndpoints host attempt failure (drop (S k) endpoints)
           (Some (asError err)) st1
    /\ calls st1 = calls st ++ requestsFor config options (take (S k) endpoints)
    /\ ae_message <$> _lastError st1 = Some (asError err).
Proof.
  induction endpoints as [|e0 rest IH]; intros k last st Hall Hk.
  { cbn in Hk. lia. }
  unfold attempt, outcome in *. rewrite tryEndpoints_cons.
  pose proof (turn_calls config host options read e0 last st) as Hc.
  pose proof (turn_outcome config host options read e0 last st) as Ho.
  cbv beta zeta in Ho.
  destruct (Hall 0%nat e0 ltac:(lia) eq_refl) as [err0 H0].
  rewrite Nat.add_0_r in H0. rewrite H0 in Ho. destruct Ho as [Ho He].
  destruct (turn host _ e0 last st) as [r st1]; cbn in Ho, Hc, He. subst r.
  destruct k as [|k].
  - exists st1, e0, err0. rewrite Nat.add_0_r. cbn. auto.
  - destruct (IH k (Some (asError err0)) st1) as (st2 & e & err & L & O & E & C & M).
    + intros j e Hj Hje.
      replace (length (calls st1) + j)%nat with (length (calls st) + S j)%nat
        by (rewrite Hc, length_app; cbn; lia).
      apply Hall; [lia | exact Hje].
    + cbn in Hk. lia.
    + exists st2, e, err. cbn [drop take lookup].
      replace (length (calls st1) + k)%nat with (length (calls st) + S k)%nat
        in O by (rewrite Hc, length_app; cbn; lia).
      repeat split; auto.
      rewrite C, Hc, <- app_assoc. reflexivity.
Qed.

(** After candidates that throw, one that is accepted: the operation
    returns, and the error of the last failed candidate stays recorded. *)
Lemma loop_thrown_then_accepted endpoints k endpoint a last st :
  endpoints !! S k = Some endpoint ->
  (forall j e, (j < S k)%nat -> endpoints !! j = Some e ->
     exists err, outcome (length (calls st) + j) e = Throw err) ->
  outcome (length (calls st) + S k) endpoint = Ok (Some a) ->
  exists e err,
    endpoints !! k = Some e
    /\ outcome (length (calls st) + k) e = Throw err
    /\ (tryEndpoints host attempt failure endpoints last st).1 = Ok a
    /\ ae_message <$> _lastError (tryEndpoints host attempt failure endpoints last st).2
       = Some (asError err).
Proof.
  intros Hk Hall Hat.
  assert (Hlt : (S k < length endpoints)%nat) by (eapply lookup_lt_Some; eauto).
  destruct (loop_thrown endpoints k last st Hall ltac:(lia))
    as (st1 & e & err & L & O & E & C & M).
  exists e, err. split; [exact L|]. split; [exact O|].
  unfold attempt, outcome in *.
  rewrite E, (drop_S _ _ _ Hk), tryEndpoints_cons.
  pose proof (turn_outcome config host options read endpoint
                (Some (asError err)) st1) as Ho.
  cbv beta zeta in Ho.
  replace (length (calls st1)) with (length (calls st) + S k)%nat in Ho.
  2:{ rewrite C, length_app. unfold requestsFor.
      rewrite length_map, length_take. lia. }
  rewrite Hat in Ho. destruct Ho as [Ho He].
  destruct (turn host _ endpoint _ st1) as [r st2]; cbn in Ho, He.
  subst r. cbn. split; [reflexivity|]. rewrite He. exact M.
Qed.

End LoopAny.

Lemma append_inv_head (a b c : string) : a +:+ b = a +:+ c -> b = c.
Proof.
  induction a as [|x a IH]; [auto|].
  rewrite !append_cons. intros [= H]. auto.
Qed.

Lemma urls_distinct config options (endpoints : list string) :
  NoDup endpoints ->
  NoDup (map fetch_url (requestsFor config options endpoints)).
Proof.
  intros H. unfold requestsFor. rewrite map_map. cbn.
  induction H as [|e rest Hnot Hnd IH]; cbn; constructor; [|exact IH].
  rewrite list_elem_of_In, in_map_iff. intros (e' & Heq & Hin).
  apply append_inv_head in Heq. subst e'.
  apply Hnot, list_elem_of_In, Hin.
Qed.

(** Two paths differ when, past a common beginning, they go on differently. *)
#[local] Ltac paths_differ :=
  let H := fresh in
  intros H;
  repeat first
    [ discriminate H
    | apply append_inv_head in H
    | rewrite !append_cons in H; injection H as H ].

#[local] Ltac paths_distinct :=
  repeat (apply NoDup_cons; split;
          [ rewrite ?not_elem_of_cons; repeat split;
            first [ apply not_elem_of_nil | paths_differ ] | ]);
  apply NoDup_nil_2.

Lemma runDetailsEndpoints_distinct runId : NoDup (runDetailsEndpoints runId).
Proof. unfold runDetailsEndpoints. paths_distinct. Qed.

Lemma cancelEndpoints_distinct runId : NoDup (cancelEndpoints runId).
Proof. unfold cancelEndpoints. paths_distinct. Qed.

Lemma replayEndpoints_distinct runId : NoDup (replayEndpoints runId).
Proof. unfold replayEndpoints. paths_distinct. Qed.

(** X8. On a base URL that is not local, and whatever the server answers,
    [getRunDetails], [cancelRun] and [replayRun] request a first part of
    their candidate list, in the order of the list and at least its first
    path, and throw only once the whole list has been requested: at most 3,
    3 and 6 requests. The URLs of a list differ from one another, so no path
    is requested twice. *)
Theorem candidates_tried_once config host runId st :
  isLocal config = false ->
  (exists k,
     (1 <= k <= 3)%nat
     /\ calls (getRunDetails config host runId st).2
        = calls st ++ requestsFor config noOptions
                        (take k (runDetailsEndpoints runId))
     /\ (forall e, (getRunDetails config host runId st).1 = Throw e ->
           k = 3%nat))
  /\ (exists k,
        (1 <= k <= 3)%nat
        /\ calls (cancelRun config host runId st).2
           = calls st ++ requestsFor config post (take k (cancelEndpoints runId))
        /\ (forall e, (cancelRun config host runId st).1 = Throw e ->
              k = 3%nat))
  /\ (exists k,
        (1 <= k <= 6)%nat
        /\ calls (replayRun config host runId st).2
           = calls st ++ requestsFor config post (take k (replayEndpoints runId))
        /\ (forall e, (replayRun config host runId st).1 = Throw e ->
              k = 6%nat))
  /\ NoDup (map fetch_url
              (requestsFor config noOptions (runDetailsEndpoints runId)))
  /\ NoDup (map fetch_url (requestsFor config post (cancelEndpoints runId)))
  /\ NoDup (map fetch_url (requestsFor config post (replayEndpoints runId))).
Proof.
  intros Hcloud. unfold getRunDetails, cancelRun, replayRun. rewrite Hcloud.
  split; [|split; [|split; [|split; [|split]]]].
  - destruct (loop_requests_prefix config host noOptions readRun
                (fun last => "Failed to get run details for " +:+ runId
                             +:+ ". Last error: " +:+ last)
                (runDetailsEndpoints runId) None st) as (k & Hk & C & T & O).
    exists k. split; [|split; [exact C | exact T]].
    cbn in Hk. split; [|exact Hk].
    destruct (tryEndpoints _ _ _ _ _ _).1 as [a|e];
      [exact (O a eq_refl) | rewrite (T e eq_refl); cbn; lia].
  - destruct (loop_requests_prefix config host post
                (fun _ => Ok (Some {| success := true |}))
                (fun last => "Failed to cancel run " +:+ runId
                             +:+ ". Last error: " +:+ last)
                (cancelEndpoints runId) None st) as (k & Hk & C & T & O).
    exists k. split; [|split; [exact C | exact T]].
    cbn in Hk. split; [|exact Hk].
    destruct (tryEndpoints _ _ _ _ _ _).1 as [a|e];
      [exact (O a eq_refl) | rewrite (T e eq_refl); cbn; lia].
  - destruct (loop_requests_prefix config host post
                (fun _ => Ok (Some {| success := true |}))
                (fun last => "Failed to replay run " +:+ runId
                             +:+ ". Last error: " +:+ last)
                (replayEndpoints runId) None st) as (k & Hk & C & T & O).
    exists k. split; [|split; [exact C | exact T]].
    cbn in Hk. split; [|exact Hk].
    destruct (tryEndpoints _ _ _ _ _ _).1 as [a|e];
      [exact (O a eq_refl) | rewrite (T e eq_refl); cbn; lia].
  - apply urls_distinct, runDetailsEndpoints_distinct.
  - apply urls_distinct, cancelEndpoints_distinct.
  - apply urls_distinct, replayEndpoints_distinct.
Qed.

Lemma post_outcome_as_attempt config host n e err :
  postOutcome config host n e = Throw err ->
  (response ← exchange host n (buildRequest config e post);
   (fun _ : JSON => Ok (Some {| success := true |})) response)
  = Throw err.
Proof. unfold postOutcome. intros ->. reflexivity. Qed.

(** X9. A success does not clear the recorded error. When the candidates
    before position [k + 1] all fail and the one at [k + 1] succeeds,
    [getRunDetails], [cancelRun] and [replayRun] return normally, and
    [getLastError] afterwards still shows the message of the failure of the
    candidate at [k]. *)
Theorem last_error_survives_success config host runId st :
  isLocal config = false ->
  let n := length (calls st) in
  (forall k endpoint run,
     runDetailsEndpoints runId !! S k = Some endpoint ->
     (forall j e, (j < S k)%nat -> runDetailsEndpoints runId !! j = Some e ->
        exists err, detailsOutcome config host (n + j) e = Throw err) ->
     detailsOutcome config host (n + S k) endpoint = Ok (Some run) ->
     exists e err,
       runDetailsEndpoints runId !! k = Some e
       /\ detailsOutcome config host (n + k) e = Throw err
       /\ (getRunDetails config host runId st).1 = Ok run
       /\ ae_message <$> getLastError (getRunDetails config host runId st).2
          = Some (asError err))
  /\ (forall k endpoint v,
        cancelEndpoints runId !! S k = Some endpoint ->
        (forall j e, (j < S k)%nat -> cancelEndpoints runId !! j = Some e ->
           exists err, postOutcome config host (n + j) e = Throw err) ->
        postOutcome config host (n + S k) endpoint = Ok v ->
        exists e err,
          cancelEndpoints runId !! k = Some e
          /\ postOutcome config host (n + k) e = Throw err
          /\ (cancelRun config host runId st).1 = Ok {| success := true |}
          /\ ae_message <$> getLastError (cancelRun config host runId st).2
             = Some (asError err))
  /\ (forall k endpoint v,
        replayEndpoints runId !! S k = Some endpoint ->
        (forall j e, (j < S k)%nat -> replayEndpoints runId !! j = Some e ->
           exists err, postOutcome config host (n + j) e = Throw err) ->
        postOutcome config host (n + S k) endpoint = Ok v ->
        exists e err,
          replayEndpoints runId !! k = Some e
          /\ postOutcome config host (n + k) e = Throw err
          /\ (replayRun config host runId st).1 = Ok {| success := true |}
          /\ ae_message <$> getLastError (replayRun config host runId st).2
             = Some (asError err)).
Proof.
  intros Hcloud n. unfold getRunDetails, cancelRun, replayRun, getLastError.
  rewrite Hcloud. split; [|split].
  - intros k endpoint run Hk Hall Hat.
    exact (loop_thrown_then_accepted config host noOptions readRun _ _ k
             endpoint run None st Hk Hall Hat).
  - intros k endpoint v Hk Hall Hat.
    destruct (loop_thrown_then_accepted config host post
                (fun _ => Ok (Some {| success := true |}))
                (fun last => "Failed to cancel run " +:+ runId
                             +:+ ". Last error: " +:+ last)
                (cancelEndpoints runId) k endpoint {| success := true |}
                None st Hk) as (e & err & L & O & R & M).
    + intros j e Hj He. destruct (Hall j e Hj He) as [err Herr].
      exists err. now apply post_outcome_as_attempt.
    + fold n. unfold postOutcome in Hat. rewrite Hat. reflexivity.
    + exists e, err. repeat split; auto.
      fold n in O. unfold postOutcome.
      destruct (exchange host (n + k) _); [discriminate | cbn in O; congruence].
  - intros k endpoint v Hk Hall Hat.
    destruct (loop_thrown_then_accepted config host post
                (fun _ => Ok (Some {| success := true |}))
                (fun last => "Failed to replay run " +:+ runId
                             +:+ ". Last error: " +:+ last)
                (replayEndpoints runId) k endpoint {| success := true |}
                None st Hk) as (e & err & L & O & R & M).
    + intros j e Hj He. destruct (Hall j e Hj He) as [err Herr].
      exists err. now apply post_outcome_as_attempt.
    + fold n. unfold postOutcome in Hat. rewrite Hat. reflexivity.
    + exists e, err. repeat split; auto.
      fold n in O. unfold postOutcome.
      destruct (exchange host (n + k) _); [discriminate | cbn in O; congruence].
Qed.

(** ** The configuration the server starts with *)

Lemma orDefault_truthy value fallback :
  fallback <> "" -> Startup.orDefault value fallback <> "".
Proof.
  intros Hf. unfold Startup.orDefault. destruct value as [v|]; [|exact Hf].
  destruct (truthyStr v) eqn:T; [now apply truthyStr_true | exact Hf].
Qed.

Lemma orDefault_unset value fallback :
  value = None \/ value = Some "" -> Startup.orDefault value fallback = fallback.
Proof. intros [-> | ->]; reflexivity. Qed.

(** X10. The configuration read off the environment always has a signing
    key and a base URL that are not empty. With [INNGEST_SIGNING_KEY] unset
    or empty the key is the local sentinel, and then no request of any
    operation carries an [Authorization] header, whatever the base URL; with
    [INNGEST_BASE_URL] unset or empty the base URL is a local one. *)
Theorem startup_defaults (processEnv : gmap string string) :
  let config := Startup.inngestConfig processEnv in
  signingKey config <> "" /\ baseUrl config <> ""
  /\ (processEnv !! "INNGEST_SIGNING_KEY" = None
      \/ processEnv !! "INNGEST_SIGNING_KEY" = Some "" ->
      signingKey config = "local-dev-key"
      /\ forall host op st rq,
           rq ∈ issued config host op st ->
           fetch_headers rq !! "Authorization" = None)
  /\ (processEnv !! "INNGEST_BASE_URL" = None
      \/ processEnv !! "INNGEST_BASE_URL" = Some "" ->
      baseUrl config = "http://localhost:8288" /\ isLocal config = true).
Proof.
  cbn zeta. split; [|split; [|split]].
  - cbn. now apply orDefault_truthy.
  - cbn. now apply orDefault_truthy.
  - intros H.
    assert (Hkey : signingKey (Startup.inngestConfig processEnv)
                   = "local-dev-key") by (cbn; now apply orDefault_unset).
    split; [exact Hkey|]. intros host op st rq Hin.
    rewrite (plain_authorization _ rq (issued_plain _ _ _ _ _ Hin)).
    unfold sendsAuth. rewrite Hkey. reflexivity.
  - intros H.
    assert (Hurl : baseUrl (Startup.inngestConfig processEnv)
                   = "http://localhost:8288") by (cbn; now apply orDefault_unset).
    split; [exact Hurl|]. unfold isLocal. rewrite Hurl. reflexivity.
Qed.

Section LoopFinal.
Context {A : Type}.
Variable config : InngestConfig.
Variable host : Host.
Variable options : RequestInit.
Variable read : JSON -> result (option A).
Variable failure : string -> string.

(** What the loop throws is its own final error, never a candidate's. *)
Lemma loop_throws_final endpoints : forall last st e,
  (tryEndpoints host
     (fun endpoint =>
        response ← apiRequest config host endpoint options;
        lift (read response))
     failure endpoints last st).1 = Throw e ->
  exists text, e = ErrorObj (failure text).
Proof.
  induction endpoints as [|e0 rest IH]; intros last st e.
  - cbn. intros [= <-]. eauto.
  - rewrite tryEndpoints_cons.
    pose proof (turn_never_throws config host options read e0 last st) as Hn.
    cbv zeta in Hn.
    destruct (turn host _ e0 last st) as [[[a|last1]|e'] st1]; cbn in Hn |- *.
    + discriminate.
    + apply IH.
    + intros _. exfalso. exact (Hn e' eq_refl).
Qed.

End LoopFinal.

(** ** On the configurations of the test suite *)

(** X6 on an event the server refuses. *)
Lemma lastError_written_by_loops_only_witness :
  let host := Scenarios.always
                (Scenarios.createMockResponse (JObj []) 400 "Bad Request") in
  let op := SendEvent "test.event" (JObj []) in
  recordsErrors op = false
  /\ getLastError (perform Scenarios.mockConfig host op initial).2 = None.
Proof.
  cbn zeta. split; [reflexivity|].
  exact (lastError_written_by_loops_only Scenarios.mockConfig
           (Scenarios.always
              (Scenarios.createMockResponse (JObj []) 400 "Bad Request"))
           (SendEvent "test.event" (JObj [])) initial (or_introl eq_refl)).
Defined.

(** X8 on a server that answers 404 to everything. *)
Lemma candidates_tried_once_witness :
  let host := Scenarios.always
                (Scenarios.createMockResponse (JObj []) 404 "Not Found") in
  isLocal Scenarios.mockConfig = false
  /\ exists k,
       (1 <= k <= 6)%nat
       /\ calls (replayRun Scenarios.mockConfig host "run-123" initial).2
          = calls initial
            ++ requestsFor Scenarios.mockConfig post
                 (take k (replayEndpoints "run-123"))
       /\ (forall e,
             (replayRun Scenarios.mockConfig host "run-123" initial).1 = Throw e ->
             k = 6%nat).
Proof.
  cbn zeta. split; [reflexivity|].
  exact (proj1 (proj2 (proj2
           (candidates_tried_once Scenarios.mockConfig
              (Scenarios.always
                 (Scenarios.createMockResponse (JObj []) 404 "Not Found"))
              "run-123" initial eq_refl)))).
Defined.

(** X9 where the first cancel path answers 404 and the second succeeds. *)
Lemma last_error_survives_success_witness :
  let host := Scenarios.onlyCall 1 (JObj []) in
  isLocal Scenarios.mockConfig = false
  /\ (cancelRun Scenarios.mockConfig host "run-123" initial).1
     = Ok {| success := true |}
  /\ ae_message <$> getLastError
                      (cancelRun Scenarios.mockConfig host "run-123" initial).2
     = Some "Inngest API error: 404 Not Found - {}".
Proof.
  cbn zeta. split; [reflexivity|].
  destruct (proj1 (proj2
              (last_error_survives_success Scenarios.mockConfig
                 (Scenarios.onlyCall 1 (JObj [])) "run-123" initial eq_refl))
              0%nat "/v1/runs/run-123/cancel" (JObj []) eq_refl)
    as (e & err & L & O & R & M).
  - intros j e Hj He. assert (j = 0%nat) as -> by lia.
    cbn in He. injection He as <-. eexists. reflexivity.
  - reflexivity.
  - cbn in L. injection L as <-. vm_compute in O. injection O as <-.
    split; [exact R | exact M].
Defined.

(** X2 on an envelope with an empty list. *)
Lemma getEventRuns_unwraps_witness :
  let host := Scenarios.always
                (Scenarios.createMockResponse (JObj [("data", JArr [])]) 200 "OK") in
  let rq := buildRequest Scenarios.mockConfig "/v1/events/event-123/runs"
              noOptions in
  exchange host 0 rq = Ok (JObj [("data", JArr [])])
  /\ (getEventRuns Scenarios.mockConfig host "event-123" initial).1
     = Ok (JArr []).
Proof.
  cbn zeta. split; [reflexivity|].
  exact (proj1 (proj2 (proj2 (proj2
           (getEventRuns_unwraps Scenarios.mockConfig
              (Scenarios.always
                 (Scenarios.createMockResponse
                    (JObj [("data", JArr [])]) 200 "OK"))
              "event-123" initial))))
           [("data", JArr [])] eq_refl).
Defined.


(** X4 on a local server that answers 400. *)
Lemma bulkCancelRuns_outcome_witness :
  let host := Scenarios.always
                (Scenarios.createMockResponse (JObj []) 400 "Bad Request") in
  let params := {| functionId := Some "func-123"; startedAfter := None;
                   startedBefore := None; condition := None |} in
  length (calls (bulkCancelRuns Scenarios.localConfig host params initial).2)
    = 1%nat
  /\ (bulkCancelRuns Scenarios.localConfig host params initial).1
     = Throw (ErrorObj "Bulk cancellation not available in development mode. Please use Inngest Cloud for run management features.").
Proof.
  cbn zeta.
  destruct (bulkCancelRuns_outcome Scenarios.localConfig
              (Scenarios.always
                 (Scenarios.createMockResponse (JObj []) 400 "Bad Request"))
              {| functionId := Some "func-123"; startedAfter := None;
                 startedBefore := None; condition := None |} initial)
    as (Hcalls & _ & Hthrown).
  split; [rewrite Hcalls; reflexivity|].
  exact (proj1 (Hthrown (ErrorObj "Inngest API error: 400 Bad Request - {}")
                  eq_refl)).
Defined.


(** X10 on an empty environment. *)
Lemma startup_defaults_witness :
  let config := Startup.inngestConfig ∅ in
  (∅ : gmap string string) !! "INNGEST_SIGNING_KEY" = None
  /\ signingKey config = "local-dev-key"
  /\ baseUrl config = "http://localhost:8288"
  /\ isLocal config = true.
Proof.
  cbn zeta. split; [reflexivity|].
  destruct (startup_defaults ∅) as (_ & _ & Hkey & Hurl).
  split; [exact (proj1 (Hkey (or_introl eq_refl)))|].
  exact (Hurl (or_introl eq_refl)).
Defined.

End ClientBehaviour.

(* ===================================================================== *)
(** * More on the tool facade *)
(* ===================================================================== *)

Module FacadeBehaviour.
Import JS Async Facade Rendering JSFacts FacadeFacts.

(** ** The limit of [get_event_runs] *)






(** ** The handlers over the class itself *)

(** X13. With the client configured for a local base URL, the tools
    [get_run_details] and [manage_run] (with either action) make no request
    and change nothing in the client: they answer with their error prefix
    followed by the client's "not available in development mode" message. *)
Theorem local_refusal_as_text config host casts platform runId st :
  Client.isLocal config = true ->
  let client := inngestClient config host casts in
  get_run_details client platform runId st
  = (Ok (textResult "Error getting run details: Run details not available in development mode. Please use Inngest Cloud for run management features."),
     st)
  /\ manage_run client runId cancel st
     = (Ok (textResult "Error managing run: Run cancellation not available in development mode. Please use Inngest Cloud for run management features."),
        st)
  /\ manage_run client runId replay st
     = (Ok (textResult "Error managing run: Run replay not available in development mode. Please use Inngest Cloud for run management features."),
        st).
Proof.
  intros Hlocal. cbn zeta.
  unfold get_run_details, manage_run, try_catch, mbind, M_bind. cbn.
  unfold Client.getRunDetails, Client.cancelRun, Client.replayRun.
  rewrite Hlocal. cbn. auto.
Qed.

Lemma manage_run_cases {S : Type} (client : ClientApi S) runId action st :
  manage_run client runId action st
  = match (match action with
           | cancel => cancelRun client runId
           | replay => replayRun client runId
           end) st with
    | (Ok _, st1) =>
        (Ok (textResult ((match action with
                          | cancel => "Cancelled run "
                          | replay => "Replayed run "
                          end) +:+ runId)), st1)
    | (Throw e, st1) =>
        (Ok (textResult ("Error managing run: " +:+ messageOrString e)), st1)
    end.
Proof.
  unfold manage_run, try_catch, mbind, M_bind.
  destruct action.
  - destruct (cancelRun client runId st) as [[a|e] st1]; reflexivity.
  - destruct (replayRun client runId st) as [[a|e] st1]; reflexivity.
Qed.

(** X14. With the client on a base URL that is not local, [manage_run]
    with [cancel] requests only cancel paths, a first part of that list, and
    answers "Cancelled run <id>" or, once all three have been requested, the
    error text that begins "Error managing run: Failed to cancel run <id>.
    Last error: "; likewise with [replay] over the six replay paths. *)
Theorem manage_run_requests config host casts runId st :
  Client.isLocal config = false ->
  let client := inngestClient config host casts in
  (exists k,
     (1 <= k <= 3)%nat
     /\ Client.calls (manage_run client runId cancel st).2
        = Client.calls st
          ++ Client.requestsFor config Client.post
               (take k (Client.cancelEndpoints runId))
     /\ ((manage_run client runId cancel st).1
           = Ok (textResult ("Cancelled run " +:+ runId))
         \/ k = 3%nat
            /\ exists last,
                 (manage_run client runId cancel st).1
                 = Ok (textResult ("Error managing run: Failed to cancel run "
                                   +:+ runId +:+ ". Last error: " +:+ last))))
  /\ (exists k,
        (1 <= k <= 6)%nat
        /\ Client.calls (manage_run client runId replay st).2
           = Client.calls st
             ++ Client.requestsFor config Client.post
                  (take k (Client.replayEndpoints runId))
        /\ ((manage_run client runId replay st).1
              = Ok (textResult ("Replayed run " +:+ runId))
            \/ k = 6%nat
               /\ exists last,
                    (manage_run client runId replay st).1
                    = Ok (textResult ("Error managing run: Failed to replay run "
                                      +:+ runId +:+ ". Last error: " +:+ last)))).
Proof.
  intros Hcloud. cbn zeta. rewrite !manage_run_cases.
  cbn [cancelRun replayRun inngestClient].
  unfold Client.cancelRun, Client.replayRun. rewrite Hcloud. split.
  - destruct (ClientBehaviour.loop_requests_prefix config host Client.post
                (fun _ => Ok (Some {| Client.success := true |}))
                (fun last => "Failed to cancel run " +:+ runId
                             +:+ ". Last error: " +:+ last)
                (Client.cancelEndpoints runId) None st) as (k & Hk & C & T & O).
    pose proof (ClientBehaviour.loop_throws_final config host Client.post
                  (fun _ => Ok (Some {| Client.success := true |}))
                  (fun last => "Failed to cancel run " +:+ runId
                               +:+ ". Last error: " +:+ last)
                  (Client.cancelEndpoints runId) None st) as F.
    destruct (Client.tryEndpoints _ _ _ _ _ st) as [[a|e] st1];
      cbn in C, T, O, F |- *; exists k.
    + split; [cbn in Hk; pose proof (O a eq_refl); lia|]. auto.
    + pose proof (T e eq_refl) as ->. split; [cbn; lia|]. split; [exact C|].
      right. split; [reflexivity|].
      destruct (F e eq_refl) as [text ->]. exists text. reflexivity.
  - destruct (ClientBehaviour.loop_requests_prefix config host Client.post
                (fun _ => Ok (Some {| Client.success := true |}))
                (fun last => "Failed to replay run " +:+ runId
                             +:+ ". Last error: " +:+ last)
                (Client.replayEndpoints runId) None st) as (k & Hk & C & T & O).
    pose proof (ClientBehaviour.loop_throws_final config host Client.post
                  (fun _ => Ok (Some {| Client.success := true |}))
                  (fun last => "Failed to replay run " +:+ runId
                               +:+ ". Last error: " +:+ last)
                  (Client.replayEndpoints runId) None st) as F.
    destruct (Client.tryEndpoints _ _ _ _ _ st) as [[a|e] st1];
      cbn in C, T, O, F |- *; exists k.
    + split; [cbn in Hk; pose proof (O a eq_refl); lia|]. auto.
    + pose proof (T e eq_refl) as ->. split; [cbn; lia|]. split; [exact C|].
      right. split; [reflexivity|].
      destruct (F e eq_refl) as [text ->]. exists text. reflexivity.
Qed.

(** ** Optional parts of a rendered run *)


Lemma singleLine_showNumber n : singleLine (showNumber n) = true.
Proof. destruct n; [apply singleLine_pretty_Z | reflexivity]. Qed.

Lemma output_numbered (n : nat) s :
  lineBegins "**Output:**" true ("**" +:+ pretty n +:+ s)
  = lineBegins "**Output:**" false s.
Proof.
  rewrite (lineBegins_start "**Output:**" "**" (pretty n +:+ s) eq_refl).
  - apply lineBegins_quiet, singleLine_pretty_nat.
  - pose proof (pretty_nat_digit n) as Hd.
    destruct (pretty n) as [|c p]; [discriminate Hd|].
    destruct c as [[] [] [] [] [] [] [] []];
      first [ reflexivity | discriminate Hd ].
Qed.

#[local] Ltac fits :=
  first [ assumption | reflexivity
        | apply singleLine_pretty_nat | apply singleLine_pretty_Z
        | apply singleLine_runStatus | apply singleLine_stepStatus
        | apply singleLine_showNumber ].

#[local] Ltac walk :=
  repeat first
    [ rewrite lineBegins_feed by (first [reflexivity | discriminate])
    | rewrite lineBegins_first by reflexivity
    | rewrite output_numbered
    | rewrite lineBegins_quiet by fits ].

#[local] Ltac flatten :=
  cbn [app];
  repeat first
    [ rewrite assemble_app | rewrite assemble_cons | rewrite assemble_nil
    | rewrite append_nil_r | rewrite append_assoc ].







(** ** The steps of a run *)



(** ** [debug_connection] *)

(** X17. On the configuration the server starts with, [debug_connection]
    always reports "Has Signing Key: true", a key having been configured or
    not, and leaves the client as it finds it. *)
Theorem debug_always_reports_a_key {S : Type} (inngestClient : ClientApi S)
    (processEnv : gmap string string) (platform : Platform) (st : S) :
  let config := Startup.inngestConfig processEnv in
  debug_connection inngestClient config platform st
  = (Ok (textResult
           ("**Inngest Configuration:**" +:+ nl
            +:+ "- Base URL: " +:+ Client.baseUrl config +:+ nl
            +:+ "- Has Signing Key: true" +:+ nl
            +:+ "- Environment: "
            +:+ match processEnv !! "INNGEST_ENV" with
                | Some e => if truthyStr e then e else "not set"
                | None => "not set"
                end +:+ nl +:+ nl
            +:+ "**Last API Response:** "
            +:+ match getLastResponse inngestClient st with
                | Some r => prettyJSON platform (apiResponseJSON r)
                | None => "None"
                end +:+ nl +:+ nl
            +:+ "**Last Error:** "
            +:+ match getLastError inngestClient st with
                | Some e => prettyJSON platform (apiErrorJSON e)
                | None => "None"
                end)),
     st).
Proof.
  cbn zeta. unfold debug_connection.
  assert (truthyStr (Client.signingKey (Startup.inngestConfig processEnv))
          = true) as ->.
  { apply truthyStr_true. cbn.
    now apply ClientBehaviour.orDefault_truthy. }
  reflexivity.
Qed.

(** ** On the clients and runs of the tool tests *)



(** X13 on the defaults of [index.ts]. *)
Lemma local_refusal_as_text_witness :
  let host := Scenarios.always (Scenarios.createMockResponse (JObj []) 200 "OK") in
  let client := inngestClient Scenarios.localConfig host
                  FacadeScenarios.testCasts in
  Client.isLocal Scenarios.localConfig = true
  /\ manage_run client "run-123" replay Client.initial
     = (Ok (textResult "Error managing run: Run replay not available in development mode. Please use Inngest Cloud for run management features."),
        Client.initial).
Proof.
  cbn zeta. split; [reflexivity|].
  exact (proj2 (proj2
           (local_refusal_as_text Scenarios.localConfig
              (Scenarios.always (Scenarios.createMockResponse (JObj []) 200 "OK"))
              FacadeScenarios.testCasts FacadeScenarios.testPlatform
              "run-123" Client.initial eq_refl))).
Defined.

(** X14 on a server that answers 404 to everything. *)
Lemma manage_run_requests_witness :
  let host := Scenarios.always
                (Scenarios.createMockResponse (JObj []) 404 "Not Found") in
  let client := inngestClient Scenarios.mockConfig host
                  FacadeScenarios.testCasts in
  Client.isLocal Scenarios.mockConfig = false
  /\ exists k,
       (1 <= k <= 3)%nat
       /\ Client.calls (manage_run client "run-123" cancel Client.initial).2
          = Client.calls Client.initial
            ++ Client.requestsFor Scenarios.mockConfig Client.post
                 (take k (Client.cancelEndpoints "run-123"))
       /\ ((manage_run client "run-123" cancel Client.initial).1
             = Ok (textResult ("Cancelled run " +:+ "run-123"))
           \/ k = 3%nat
              /\ exists last,
                   (manage_run client "run-123" cancel Client.initial).1
                   = Ok (textResult
                           ("Error managing run: Failed to cancel run "
                            +:+ "run-123" +:+ ". Last error: " +:+ last))).
Proof.
  cbn zeta. split; [reflexivity|].
  exact (proj1 (manage_run_requests Scenarios.mockConfig
                  (Scenarios.always
                     (Scenarios.createMockResponse (JObj []) 404 "Not Found"))
                  FacadeScenarios.testCasts "run-123" Client.initial eq_refl)).
Defined.



End FacadeBehaviour.
